(** * rss_to_blogger: the feed-to-draft pipeline

    A shallow embedding of [rss_to_blogger.py].  Python [str] values are
    [string]s whose characters stand for code points below 256; Python
    integers that may be negative are [Z], counters are [nat].  The
    process-wide [PROCESSED_ARTICLES] set is a [gset] of identifiers, the
    dictionary built by [rewrite_article] is a [gmap].  Calls that leave the
    process (feedparser, the Groq client, the Blogger client, markdownify,
    html.unescape) are fields of an environment record; every call to a
    network service is recorded in a trace.  Console output and timestamps
    are not modelled. *)

From Stdlib Require Import ZArith Ascii String List Bool Lia.
From stdpp Require Import base decidable option list gmap strings.

Local Open Scope string_scope.

(** ** Python string primitives *)

Module Py.

Definition nl : string := String "010"%char EmptyString.

(** [str.isspace] for one character: the ASCII table of CPython
    (0x09-0x0D, 0x1C-0x20) and the two Latin-1 white spaces 0x85, 0xA0.
    The [\s] class of [re] on [str] patterns and [str.split]/[str.strip]
    without argument use the same predicate. *)
Definition isspace (c : ascii) : bool :=
  let n := N_of_ascii c in
  ((9 <=? n) && (n <=? 13) || (28 <=? n) && (n <=? 32)
   || (n =? 133) || (n =? 160))%N.

(** [re.sub(r'\s+', ' ', s)]; [in_run] tells that the run of white space
    being read has already produced its blank. *)
Fixpoint sub_ws_from (in_run : bool) (s : string) : string :=
  match s with
  | EmptyString => EmptyString
  | String c r =>
      if isspace c
      then (if in_run then sub_ws_from true r
            else String " "%char (sub_ws_from true r))
      else String c (sub_ws_from false r)
  end.

Definition sub_ws (s : string) : string := sub_ws_from false s.

Fixpoint lstrip (s : string) : string :=
  match s with
  | EmptyString => EmptyString
  | String c r => if isspace c then lstrip r else s
  end.

Fixpoint rstrip (s : string) : string :=
  match s with
  | EmptyString => EmptyString
  | String c r =>
      match rstrip r with
      | EmptyString => if isspace c then EmptyString else String c EmptyString
      | r' => String c r'
      end
  end.

(** [s.strip()] *)
Definition strip (s : string) : string := rstrip (lstrip s).

(** [s.split()]: the maximal runs of characters that are not white space. *)
Fixpoint split (s : string) : list string :=
  match s with
  | EmptyString => []
  | String c r =>
      if isspace c then split r
      else match r with
           | EmptyString => [String c EmptyString]
           | String c' _ =>
               if isspace c' then String c EmptyString :: split r
               else match split r with
                    | w :: ws => String c w :: ws
                    | [] => [String c EmptyString]
                    end
           end
  end.

(** [str.lower] on code points below 256: A-Z, and the Latin-1 capitals
    0xC0-0xDE but for the multiplication sign 0xD7. *)
Definition lower_char (c : ascii) : ascii :=
  let n := N_of_ascii c in
  if ((65 <=? n) && (n <=? 90)
      || (192 <=? n) && (n <=? 222) && negb (n =? 215))%N
  then ascii_of_N (n + 32) else c.

Fixpoint lower (s : string) : string :=
  match s with
  | EmptyString => EmptyString
  | String c r => String (lower_char c) (lower r)
  end.

(** [s.startswith(p)] *)
Fixpoint startswith (p s : string) : bool :=
  match p, s with
  | EmptyString, _ => true
  | String a p', String b s' => if Ascii.eqb a b then startswith p' s' else false
  | String _ _, EmptyString => false
  end.

(** [s.endswith(suf)] *)
Fixpoint endswith (suf s : string) : bool :=
  match s with
  | EmptyString => String.eqb suf EmptyString
  | String _ r => String.eqb suf s || endswith suf r
  end.

(** [s.endswith((t1, ..., tn))] *)
Definition endswith_any (sufs : list string) (s : string) : bool :=
  existsb (fun suf => endswith suf s) sufs.

(** [s[:n]] for [n >= 0] *)
Fixpoint take (n : nat) (s : string) : string :=
  match n, s with
  | S n', String c r => String c (take n' r)
  | _, _ => EmptyString
  end.

Fixpoint drop (n : nat) (s : string) : string :=
  match n, s with
  | S n', String _ r => drop n' r
  | _, _ => s
  end.

(** The text that follows the leftmost occurrence of [pat] in [s]. *)
Fixpoint after_first (pat s : string) : option string :=
  if startswith pat s then Some (drop (String.length pat) s)
  else match s with
       | EmptyString => None
       | String _ r => after_first pat r
       end.

(** The characters before the first line feed, when there is one: what a
    lazy group of non-newline characters followed by a line feed captures
    at the head of [s]. *)
Fixpoint line_head (s : string) : option string :=
  match s with
  | EmptyString => None
  | String c r =>
      if Ascii.eqb c "010"%char then Some EmptyString
      else match line_head r with
           | Some l => Some (String c l)
           | None => None
           end
  end.

(** [re.search] for [label], a lazy group and a line feed: its group 1
    when it matches.  A
    match at an occurrence of [label] needs a line feed somewhere after it;
    when the leftmost occurrence has none, no later one has. *)
Definition search_line (label s : string) : option string :=
  match after_first label s with
  | Some rest => line_head rest
  | None => None
  end.

(** [re.search] for [label] and a greedy group under [re.DOTALL]: its
    group 1, all that follows the leftmost occurrence of [label]. *)
Definition search_rest (label s : string) : option string :=
  after_first label s.

(** [s.replace(" ", "_")] *)
Fixpoint replace_blank (s : string) : string :=
  match s with
  | EmptyString => EmptyString
  | String c r =>
      String (if Ascii.eqb c " "%char then "_"%char else c) (replace_blank r)
  end.

(** [s.split(", ")] *)
Fixpoint split_comma (cur s : string) : list string :=
  match s with
  | EmptyString => [cur]
  | String c r =>
      if startswith ", " s
      then cur :: split_comma EmptyString (drop 1 r)
      else split_comma (cur +:+ String c EmptyString) r
  end.

End Py.

(** ** Parsed feed entries, as feedparser hands them over *)

(** One dictionary of a media list; the ["url"] key may be absent. *)
Record media_item := MediaItem { m_url : option string }.

(** One dictionary of an entry's ["content"] list. *)
Record content_item := ContentItem { c_value : option string }.

(** A feed entry: every key may be absent.  A media field holds [None]
    when the key is absent or its value is not a list. *)
Record entry := Entry {
  e_title : option string;
  e_description : option string;
  e_content : option (list content_item);
  e_link : option string;
  e_media_content : option (list media_item);
  e_media_thumbnail : option (list media_item);
  e_enclosure : option (list media_item)
}.

Record parsed_feed := ParsedFeed {
  f_title : option string;
  f_entries : list entry
}.

Inductive media_field := media_content | media_thumbnail | enclosure.

Definition entry_media (e : entry) (f : media_field) : option (list media_item) :=
  match f with
  | media_content => e_media_content e
  | media_thumbnail => e_media_thumbnail e
  | enclosure => e_enclosure e
  end.

(** ** Image Extractor *)

Definition IMAGE_FIELDS : list media_field :=
  [media_content; media_thumbnail; enclosure].

Definition IMAGE_SUFFIXES : list string := [".jpg"; ".jpeg"; ".png"; ".gif"].

Definition truthy (s : string) : bool :=
  match s with EmptyString => false | _ => true end.

(** The test of line 141 on one URL. *)
Definition is_image_url (url : string) : bool :=
  truthy url && Py.endswith_any IMAGE_SUFFIXES (Py.lower url).

(** One turn of the loop of [extract_image]: the URL returned at this
    field, if the loop returns here. *)
Definition image_at (e : entry) (f : media_field) : option string :=
  match entry_media e f with
  | Some (item :: _) =>
      let url := default EmptyString (m_url item) in
      if is_image_url url then Some url else None
  | _ => None
  end.

Fixpoint extract_image_from (fields : list media_field) (e : entry)
  : option string :=
  match fields with
  | [] => None
  | f :: fs =>
      match image_at e f with
      | Some url => Some url
      | None => extract_image_from fs e
      end
  end.

Definition extract_image (e : entry) : option string :=
  extract_image_from IMAGE_FIELDS e.

(** ** Configuration *)

Definition ARTICLES_PER_FEED : Z := 4.
Definition MIN_WORD_COUNT : Z := 15.
Definition MAX_WORKERS : nat := 3.

Definition RSS_FEEDS : list string :=
  [ "https://www.channelstv.com/feed/";
    "https://edition.cnn.com/rss/edition.rss";
    "https://www.theverge.com/rss/index.xml";
    "https://nairametrics.com/feed/";
    "https://www.tmz.com/rss.xml" ].

(** ** Prompt templates *)

Definition CUSTOM_PROMPTS : gmap string string :=
  list_to_map
  [ ("https://www.channelstv.com/feed/",
     Py.nl +:+
     "    You are an expert journalist specializing in Nigerian news. Rewrite the article with a professional, informative tone, focusing on clarity and local context. Ensure the content is at least 500 words, SEO-optimized with relevant keywords (e.g., Nigeria, news, politics), and includes a meta description (150-160 characters) and 3-5 SEO keywords. Maintain the core idea but enrich with Nigerian cultural or political insights. The tone should suit {BLOGGER_BLOG_URL}." +:+ Py.nl +:+
     "    ");
    ("https://edition.cnn.com/rss/edition.rss",
     Py.nl +:+
     "    You are a global news writer with a formal, authoritative tone. Rewrite the article to be engaging, SEO-optimized, and at least 500 words. Use keywords like global news, international, or current events. Include a meta description (150-160 characters) and 3-5 SEO keywords. Add global context or analysis to enrich the content, suitable for {BLOGGER_BLOG_URL}." +:+ Py.nl +:+
     "    ");
    ("https://www.theverge.com/rss/index.xml",
     Py.nl +:+
     "    You are a tech journalist with a conversational yet professional tone. Rewrite the article to be SEO-optimized, at least 500 words, focusing on tech trends and innovation. Use keywords like technology, gadgets, or innovation. Include a meta description (150-160 characters) and 3-5 SEO keywords. Enrich with industry insights, suitable for {BLOGGER_BLOG_URL}." +:+ Py.nl +:+
     "    ");
    ("https://nairametrics.com/feed/",
     Py.nl +:+
     "    You are a business analyst specializing in Nigerian economics. Rewrite the article with a professional, data-driven tone, at least 500 words, SEO-optimized with keywords like Nigeria, economy, finance. Include a meta description (150-160 characters) and 3-5 SEO keywords. Add economic context or market trends, suitable for {BLOGGER_BLOG_URL}." +:+ Py.nl +:+
     "    ");
    ("https://www.tmz.com/rss.xml",
     Py.nl +:+
     "    You are an entertainment writer with a lively, sensational tone. Rewrite the article to be engaging, SEO-optimized, at least 500 words, using keywords like celebrity, gossip, entertainment. Include a meta description (150-160 characters) and 3-5 SEO keywords. Enrich with celebrity context or pop culture trends, suitable for {BLOGGER_BLOG_URL}." +:+ Py.nl +:+
     "    ") ].

Definition DEFAULT_PROMPT : string :=
     Py.nl +:+
     "    You are an expert content writer specializing in SEO and original content creation. Rewrite the following article to be unique, engaging, and optimized for SEO. Ensure the content is at least 500 words, includes relevant keywords naturally, and follows best SEO practices (e.g., clear headings, meta description, keyword density of 1-2%). Maintain the core idea but rephrase entirely to avoid plagiarism. If the original content is brief, enrich it with relevant context, such as the celebrity's recent projects, industry trends, or cultural impact, to create a comprehensive article. The tone should be professional yet conversational, suitable for a blog like {BLOGGER_BLOG_URL}. Provide a meta description (150-160 characters) and suggest 3-5 SEO keywords, the best custom permalink (slug should be short, descriptive, keyword-focused, and SEO-friendly)." +:+ Py.nl +:+
     "    ".

(** ** The shared state and what happens outside the process *)

Record Summary := MkSummary {
  feeds_processed : nat;
  articles_posted : nat;
  duplicates_skipped : nat;
  images_included : nat;
  articles_skipped_short : nat
}.

Definition SUMMARY0 : Summary := MkSummary 0 0 0 0 0.

(** One line of [skipped_articles.txt], without its time stamp. *)
Record skip_line := SkipLine {
  sk_title : string;
  sk_feed : string;
  sk_reason : string;
  sk_word_count : option nat
}.

(** The body handed to [posts.insert]. *)
Record post_body := PostBody {
  pb_blog : string;
  pb_title : string;
  pb_content : string;
  pb_labels : list string;
  pb_isDraft : bool
}.

(** Calls to the outside, with what they answered ([None]: the call
    raised).  A rewrite request is filed under the title and source URL
    [rewrite_article] was called with. *)
Inductive event :=
  | EvFetch (feed_url : string)
  | EvRewrite (id : string * string) (prompt : string) (answer : option string)
  | EvService (ok : bool)
  | EvInsert (body : post_body) (post_id : option string)
  | EvSleep (seconds : nat)
  | EvSummary (s : Summary).

(** The world a worker runs in; [trace] holds the latest event first. *)
Record world := World {
  PROCESSED_ARTICLES : gset (string * string);
  SUMMARY : Summary;
  skipped_log : list skip_line;
  trace : list event
}.

Definition world0 : world := World ∅ SUMMARY0 [] [].

(** What the outside answers.  Every answer may depend on all the calls
    made so far, so a service may fail once and succeed later. *)
Record env := Env {
  BLOGGER_BLOG_ID : string;
  markdownify : string -> string;
  html_unescape : string -> string;
  feedparser_parse : list event -> string -> parsed_feed;
  groq_create : list event -> string -> option string;
  stored_credentials : list event -> bool;
  client_secrets_flow : list event -> bool;
  run_flow : list event -> bool;
  build_service : list event -> bool;
  posts_insert : list event -> post_body -> option string
}.

(** ** Exceptions and the worker monad *)

Inductive exn :=
  | SystemExit (code : Z)
  | IndexError
  | KeyError (key : string)
  | ServiceError.

(** [except Exception] catches everything but [SystemExit]. *)
Definition is_Exception (e : exn) : bool :=
  match e with SystemExit _ => false | _ => true end.

Inductive result (A : Type) :=
  | Ret (a : A)
  | Raise (e : exn).
Arguments Ret {A} a.
Arguments Raise {A} e.

Definition M (A : Type) : Type := world -> result A * world.

Definition ret {A} (a : A) : M A := fun w => (Ret a, w).

Definition bind {A B} (m : M A) (k : A -> M B) : M B :=
  fun w => match m w with
           | (Ret a, w') => k a w'
           | (Raise e, w') => (Raise e, w')
           end.

Definition raise {A} (e : exn) : M A := fun w => (Raise e, w).

(** [try: m  except Exception as e: h e] *)
Definition try_except {A} (m : M A) (h : exn -> M A) : M A :=
  fun w => match m w with
           | (Raise e, w') => if is_Exception e then h e w' else (Raise e, w')
           | r => r
           end.

Definition modify (f : world -> world) : M unit := fun w => (Ret tt, f w).

Definition gets {A} (f : world -> A) : M A := fun w => (Ret (f w), w).

Declare Scope py_scope.
Delimit Scope py_scope with py.
Notation "x <- m ;; k" := (bind m (fun x => k))
  (at level 100, m at next level, right associativity) : py_scope.
Notation "m ;;; k" := (bind m (fun _ => k))
  (at level 100, right associativity) : py_scope.
Local Open Scope py_scope.

Definition emit (ev : event) : M unit :=
  modify (fun w => World (PROCESSED_ARTICLES w) (SUMMARY w) (skipped_log w)
                         (ev :: trace w)).

Definition set_summary (f : Summary -> Summary) : M unit :=
  modify (fun w => World (PROCESSED_ARTICLES w) (f (SUMMARY w)) (skipped_log w)
                         (trace w)).

Definition inc_feeds_processed (s : Summary) : Summary :=
  MkSummary (S (feeds_processed s)) (articles_posted s) (duplicates_skipped s)
            (images_included s) (articles_skipped_short s).
Definition inc_articles_posted (s : Summary) : Summary :=
  MkSummary (feeds_processed s) (S (articles_posted s)) (duplicates_skipped s)
            (images_included s) (articles_skipped_short s).
Definition inc_duplicates_skipped (s : Summary) : Summary :=
  MkSummary (feeds_processed s) (articles_posted s) (S (duplicates_skipped s))
            (images_included s) (articles_skipped_short s).
Definition inc_images_included (s : Summary) : Summary :=
  MkSummary (feeds_processed s) (articles_posted s) (duplicates_skipped s)
            (S (images_included s)) (articles_skipped_short s).
Definition inc_articles_skipped_short (s : Summary) : Summary :=
  MkSummary (feeds_processed s) (articles_posted s) (duplicates_skipped s)
            (images_included s) (S (articles_skipped_short s)).

(** [log_skipped_article]: one more line at the end of the skip log. *)
Definition log_skipped_article (title feed_url reason : string)
    (word_count : option nat) : M unit :=
  modify (fun w => World (PROCESSED_ARTICLES w) (SUMMARY w)
                         (skipped_log w ++ [SkipLine title feed_url reason word_count])
                         (trace w)).

(** [time.sleep(n)] *)
Definition sleep (n : nat) : M unit := emit (EvSleep n).

Definition exit {A} (code : Z) : M A := raise (SystemExit code).

Definition dq : string := String "034"%char EmptyString.

Section Pipeline.

Variable E : env.

(** ** Text Normalizer *)

(** [clean_text], lines 119-124 *)
Definition clean_text (text : string) : string :=
  let text := markdownify E text in
  let text := html_unescape E text in
  Py.strip (Py.sub_ws text).

(** [len(cleaned_content.split())] *)
Definition word_count (cleaned_content : string) : nat :=
  length (Py.split cleaned_content).

(** ** Blogger client *)

(** [get_blogger_service], lines 92-117: a service, or [exit(1)].  The
    event tells whether a service came back. *)
Definition get_blogger_service : M unit :=
  credentials <- gets (fun w => stored_credentials E (trace w)) ;;
  (if credentials then ret tt
   else
     flow <- gets (fun w => client_secrets_flow E (trace w)) ;;
     if flow then
       ran <- gets (fun w => run_flow E (trace w)) ;;
       if ran then ret tt else (emit (EvService false) ;;; exit 1)
     else (emit (EvService false) ;;; exit 1)) ;;;
  built <- gets (fun w => build_service E (trace w)) ;;
  emit (EvService built) ;;;
  if built then ret tt else exit 1.

(** ** Rewrite Invoker *)

Definition build_prompt (title content source_url feed_url : string) : string :=
  let base_prompt := default DEFAULT_PROMPT (CUSTOM_PROMPTS !! feed_url) in
  Py.nl +:+ "    " +:+ Py.strip base_prompt +:+ Py.nl +:+ Py.nl +:+
  "    Original Title: " +:+ title +:+ Py.nl +:+
  "    Original Content: " +:+ Py.take 1500 content
     +:+ "... (full content may be longer)" +:+ Py.nl +:+
  "    Source URL: " +:+ source_url +:+ Py.nl +:+ Py.nl +:+
  "    Output format:" +:+ Py.nl +:+
  "    Title: [Rewritten Title]" +:+ Py.nl +:+
  "    Meta Description: [SEO-friendly meta description]" +:+ Py.nl +:+
  "    Keywords: [3-5 SEO keywords]" +:+ Py.nl +:+
  "    Content: [Rewritten article content]" +:+ Py.nl +:+
  "    ".

(** Lines 178-188: the four searches and the dictionary built from them. *)
Definition parse_rewrite (title rewritten_content : string) : gmap string string :=
  let title_match := Py.search_line "Title: " rewritten_content in
  let meta_desc_match := Py.search_line "Meta Description: " rewritten_content in
  let keywords_match := Py.search_line "Keywords: " rewritten_content in
  let content_match := Py.search_rest "Content: " rewritten_content in
  <["title" := default title title_match]>
  (<["meta_description" := default EmptyString meta_desc_match]>
  (<["keywords" := default EmptyString keywords_match]>
  (<["content" := match content_match with
                  | Some g => Py.strip g
                  | None => rewritten_content
                  end]> ∅))).

(** [client.chat.completions.create(...)] and the read of its first
    choice; raises when the service does. *)
Definition groq_chat (title source_url prompt : string) : M string :=
  answer <- gets (fun w => groq_create E (trace w) prompt) ;;
  emit (EvRewrite (title, source_url) prompt answer) ;;;
  match answer with
  | Some text => ret text
  | None => raise ServiceError
  end.

(** [rewrite_article], lines 145-191 *)
Definition rewrite_article (title content source_url feed_url : string)
  : M (option (gmap string string)) :=
  let prompt := build_prompt title content source_url feed_url in
  try_except
    (rewritten_content <- groq_chat title source_url prompt ;;
     ret (Some (parse_rewrite title rewritten_content)))
    (fun _ => ret None).

(** ** Publisher *)

(** [field not in article_data or not article_data[field]] *)
Definition missing_or_empty (article_data : gmap string string) (field : string)
  : bool :=
  match article_data !! field with
  | Some v => negb (truthy v)
  | None => true
  end.

(** [d[key]] *)
Definition getitem (d : gmap string string) (key : string) : M string :=
  match d !! key with
  | Some v => ret v
  | None => raise (KeyError key)
  end.

Definition image_html (image_url title content : string) : string :=
  "<img src=" +:+ dq +:+ image_url +:+ dq +:+ " alt=" +:+ dq +:+ title +:+ dq
  +:+ " style=" +:+ dq +:+ "max-width:100%;height:auto;" +:+ dq +:+ "><br>"
  +:+ content.

Definition attribution_html (source_url feed_title : string) : string :=
  "<br><br><small>Source: <a href=" +:+ dq +:+ source_url +:+ dq +:+ ">"
  +:+ feed_title +:+ "</a></small>".

(** [if image_url:] *)
Definition has_image (image_url : option string) : bool :=
  match image_url with
  | Some u => truthy u
  | None => false
  end.

(** [posts.insert(...).execute()] and the read of the post's id. *)
Definition insert_post (body : post_body) : M string :=
  answer <- gets (fun w => posts_insert E (trace w) body) ;;
  emit (EvInsert body answer) ;;;
  match answer with
  | Some post_id => ret post_id
  | None => raise ServiceError
  end.

(** Lines 206-235, once the payload has passed the validation. *)
Definition submit_draft (article_data : gmap string string)
    (feed_title : string) (image_url : option string) (source_url : string)
  : M (option string) :=
  title <- getitem article_data "title" ;;
  content <- getitem article_data "content" ;;
  content <- (if has_image image_url
              then set_summary inc_images_included ;;;
                   ret (image_html (default EmptyString image_url) title content)
              else ret content) ;;
  let content := content +:+ attribution_html source_url feed_title in
  get_blogger_service ;;;
  keywords <- getitem article_data "keywords" ;;
  let post_body :=
    PostBody (BLOGGER_BLOG_ID E) title content
             (if truthy keywords then Py.split_comma EmptyString keywords
              else ["News"])
             true in
  post_id <- insert_post post_body ;;
  set_summary inc_articles_posted ;;;
  ret (Some post_id).

(** [post_to_blogger_draft], lines 193-240 *)
Definition post_to_blogger_draft (article_data : gmap string string)
    (feed_title : string) (image_url : option string) (source_url : string)
  : M (option string) :=
  try_except
    (if bool_decide (article_data = ∅) then ret None
     else if missing_or_empty article_data "title" then ret None
     else if missing_or_empty article_data "content" then ret None
     else submit_draft article_data feed_title image_url source_url)
    (fun _ => ret None).

(** ** Feed Worker *)

Definition article_id : Type := (string * string)%type.

(** [entry.get("description", "") or entry.get("content", [{}])[0].get("value", "")] *)
Definition entry_content (e : entry) : M string :=
  let description := default EmptyString (e_description e) in
  if truthy description then ret description
  else match e_content e with
       | None => ret EmptyString
       | Some [] => raise IndexError
       | Some (c :: _) => ret (default EmptyString (c_value c))
       end.

(** Lines 260-265: the membership test of the first pass, under the lock. *)
Definition strict_duplicate (title feed_url : string) (id : article_id) : M bool :=
  seen <- gets (fun w => bool_decide (id ∈ PROCESSED_ARTICLES w)) ;;
  if seen
  then log_skipped_article title feed_url "Duplicate article" None ;;;
       set_summary inc_duplicates_skipped ;;;
       ret true
  else ret false.

(** Lines 304-306: the membership test of the retry, under the lock. *)
Definition relaxed_duplicate (id : article_id) : M bool :=
  gets (fun w => bool_decide (id ∈ PROCESSED_ARTICLES w)).

(** Lines 278-279 and 312-313: the insertion, under the lock. *)
Definition mark_processed (id : article_id) : M unit :=
  modify (fun w => World ({[id]} ∪ PROCESSED_ARTICLES w) (SUMMARY w)
                         (skipped_log w) (trace w)).

(** Lines 268-275: [true] when the entry is skipped as short. *)
Definition short_check (title feed_url cleaned_content : string)
    (min_word_count : Z) : M bool :=
  let wc := word_count cleaned_content in
  if (Z.of_nat wc <? min_word_count)%Z
  then log_skipped_article title feed_url "Below word count" (Some wc) ;;;
       set_summary inc_articles_skipped_short ;;;
       ret true
  else ret false.

(** [if rewritten_article:] for a dictionary or [None] *)
Definition truthy_dict (d : option (gmap string string)) : bool :=
  match d with
  | Some m => negb (bool_decide (m = ∅))
  | None => false
  end.

(** Lines 282-288 and 316-321: rewrite, publish, count, sleep. *)
Definition rewrite_and_post (title cleaned_content source_url feed_url
    feed_title : string) (image_url : option string) (articles_processed : nat)
  : M nat :=
  rewritten_article <- rewrite_article title cleaned_content source_url feed_url ;;
  articles_processed <-
    (if truthy_dict rewritten_article
     then post_to_blogger_draft (default ∅ rewritten_article) feed_title
                                image_url source_url ;;;
          ret (S articles_processed)
     else ret articles_processed) ;;
  sleep 3 ;;;
  ret articles_processed.

(** One turn of the first loop, lines 251-288. *)
Definition strict_body (feed_url feed_title : string) (min_word_count : Z)
    (e : entry) (articles_processed : nat) : M nat :=
  let title := default "No Title" (e_title e) in
  content <- entry_content e ;;
  let source_url := default EmptyString (e_link e) in
  let image_url := extract_image e in
  let article_identifier := (title, source_url) in
  duplicate <- strict_duplicate title feed_url article_identifier ;;
  if duplicate then ret articles_processed
  else
    let cleaned_content := clean_text content in
    short <- short_check title feed_url cleaned_content min_word_count ;;
    if short then ret articles_processed
    else
      mark_processed article_identifier ;;;
      rewrite_and_post title cleaned_content source_url feed_url feed_title
                       image_url articles_processed.

(** One turn of the retry loop, lines 296-321. *)
Definition relaxed_body (feed_url feed_title : string)
    (e : entry) (articles_processed : nat) : M nat :=
  let title := default "No Title" (e_title e) in
  content <- entry_content e ;;
  let source_url := default EmptyString (e_link e) in
  let image_url := extract_image e in
  let article_identifier := (title, source_url) in
  duplicate <- relaxed_duplicate article_identifier ;;
  if duplicate then ret articles_processed
  else
    let cleaned_content := clean_text content in
    mark_processed article_identifier ;;;
    rewrite_and_post title cleaned_content source_url feed_url feed_title
                     image_url articles_processed.

(** [while articles_processed < articles_to_fetch and entry_index < len(entries)],
    over the entries from [entry_index] on. *)
Fixpoint feed_loop (body : entry -> nat -> M nat) (articles_to_fetch : Z)
    (entries : list entry) (articles_processed : nat) : M nat :=
  match entries with
  | [] => ret articles_processed
  | e :: rest =>
      if (Z.of_nat articles_processed <? articles_to_fetch)%Z
      then articles_processed <- body e articles_processed ;;
           feed_loop body articles_to_fetch rest articles_processed
      else ret articles_processed
  end.

(** [feedparser.parse(feed_url)] *)
Definition fetch (feed_url : string) : M parsed_feed :=
  feed <- gets (fun w => feedparser_parse E (trace w) feed_url) ;;
  emit (EvFetch feed_url) ;;;
  ret feed.

(** [process_feed], lines 242-326 *)
Definition process_feed (feed_url : string) (articles_to_fetch : Z)
    (min_word_count : Z) : M nat :=
  feed <- fetch feed_url ;;
  let feed_title := Py.replace_blank (default "Unknown_Feed" (f_title feed)) in
  let entries := f_entries feed in
  articles_processed <-
    feed_loop (strict_body feed_url feed_title min_word_count)
              articles_to_fetch entries 0 ;;
  articles_processed <-
    (if (Z.of_nat articles_processed <? articles_to_fetch)%Z
        && negb (min_word_count =? -1)%Z
     then log_skipped_article "N/A" feed_url
            "Insufficient articles, retrying with min_word_count=-1" None ;;;
          feed_loop (relaxed_body feed_url feed_title)
                    articles_to_fetch entries articles_processed
     else ret articles_processed) ;;
  set_summary inc_feeds_processed ;;;
  ret articles_processed.

(** ** Pipeline Driver *)

(** A task handed to the pool: what it returns or raises is kept in its
    future, never raised in the caller. *)
Definition run_task {A} (task : M A) : M (result A) :=
  fun w => let (r, w') := task w in (Ret r, w').

(** [executor.map(f, xs)] followed by the pool's shutdown, the tasks taken
    one after the other. *)
Fixpoint executor_map {A B} (f : A -> M B) (xs : list A) : M (list (result B)) :=
  match xs with
  | [] => ret []
  | x :: rest =>
      r <- run_task (f x) ;;
      rs <- executor_map f rest ;;
      ret (r :: rs)
  end.

(** [generate_summary], lines 328-340: the five counters go to a file. *)
Definition generate_summary : M unit :=
  s <- gets SUMMARY ;;
  emit (EvSummary s).

(** [main], lines 342-350: the results of [executor.map] are never read. *)
Definition main : M unit :=
  executor_map (fun feed => process_feed feed ARTICLES_PER_FEED MIN_WORD_COUNT)
               RSS_FEEDS ;;;
  generate_summary.

End Pipeline.

(** ** Workers in the pool

    A worker is cut at the places where another thread may run between
    two of its steps: each step holds at most one stretch of code under
    [PROCESSED_ARTICLES_LOCK] over the shared set.  The steps are the
    functions of the sequential reading above. *)

#[warnings="-register-all"]
Inductive thread (A : Type) :=
  | Finished (r : result A)
  | Running (next : M (thread A)).
Arguments Finished {A} r.
Arguments Running {A} next.

(** A thread run alone, to its end. *)
Fixpoint exec {A} (t : thread A) (w : world) : result A * world :=
  match t with
  | Finished r => (r, w)
  | Running next =>
      match next w with
      | (Ret t', w') => exec t' w'
      | (Raise e, w') => (Raise e, w')
      end
  end.

(** One step of a thread. *)
Definition step_thread {A} (t : thread A) (w : world) : thread A * world :=
  match t with
  | Finished _ => (t, w)
  | Running next =>
      match next w with
      | (Ret t', w') => (t', w')
      | (Raise e, w') => (Finished (Raise e), w')
      end
  end.

(** The pool under a schedule: the list of the workers that step, in
    order. *)
Fixpoint run_schedule {A} (schedule : list nat) (pool : list (thread A))
    (w : world) : list (thread A) * world :=
  match schedule with
  | [] => (pool, w)
  | i :: later =>
      match pool !! i with
      | Some t =>
          let (t', w') := step_thread t w in
          run_schedule later (<[i := t']> pool) w'
      | None => run_schedule later pool w
      end
  end.

Section Worker.

Variable E : env.
Variables (feed_url feed_title : string) (articles_to_fetch min_word_count : Z).

(** One turn of the first loop: test, filter, insertion, rewrite. *)
Definition strict_turn (e : entry) (articles_processed : nat)
    (continue : nat -> thread nat) : thread nat :=
  let title := default "No Title" (e_title e) in
  let source_url := default EmptyString (e_link e) in
  let image_url := extract_image e in
  let article_identifier := (title, source_url) in
  Running (
    content <- entry_content e ;;
    duplicate <- strict_duplicate title feed_url article_identifier ;;
    if duplicate then ret (continue articles_processed)
    else ret (Running (
      let cleaned_content := clean_text E content in
      short <- short_check title feed_url cleaned_content min_word_count ;;
      if short then ret (continue articles_processed)
      else ret (Running (
        mark_processed article_identifier ;;;
        ret (Running (
          n <- rewrite_and_post E title cleaned_content source_url feed_url
                 feed_title image_url articles_processed ;;
          ret (continue n)))))))).

(** One turn of the retry loop: test, insertion, rewrite. *)
Definition relaxed_turn (e : entry) (articles_processed : nat)
    (continue : nat -> thread nat) : thread nat :=
  let title := default "No Title" (e_title e) in
  let source_url := default EmptyString (e_link e) in
  let image_url := extract_image e in
  let article_identifier := (title, source_url) in
  Running (
    content <- entry_content e ;;
    duplicate <- relaxed_duplicate article_identifier ;;
    if duplicate then ret (continue articles_processed)
    else ret (Running (
      let cleaned_content := clean_text E content in
      mark_processed article_identifier ;;;
      ret (Running (
        n <- rewrite_and_post E title cleaned_content source_url feed_url
               feed_title image_url articles_processed ;;
        ret (continue n)))))).

Fixpoint loop_thread
    (turn : entry -> nat -> (nat -> thread nat) -> thread nat)
    (entries : list entry) (articles_processed : nat)
    (done : nat -> thread nat) : thread nat :=
  match entries with
  | [] => done articles_processed
  | e :: rest =>
      if (Z.of_nat articles_processed <? articles_to_fetch)%Z
      then turn e articles_processed (fun n => loop_thread turn rest n done)
      else done articles_processed
  end.

End Worker.

(** [process_feed] as a worker of the pool. *)
Definition process_feed_thread (E : env) (feed_url : string)
    (articles_to_fetch min_word_count : Z) : thread nat :=
  let finish := fun n : nat =>
    Running (set_summary inc_feeds_processed ;;; ret (Finished (Ret n))) in
  Running (
    feed <- fetch E feed_url ;;
    let feed_title := Py.replace_blank (default "Unknown_Feed" (f_title feed)) in
    let entries := f_entries feed in
    ret (loop_thread articles_to_fetch
           (strict_turn E feed_url feed_title min_word_count) entries 0
           (fun n =>
              if (Z.of_nat n <? articles_to_fetch)%Z
                 && negb (min_word_count =? -1)%Z
              then Running (
                     log_skipped_article "N/A" feed_url
                       "Insufficient articles, retrying with min_word_count=-1"
                       None ;;;
                     ret (loop_thread articles_to_fetch
                            (relaxed_turn E feed_url feed_title) entries n finish))
              else finish n))).

(** ** Words of the specification *)

(** [s] is [pre], then [pat], then anything. *)
Definition occurs (pat s : string) : Prop :=
  exists pre post, s = pre +:+ pat +:+ post.

(** [s] holds [label], then some text, then a line feed. *)
Definition has_labelled_line (label s : string) : Prop :=
  exists pre body post, s = pre +:+ label +:+ body +:+ Py.nl +:+ post.

(** [s] holds a line feed. *)
Fixpoint has_nl (s : string) : bool :=
  match s with
  | EmptyString => false
  | String c r => Ascii.eqb c "010"%char || has_nl r
  end.

(** The URL a media field offers: the one of the first dictionary of its
    list, the empty string when that dictionary has none. *)
Definition field_url (e : entry) (f : media_field) : option string :=
  match entry_media e f with
  | Some (item :: _) => Some (default EmptyString (m_url item))
  | _ => None
  end.

(** The characters of [s] before the first one that [stop] holds of. *)
Fixpoint cut_at (stop : ascii -> bool) (s : string) : string :=
  match s with
  | EmptyString => EmptyString
  | String c r => if stop c then EmptyString else String c (cut_at stop r)
  end.

(** [s] from its first slash on. *)
Fixpoint from_slash (s : string) : string :=
  match s with
  | EmptyString => EmptyString
  | String c r => if Ascii.eqb c "/"%char then s else from_slash r
  end.

(** The path of a URL: what lies after the scheme and the authority and
    before the query and the fragment. *)
Definition url_path (url : string) : string :=
  let located :=
    cut_at (fun c => Ascii.eqb c "?"%char || Ascii.eqb c "#"%char) url in
  match Py.after_first "://" located with
  | Some rest => from_slash rest
  | None => located
  end.

Definition RASTER_EXTENSIONS : list string := ["jpg"; "jpeg"; "png"; "gif"].

(** A URL that is not empty and, put in lower case, ends in a dot and one
    of the raster extensions. *)
Definition raster_image_url (url : string) : Prop :=
  url <> EmptyString /\
  exists stem ext, ext ∈ RASTER_EXTENSIONS /\ Py.lower url = stem +:+ "." +:+ ext.

(** The identifier of an entry, line 259. *)
Definition entry_id (e : entry) : article_id :=
  (default "No Title" (e_title e), default EmptyString (e_link e)).

(** The text of an entry that line 254 reads: the description, else the
    value of the first dictionary of the content list. *)
Definition entry_text (e : entry) : string :=
  let description := default EmptyString (e_description e) in
  if truthy description then description
  else match e_content e with
       | Some (c :: _) => default EmptyString (c_value c)
       | _ => EmptyString
       end.

(** The identifiers handed to the rewrite service in a trace. *)
Definition rewritten_ids (tr : list event) : list article_id :=
  omap (fun ev => match ev with EvRewrite id _ _ => Some id | _ => None end) tr.

Definition is_rewrite_ok (ev : event) : bool :=
  match ev with EvRewrite _ _ (Some _) => true | _ => false end.

Definition is_insert (ev : event) : bool :=
  match ev with EvInsert _ _ => true | _ => false end.

Definition is_insert_ok (ev : event) : bool :=
  match ev with EvInsert _ (Some _) => true | _ => false end.

Definition count (p : event -> bool) (tr : list event) : nat :=
  length (List.filter p tr).

(** The rewrite requests of a trace that were answered. *)
Definition rewrites_ok (tr : list event) : nat := count is_rewrite_ok tr.

(** The submissions of a trace that the publishing service accepted. *)
Definition inserts_ok (tr : list event) : nat := count is_insert_ok tr.

(** ** Stand-ins for the outside, for runs on concrete inputs *)

Module Sample.

(** markdownify on text that holds no markup and no character reference:
    with its default options an asterisk and an underscore get a
    backslash, the rest is kept. *)
Fixpoint markdownify_text (s : string) : string :=
  match s with
  | EmptyString => EmptyString
  | String c r =>
      if Ascii.eqb c "*"%char || Ascii.eqb c "_"%char
      then String "\"%char (String c (markdownify_text r))
      else String c (markdownify_text r)
  end.

(** html.unescape for the references [&amp;] [&lt;] [&gt;] [&quot;] and
    [&#39;]; text without an ampersand comes back as it is. *)
Fixpoint unescape_basic (s : string) : string :=
  match s with
  | EmptyString => EmptyString
  | String c r =>
      if Py.startswith "&amp;" s then String "&"%char (unescape_basic (Py.drop 4 r))
      else if Py.startswith "&lt;" s then String "<"%char (unescape_basic (Py.drop 3 r))
      else if Py.startswith "&gt;" s then String ">"%char (unescape_basic (Py.drop 3 r))
      else if Py.startswith "&quot;" s then String "034"%char (unescape_basic (Py.drop 5 r))
      else if Py.startswith "&#39;" s then String "'"%char (unescape_basic (Py.drop 4 r))
      else String c (unescape_basic r)
  end.

(** An outside with stored credentials where every feed URL holds [feed],
    the rewrite service answers [rewritten] and the publishing service
    answers [posted]. *)
Definition services (feed : parsed_feed) (rewritten posted : option string)
  : env :=
  Env "1234567890" markdownify_text unescape_basic
      (fun _ _ => feed) (fun _ _ => rewritten)
      (fun _ => true) (fun _ => true) (fun _ => true) (fun _ => true)
      (fun _ _ => posted).

(** The same outside, but the publishing service accepts nothing before
    [n] submissions were made. *)
Definition flaky_publisher (feed : parsed_feed) (rewritten : option string)
    (n : nat) : env :=
  Env "1234567890" markdownify_text unescape_basic
      (fun _ _ => feed) (fun _ _ => rewritten)
      (fun _ => true) (fun _ => true) (fun _ => true) (fun _ => true)
      (fun tr _ => if Nat.leb n (count is_insert tr) then Some "post-1" else None).

Definition article (title description link : string) : entry :=
  Entry (Some title) (Some description) None (Some link) None None None.

Definition article_with_image (title description link image : string) : entry :=
  Entry (Some title) (Some description) None (Some link)
        (Some [MediaItem (Some image)]) None None.

Definition long_text : string :=
  "one two three four five six seven eight nine ten eleven twelve thirteen fourteen fifteen sixteen".

Definition short_text : string := "Hi".

(** A well-formed answer of the rewrite service. *)
Definition answer : string :=
  "Title: Fresh title" +:+ Py.nl +:+
  "Meta Description: About the news" +:+ Py.nl +:+
  "Keywords: news, world" +:+ Py.nl +:+
  "Content: The rewritten body.".

End Sample.

(** ** What a call may change *)

(** The Publisher touches two counters and the trace, and asks for no
    rewrite. *)
Definition publisher_effect (w : world) (r : result (option string))
    (w' : world) : Prop :=
  PROCESSED_ARTICLES w' = PROCESSED_ARTICLES w /\
  skipped_log w' = skipped_log w /\
  feeds_processed (SUMMARY w') = feeds_processed (SUMMARY w) /\
  duplicates_skipped (SUMMARY w') = duplicates_skipped (SUMMARY w) /\
  articles_skipped_short (SUMMARY w') = articles_skipped_short (SUMMARY w) /\
  images_included (SUMMARY w) <= images_included (SUMMARY w') /\
  exists new, trace w' = (new ++ trace w)%list /\
    rewritten_ids new = [] /\ rewrites_ok new = 0 /\
    inserts_ok new <= 1 /\
    (inserts_ok new = 1 <-> exists post_id, r = Ret (Some post_id)) /\
    articles_posted (SUMMARY w') = articles_posted (SUMMARY w) + inserts_ok new.

(** One turn of a loop of the worker, or a whole loop, from the count [n]
    and the world [w]: the set of identifiers grows, every identifier
    sent to the rewrite service is sent once, was not in the set and is
    in it afterwards, and the counts agree with the trace. *)
Definition worker_effect (n : nat) (w : world) (r : result nat) (w' : world)
  : Prop :=
  PROCESSED_ARTICLES w ⊆ PROCESSED_ARTICLES w' /\
  feeds_processed (SUMMARY w') = feeds_processed (SUMMARY w) /\
  exists new, trace w' = (new ++ trace w)%list /\
    NoDup (rewritten_ids new) /\
    (forall id, id ∈ rewritten_ids new ->
       (id ∉ PROCESSED_ARTICLES w) /\ (id ∈ PROCESSED_ARTICLES w')) /\
    articles_posted (SUMMARY w') = articles_posted (SUMMARY w) + inserts_ok new /\
    inserts_ok new <= rewrites_ok new /\
    (forall n', r = Ret n' -> n' = n + rewrites_ok new).

(** What [rewrite_and_post] changes, called for the identifier [id] with
    the count [n]. *)
Definition rewrite_and_post_effect (id : article_id) (n : nat) (w : world)
    (r : result nat) (w' : world) : Prop :=
  PROCESSED_ARTICLES w' = PROCESSED_ARTICLES w /\
  feeds_processed (SUMMARY w') = feeds_processed (SUMMARY w) /\
  exists new, trace w' = (new ++ trace w)%list /\
    rewritten_ids new = [id] /\
    articles_posted (SUMMARY w') = articles_posted (SUMMARY w) + inserts_ok new /\
    inserts_ok new <= rewrites_ok new /\
    (forall n', r = Ret n' -> n' = n + rewrites_ok new).

(** The entry has a content that can be read: a description, or no
    content list, or one that is not empty. *)
Definition content_readable (e : entry) : Prop :=
  truthy (default EmptyString (e_description e)) = true \/ e_content e <> Some [].

(** The outside never makes [get_blogger_service] exit, and feeds come
    with readable entries. *)
Definition no_fatal_condition (E : env) : Prop :=
  (forall tr,
     (stored_credentials E tr = true \/
      (client_secrets_flow E tr = true /\ run_flow E tr = true)) /\
     build_service E tr = true) /\
  (forall tr feed_url, Forall content_readable (f_entries (feedparser_parse E tr feed_url))).

(** ** Feeds for the runs on concrete inputs *)

Module Feeds.

Import Sample.

Definition url : string := "https://www.channelstv.com/feed/".

(** A short item and a long one under the same title and link, then
    three more long items. *)
Definition short_then_long : parsed_feed :=
  ParsedFeed (Some "Channels TV")
    [ article "Storm" short_text "http://news/storm";
      article "Storm" long_text "http://news/storm";
      article "Budget" long_text "http://news/budget";
      article "Match" long_text "http://news/match";
      article "Vote" long_text "http://news/vote" ].

(** The same long item twice, then another one. *)
Definition twice : parsed_feed :=
  ParsedFeed (Some "Channels TV")
    [ article "Storm" long_text "http://news/storm";
      article "Storm" long_text "http://news/storm";
      article "Budget" long_text "http://news/budget" ].

(** One long item. *)
Definition single : parsed_feed :=
  ParsedFeed (Some "Channels TV")
    [ article "Storm" long_text "http://news/storm" ].

(** Two long items. *)
Definition pair : parsed_feed :=
  ParsedFeed (Some "Channels TV")
    [ article "Storm" long_text "http://news/storm";
      article "Budget" long_text "http://news/budget" ].

(** A short item, alone. *)
Definition brief : parsed_feed :=
  ParsedFeed (Some "Channels TV")
    [ article "Storm" short_text "http://news/storm" ].

End Feeds.

(** ** A pool of two workers *)

Module Race.

Import Sample.

Definition url_a : string := "https://www.channelstv.com/feed/".
Definition url_b : string := "https://nairametrics.com/feed/".

(** Both feeds carry the same item. *)
Definition outside : env :=
  services Feeds.single (Some answer) (Some "post-1").

Definition pool : list (thread nat) :=
  [ process_feed_thread outside url_a ARTICLES_PER_FEED MIN_WORD_COUNT;
    process_feed_thread outside url_b ARTICLES_PER_FEED MIN_WORD_COUNT ].

(** The two workers step in turn. *)
Definition alternate : list nat :=
  [0; 1; 0; 1; 0; 1; 0; 1; 0; 1; 0; 1; 0; 1; 0; 1; 0; 1; 0; 1].

(** The first worker runs to its end, then the second one. *)
Definition one_after_the_other : list nat :=
  [0; 0; 0; 0; 0; 0; 0; 0; 0; 0; 1; 1; 1; 1; 1; 1; 1; 1; 1; 1].

Definition finished {A} (t : thread A) : option (result A) :=
  match t with
  | Finished r => Some r
  | Running _ => None
  end.

End Race.

(** ** More words for the properties *)

(** [sep.join(ws)] *)
Fixpoint join (sep : string) (ws : list string) : string :=
  match ws with
  | [] => EmptyString
  | w :: rest =>
      match rest with
      | [] => w
      | _ => w +:+ sep +:+ join sep rest
      end
  end.

(** [s] starts with white space. *)
Definition starts_blank (s : string) : bool :=
  match s with
  | EmptyString => false
  | String c _ => Py.isspace c
  end.

(** Every counter of [s] is at most the one of [s']. *)
Definition summary_le (s s' : Summary) : Prop :=
  feeds_processed s <= feeds_processed s' /\
  articles_posted s <= articles_posted s' /\
  duplicates_skipped s <= duplicates_skipped s' /\
  images_included s <= images_included s' /\
  articles_skipped_short s <= articles_skipped_short s'.

(** From [w] to [w'] nothing is taken back: the set keeps its
    identifiers, no counter goes down, and the skip log is extended at its
    end. *)
Definition grows (w w' : world) : Prop :=
  PROCESSED_ARTICLES w ⊆ PROCESSED_ARTICLES w' /\
  summary_le (SUMMARY w) (SUMMARY w') /\
  exists more, skipped_log w' = (skipped_log w ++ more)%list.

(** From [w] to [w'] the trace got new events, all of them [ok]. *)
Definition adds (ok : event -> Prop) (w w' : world) : Prop :=
  exists new, trace w' = (new ++ trace w)%list /\ Forall ok new.

(** [f] reads the same in [w'] as in [w]. *)
Definition same {X} (f : world -> X) (w w' : world) : Prop := f w' = f w.

(** A computation whose final world is always related to its first. *)
Definition keeps (R : world -> world -> Prop) {A} (m : M A) : Prop :=
  forall w, R w (m w).2.

(** A computation that raises nothing outside [S]. *)
Definition raises_only (S : exn -> Prop) {A} (m : M A) : Prop :=
  forall w e w', m w = (Raise e, w') -> S e.

(** A body as [post_to_blogger_draft] builds it: for the configured blog,
    a draft, with a title, at least one label, and the source line at the
    end of its content. *)
Definition good_body (E : env) (body : post_body) : Prop :=
  pb_blog body = BLOGGER_BLOG_ID E /\
  pb_isDraft body = true /\
  pb_title body <> EmptyString /\
  pb_labels body <> [] /\
  exists head source_url feed_title,
    pb_content body = head +:+ attribution_html source_url feed_title.

Definition draft_for (E : env) (ev : event) : Prop :=
  match ev with
  | EvInsert body _ => good_body E body
  | _ => True
  end.

Definition not_fetch (ev : event) : Prop :=
  match ev with
  | EvFetch _ => False
  | _ => True
  end.

Definition push (ev : event) (w : world) : world :=
  World (PROCESSED_ARTICLES w) (SUMMARY w) (skipped_log w) (ev :: trace w).

(** A one-line field of an answer that holds none of [labels]. *)
Definition plain_field (labels : list string) (x : string) : bool :=
  negb (has_nl x) &&
  forallb (fun l => bool_decide (Py.after_first l x = None)) labels.

(** An answer in the output format the prompt asks for, lines 160-164. *)
Definition formatted_answer (new_title meta keywords content : string) : string :=
  "Title: " +:+ new_title +:+ Py.nl +:+
  "Meta Description: " +:+ meta +:+ Py.nl +:+
  "Keywords: " +:+ keywords +:+ Py.nl +:+
  "Content: " +:+ content.

(** The lines of the skip log written with [reason]. *)
Definition reason_count (reason : string) (lines : list skip_line) : nat :=
  length (List.filter (fun l => String.eqb (sk_reason l) reason) lines).

(** From [w] to [w'] the skip log got new lines at its end, and the two
    skip counters of SUMMARY went up by the number of new lines of their
    reason. *)
Definition tally (w w' : world) : Prop :=
  exists more,
    skipped_log w' = (skipped_log w ++ more)%list /\
    duplicates_skipped (SUMMARY w')
      = duplicates_skipped (SUMMARY w) + reason_count "Duplicate article" more /\
    articles_skipped_short (SUMMARY w')
      = articles_skipped_short (SUMMARY w) + reason_count "Below word count" more.

(** The feeds asked of feedparser in a trace, latest first. *)
Definition fetched (tr : list event) : list string :=
  omap (fun ev => match ev with EvFetch url => Some url | _ => None end) tr.

(** ** Words for the tracker, the retry and the pool *)

(** From [w] to [w'] the trace got new events, and the identifiers that
    entered PROCESSED_ARTICLES are the ones handed to the rewrite
    service. *)
Definition tracked (w w' : world) : Prop :=
  exists new,
    trace w' = (new ++ trace w)%list /\
    PROCESSED_ARTICLES w' = PROCESSED_ARTICLES w ∪ list_to_set (rewritten_ids new).

(** The prompt [process_feed] builds for the entry [e] of the feed
    [feed_url]: from its title, its cleaned text and its link. *)
Definition request_of (E : env) (feed_url : string) (e : entry) : string :=
  build_prompt (entry_id e).1 (clean_text E (entry_text e)) (entry_id e).2
               feed_url.

(** A rewrite request is the one of an entry of [entries]. *)
Definition asks_for (E : env) (feed_url : string) (entries : list entry)
    (ev : event) : Prop :=
  match ev with
  | EvRewrite id prompt _ =>
      exists e, e ∈ entries /\ id = entry_id e /\ prompt = request_of E feed_url e
  | _ => True
  end.

(** The prompts handed to the rewrite service in a trace, latest first. *)
Definition rewritten_prompts (tr : list event) : list string :=
  omap (fun ev => match ev with EvRewrite _ prompt _ => Some prompt | _ => None end)
       tr.

(** The world after the first pass skipped [e] as short. *)
Definition skipped_short (E : env) (feed_url : string) (e : entry) (w : world)
  : world :=
  World (PROCESSED_ARTICLES w) (inc_articles_skipped_short (SUMMARY w))
        (skipped_log w
           ++ [SkipLine (entry_id e).1 feed_url "Below word count"
                 (Some (word_count (clean_text E (entry_text e))))])
        (trace w).

(** The world after the first pass skipped [e] as a duplicate. *)
Definition skipped_duplicate (feed_url : string) (e : entry) (w : world)
  : world :=
  World (PROCESSED_ARTICLES w) (inc_duplicates_skipped (SUMMARY w))
        (skipped_log w
           ++ [SkipLine (entry_id e).1 feed_url "Duplicate article" None])
        (trace w).

(** Lines 278-288 and 312-321 for the entry [e]: its identifier goes in
    the set, then its cleaned text to the rewrite service and the answer
    to the Publisher. *)
Definition mark_and_rewrite (E : env) (feed_url feed_title : string)
    (e : entry) (articles_processed : nat) : M nat :=
  (mark_processed (entry_id e) ;;;
   rewrite_and_post E (entry_id e).1 (clean_text E (entry_text e))
     (entry_id e).2 feed_url feed_title (extract_image e) articles_processed)%py.

(** Lines 290-326 of [process_feed], from the count of the first pass. *)
Definition retry_and_count (E : env) (feed_url feed_title : string)
    (articles_to_fetch min_word_count : Z) (entries : list entry)
    (articles_processed : nat) : M nat :=
  (articles_processed <-
     (if (Z.of_nat articles_processed <? articles_to_fetch)%Z
         && negb (min_word_count =? -1)%Z
      then log_skipped_article "N/A" feed_url
             "Insufficient articles, retrying with min_word_count=-1" None ;;;
           feed_loop (relaxed_body E feed_url feed_title)
                     articles_to_fetch entries articles_processed
      else ret articles_processed) ;;
   set_summary inc_feeds_processed ;;;
   ret articles_processed)%py.

(** The results of a pool that are values, not exceptions. *)
Definition returned {A} (rs : list (result A)) : nat :=
  length (List.filter (fun r => match r with Ret _ => true | Raise _ => false end)
            rs).

(** ** More feeds for the runs on concrete inputs *)

Module Cases.

Import Sample.

(** A short item and a long one under the same title and link. *)
Definition short_and_long : parsed_feed :=
  ParsedFeed (Some "Channels TV")
    [ article "Storm" short_text "http://news/storm";
      article "Storm" long_text "http://news/storm" ].

(** A short item, then a long one under another title and link. *)
Definition short_and_other : parsed_feed :=
  ParsedFeed (Some "Channels TV")
    [ article "Storm" short_text "http://news/storm";
      article "Budget" long_text "http://news/budget" ].

(** An item with no description and an empty content list, then a long
    item. *)
Definition unreadable_first : parsed_feed :=
  ParsedFeed (Some "CNN")
    [ Entry (Some "Flood") None (Some []) (Some "http://news/flood")
            None None None;
      article "Vote" long_text "http://news/vote" ].

Definition cnn : string := "https://edition.cnn.com/rss/edition.rss".

(** An outside where the feed of CNN comes with [unreadable_first] and
    every other feed with [Feeds.pair]; every service answers. *)
Definition one_bad_feed : env :=
  Env "1234567890" markdownify_text unescape_basic
      (fun _ feed_url =>
         if String.eqb feed_url cnn then unreadable_first else Feeds.pair)
      (fun _ _ => Some answer)
      (fun _ => true) (fun _ => true) (fun _ => true) (fun _ => true)
      (fun _ _ => Some "post-1").

End Cases.

(** * Properties *)

Local Open Scope list_scope.

(** ** White space *)

Section Whitespace.

Import Py.

Lemma sub_ws_from_length b s :
  String.length (sub_ws_from b s) <= String.length s.
Proof.
  revert b; induction s as [|c r IH]; intros b; simpl; [lia|].
  pose proof (IH true); pose proof (IH false).
  destruct (isspace c); [destruct b|]; simpl; lia.
Qed.

Lemma sub_ws_from_idem b s :
  sub_ws_from b (sub_ws_from b s) = sub_ws_from b s.
Proof.
  revert b; induction s as [|c r IH]; intros b; simpl; [done|].
  destruct (isspace c) eqn:Hc.
  - destruct b; simpl; [apply IH|].
    change (isspace " ") with true; simpl. by rewrite IH.
  - simpl. rewrite Hc. by rewrite IH.
Qed.

(** A string that [sub_ws_from true] leaves alone does not start with
    white space, so the flag does not matter on it. *)
Lemma sub_ws_fixed_true_false r :
  sub_ws_from true r = r -> sub_ws_from false r = r /\ lstrip r = r.
Proof.
  destruct r as [|c r]; simpl; [done|].
  destruct (isspace c) eqn:Hc; [|done].
  intros H. pose proof (sub_ws_from_length true r) as Hl.
  rewrite H in Hl. simpl in Hl. lia.
Qed.

Lemma sub_ws_fixed_lstrip x :
  sub_ws_from false x = x -> sub_ws_from false (lstrip x) = lstrip x.
Proof.
  destruct x as [|c r]; simpl; [done|].
  destruct (isspace c) eqn:Hc; simpl; [|by rewrite Hc].
  intros H. injection H as _ H.
  destruct (sub_ws_fixed_true_false r H) as [H1 H2]. by rewrite H2.
Qed.

Lemma sub_ws_fixed_rstrip b x :
  sub_ws_from b x = x -> sub_ws_from b (rstrip x) = rstrip x.
Proof.
  revert b; induction x as [|c r IH]; intros b; simpl; [done|].
  destruct (isspace c) eqn:Hc.
  - destruct b.
    + intros H. pose proof (sub_ws_from_length true r) as Hl.
      rewrite H in Hl. simpl in Hl. lia.
    + intros H. injection H as Hb H. specialize (IH true H).
      destruct (rstrip r) as [|c' r'] eqn:Hr; simpl; [done|].
      rewrite Hc. f_equal; [done|]. exact IH.
  - intros H. injection H as H. specialize (IH false H).
    destruct (rstrip r) as [|c' r'] eqn:Hr; simpl; rewrite Hc; [done|].
    f_equal. exact IH.
Qed.

Lemma lstrip_length s : String.length (lstrip s) <= String.length s.
Proof.
  induction s as [|c r IH]; simpl; [lia|].
  destruct (isspace c); simpl; lia.
Qed.

Lemma lstrip_idem s : lstrip (lstrip s) = lstrip s.
Proof.
  induction s as [|c r IH]; simpl; [done|].
  destruct (isspace c) eqn:Hc; [done|]. simpl. by rewrite Hc.
Qed.

Lemma rstrip_idem s : rstrip (rstrip s) = rstrip s.
Proof.
  induction s as [|c r IH]; simpl; [done|].
  destruct (rstrip r) as [|c' r'] eqn:Hr.
  - destruct (isspace c) eqn:Hc; simpl; [done|]. by rewrite Hc.
  - simpl. simpl in IH. by rewrite IH.
Qed.

Lemma lstrip_rstrip_fixed y : lstrip y = y -> lstrip (rstrip y) = rstrip y.
Proof.
  destruct y as [|c r]; simpl; [done|].
  destruct (isspace c) eqn:Hc.
  - intros H. pose proof (lstrip_length r) as Hl. rewrite H in Hl.
    simpl in Hl. lia.
  - intros _. destruct (rstrip r); simpl; by rewrite Hc.
Qed.

Lemma strip_idem s : strip (strip s) = strip s.
Proof.
  unfold strip. rewrite (lstrip_rstrip_fixed (lstrip s) (lstrip_idem s)).
  apply rstrip_idem.
Qed.

(** The last line of [clean_text] is idempotent. *)
Lemma collapse_idem s : strip (sub_ws (strip (sub_ws s))) = strip (sub_ws s).
Proof.
  assert (sub_ws (strip (sub_ws s)) = strip (sub_ws s)) as ->.
  { unfold sub_ws, strip. apply sub_ws_fixed_rstrip, sub_ws_fixed_lstrip,
      sub_ws_from_idem. }
  apply strip_idem.
Qed.

End Whitespace.

(** ** C8: the Text Normalizer on its own output *)

(** C8, as amended: [clean_text] applied to one of its outputs returns
    that output whenever markdownify and html.unescape leave the output
    unchanged; the collapse of white space that ends [clean_text] is
    idempotent on every string ([collapse_idem]). *)
Theorem clean_text_fixed_point (E : env) (t : string) :
  markdownify E (clean_text E t) = clean_text E t ->
  html_unescape E (clean_text E t) = clean_text E t ->
  clean_text E (clean_text E t) = clean_text E t.
Proof.
  intros Hm Hu. unfold clean_text at 1. rewrite Hm, Hu.
  unfold clean_text. apply collapse_idem.
Qed.

Lemma clean_text_fixed_point_witness :
  let E := Sample.services (ParsedFeed None []) None None in
  clean_text E (clean_text E "  Hello   big world ") = "Hello big world".
Proof.
  intros E. rewrite (clean_text_fixed_point E "  Hello   big world ");
    reflexivity.
Defined.

(** C8, as stated, fails: with markdownify escaping the underscore, the
    output of [clean_text] on [a_b] is changed again by [clean_text]. *)
Lemma clean_text_not_idempotent :
  let E := Sample.services (ParsedFeed None []) None None in
  clean_text E "a_b" = "a\_b" /\
  clean_text E (clean_text E "a_b") <> clean_text E "a_b".
Proof. split; [reflexivity | discriminate]. Qed.

(** ** Facts on strings *)

Section Strings.

Import Py.

Local Arguments String.append : simpl nomatch.

Lemma str_app_nil_r s : s +:+ EmptyString = s.
Proof. induction s; simpl; congruence. Qed.

Lemma str_app_assoc a b c : (a +:+ b) +:+ c = a +:+ b +:+ c.
Proof. induction a; simpl; congruence. Qed.

Lemma str_app_length a b : String.length (a +:+ b) = String.length a + String.length b.
Proof. induction a; simpl; lia. Qed.

Lemma startswith_spec p s : startswith p s = true <-> exists post, s = p +:+ post.
Proof.
  revert s; induction p as [|a p IH]; intros s; simpl.
  - split; [intros _; by exists s | done].
  - destruct s as [|b s].
    + split; [done | intros [post H]; discriminate].
    + destruct (Ascii.eqb_spec a b) as [->|Hab].
      * rewrite IH. split; intros [post H]; exists post; simpl in *; congruence.
      * split; [done | intros [post H]; simpl in H; congruence].
Qed.

Lemma endswith_spec suf s : endswith suf s = true <-> exists pre, s = pre +:+ suf.
Proof.
  induction s as [|c r IH]; simpl.
  - rewrite String.eqb_eq. split.
    + intros ->. by exists EmptyString.
    + intros [pre H]. destruct pre; [done | discriminate].
  - rewrite orb_true_iff, String.eqb_eq, IH. split.
    + intros [-> | [pre ->]]; [by exists EmptyString | by exists (String c pre)].
    + intros [[|c' pre] H]; simpl in H; [by left | right].
      injection H as _ ->. by exists pre.
Qed.

Lemma drop_app_le k a b :
  k <= String.length a -> drop k (a +:+ b) = drop k a +:+ b.
Proof.
  revert a; induction k as [|k IH]; intros [|c a]; simpl; try done; try lia.
  intros H. apply IH. lia.
Qed.

Lemma drop_length_app a b : drop (String.length a) (a +:+ b) = b.
Proof. induction a; simpl; [by destruct b | done]. Qed.

(** Where [after_first] cuts: just after an occurrence of the pattern that
    starts no later than any other. *)
Lemma after_first_Some pat s rest :
  after_first pat s = Some rest -> exists pre, s = pre +:+ pat +:+ rest.
Proof.
  induction s as [|c r IH].
  - simpl. destruct (startswith pat EmptyString) eqn:Hp; [|done].
    intros [= <-]. apply startswith_spec in Hp as [post Hp].
    exists EmptyString. simpl. rewrite Hp at 1.
    by rewrite Hp, drop_length_app.
  - cbn [after_first]. destruct (startswith pat (String c r)) eqn:Hp.
    + intros [= <-]. apply startswith_spec in Hp as [post Hp].
      exists EmptyString. simpl. by rewrite Hp, drop_length_app.
    + intros H. destruct (IH H) as [pre ->]. by exists (String c pre).
Qed.

Lemma after_first_cut pat pre post :
  exists k rest, after_first pat (pre +:+ pat +:+ post) = Some rest /\
    k <= String.length pre + String.length pat /\
    rest = drop k (pre +:+ pat +:+ post).
Proof.
  induction pre as [|c pre IH].
  - exists (String.length pat), post. simpl.
    assert (startswith pat (pat +:+ post) = true) as Hp
      by (apply startswith_spec; by exists post).
    split; [|split; [lia | by rewrite drop_length_app]].
    destruct (pat +:+ post) eqn:Hs; simpl; rewrite Hp, <- ?Hs;
      by rewrite ?drop_length_app.
  - destruct IH as (k & rest & Hr & Hk & Hd).
    change (String c pre +:+ pat +:+ post) with (String c (pre +:+ pat +:+ post)).
    cbn [after_first].
    destruct (startswith pat (String c (pre +:+ pat +:+ post))) eqn:Hp.
    + exists (String.length pat). eexists. split; [done|]. split; [lia | done].
    + exists (S k), rest. split; [done|]. split; [simpl; lia | done].
Qed.

Lemma after_first_None pat s : after_first pat s = None <-> ~ occurs pat s.
Proof.
  split.
  - intros H (pre & post & ->).
    destruct (after_first_cut pat pre post) as (k & rest & Hr & _). congruence.
  - intros H. destruct (after_first pat s) as [rest|] eqn:Hr; [|done].
    destruct H. apply after_first_Some in Hr as [pre ->]. by exists pre, rest.
Qed.

Lemma line_head_None s : line_head s = None <-> has_nl s = false.
Proof.
  induction s as [|c r IH]; simpl; [done|].
  destruct (Ascii.eqb c "010"%char); simpl; [done|].
  destruct (line_head r); [|tauto].
  split; [done|]. intros H. by apply IH in H.
Qed.

Lemma line_head_Some s g :
  line_head s = Some g -> exists post, s = g +:+ nl +:+ post.
Proof.
  revert g; induction s as [|c r IH]; intros g; simpl; [done|].
  destruct (Ascii.eqb_spec c "010"%char) as [->|Hc].
  - intros [= <-]. by exists r.
  - destruct (line_head r) as [l|]; [|done].
    intros [= <-]. destruct (IH l eq_refl) as [post ->]. by exists post.
Qed.

Lemma has_nl_app a b : has_nl (a +:+ b) = has_nl a || has_nl b.
Proof. induction a as [|c a IH]; simpl; [done|]. by rewrite IH, orb_assoc. Qed.

Lemma has_nl_drop k a b :
  k <= String.length a -> has_nl (drop k (a +:+ nl +:+ b)) = true.
Proof.
  intros H. rewrite drop_app_le by done. rewrite !has_nl_app. simpl.
  by rewrite orb_true_r.
Qed.

(** A labelled section is found exactly when the text holds the label
    with a line feed somewhere after it. *)
Lemma search_line_None label s :
  search_line label s = None <-> ~ has_labelled_line label s.
Proof.
  unfold search_line. split.
  - intros H (pre & body & post & ->).
    destruct (after_first_cut label pre (body +:+ nl +:+ post))
      as (k & rest & Hr & Hk & Hd).
    rewrite Hr in H. apply line_head_None in H.
    rewrite Hd in H.
    replace (pre +:+ label +:+ body +:+ nl +:+ post)
      with ((pre +:+ label +:+ body) +:+ nl +:+ post) in H
      by (by rewrite !str_app_assoc).
    rewrite has_nl_drop in H; [done|]. rewrite !str_app_length. lia.
  - intros H. destruct (after_first label s) as [rest|] eqn:Hr; [|done].
    destruct (line_head rest) as [g|] eqn:Hg; [|done].
    destruct H. apply after_first_Some in Hr as [pre ->].
    apply line_head_Some in Hg as [post ->]. by exists pre, g, post.
Qed.

End Strings.

(** ** C7: the Image Extractor *)

Lemma is_image_url_spec url : is_image_url url = true <-> raster_image_url url.
Proof.
  unfold is_image_url, raster_image_url, Py.endswith_any, IMAGE_SUFFIXES,
    RASTER_EXTENSIONS. simpl existsb.
  rewrite andb_true_iff, !orb_true_iff, !endswith_spec. split.
  - intros [Ht H]. split; [by destruct url|].
    destruct H as [[stem H]|[[stem H]|[[stem H]|[[stem H]|H]]]]; [..|done];
      exists stem; eexists; (split; [|exact H]); set_solver.
  - intros [Hne (stem & ext & Hext & H)]. split; [by destruct url|].
    rewrite !elem_of_cons in Hext.
    destruct Hext as [->|[->|[->|[->|Hext]]]]; [..|by apply elem_of_nil in Hext];
      [left|right;left|right;right;left|right;right;right;left]; by exists stem.
Qed.

Lemma image_at_Some e f url :
  image_at e f = Some url <-> field_url e f = Some url /\ raster_image_url url.
Proof.
  unfold image_at, field_url. rewrite <- is_image_url_spec.
  destruct (entry_media e f) as [[|item items]|];
    [split; [done | by intros [? _]] | | split; [done | by intros [? _]]].
  simpl. destruct (is_image_url (default EmptyString (m_url item))) eqn:Hi.
  - split; [by intros [= <-] | by intros [[= <-] _]].
  - split; [done | intros [[= <-] H]; congruence].
Qed.

Lemma image_at_None e f :
  image_at e f = None <->
  forall u, field_url e f = Some u -> ~ raster_image_url u.
Proof.
  split.
  - intros H u Hu Hr. assert (image_at e f = Some u) by (by apply image_at_Some).
    congruence.
  - intros H. destruct (image_at e f) as [u|] eqn:Hu; [|done].
    apply image_at_Some in Hu as [Hu Hr]. by destruct (H u Hu).
Qed.

Lemma extract_image_from_spec fields e :
  match extract_image_from fields e with
  | Some url =>
      exists earlier f later,
        fields = (earlier ++ f :: later)%list /\
        field_url e f = Some url /\ raster_image_url url /\
        forall g u, g ∈ earlier -> field_url e g = Some u -> ~ raster_image_url u
  | None =>
      forall f u, f ∈ fields -> field_url e f = Some u -> ~ raster_image_url u
  end.
Proof.
  induction fields as [|f fs IH]; simpl.
  - intros f u Hf. by apply elem_of_nil in Hf.
  - destruct (image_at e f) as [url|] eqn:Hf.
    + apply image_at_Some in Hf as [Hu Hr].
      exists [], f, fs. split; [done|]. split; [done|]. split; [done|].
      intros g u Hg. by apply elem_of_nil in Hg.
    + pose proof (proj1 (image_at_None e f) Hf) as Hno.
      destruct (extract_image_from fs e) as [url|].
      * destruct IH as (earlier & g & later & -> & Hu & Hr & Hearlier).
        exists (f :: earlier), g, later. split; [done|]. split; [done|].
        split; [done|]. intros h u Hh. apply elem_of_cons in Hh as [->|Hh]; eauto.
      * intros g u Hg. apply elem_of_cons in Hg as [->|Hg]; eauto.
Qed.

(** C7, as amended: [extract_image] looks at media_content,
    media_thumbnail and enclosure in this order, in each at the URL of the
    first item of the list only, and returns the first of these URLs
    that, taken as a whole string and put in lower case, ends in .jpg,
    .jpeg, .png or .gif; it returns [None] when none of them does. *)
Theorem extract_image_first_raster (e : entry) :
  IMAGE_FIELDS = [media_content; media_thumbnail; enclosure] /\
  match extract_image e with
  | Some url =>
      exists earlier f later,
        IMAGE_FIELDS = (earlier ++ f :: later)%list /\
        field_url e f = Some url /\ raster_image_url url /\
        forall g u, g ∈ earlier -> field_url e g = Some u -> ~ raster_image_url u
  | None =>
      forall f u, f ∈ IMAGE_FIELDS -> field_url e f = Some u -> ~ raster_image_url u
  end.
Proof. split; [done|]. apply extract_image_from_spec. Qed.

(** C7, as stated, fails.  The media_content list of the first entry
    below holds a video and then a picture whose URL ends in .jpg: only
    the first item of a list is looked at and [extract_image] returns
    [None].  The path of the URL of the second entry ends in .jpg and the
    URL itself ends with its query: [extract_image] returns [None]
    again. *)
Lemma image_url_not_returned :
  let second_item :=
    Entry (Some "Storm") (Some Sample.long_text) None (Some "http://news/storm")
          (Some [MediaItem (Some "http://img.example/storm.mp4");
                 MediaItem (Some "http://img.example/storm.jpg")])
          None None in
  let url := "http://img.example/storm.jpg?w=640" in
  let with_query :=
    Sample.article_with_image "Storm" Sample.long_text "http://news/storm" url in
  (e_media_content second_item
   = Some [MediaItem (Some "http://img.example/storm.mp4");
           MediaItem (Some "http://img.example/storm.jpg")] /\
   is_image_url "http://img.example/storm.jpg" = true /\
   extract_image second_item = None) /\
  (url_path url = "/storm.jpg" /\
   Py.endswith ".jpg" (Py.lower (url_path url)) = true /\
   field_url with_query media_content = Some url /\
   extract_image with_query = None).
Proof. vm_compute. repeat split. Qed.

(** ** C4: the parser of the Rewrite Invoker *)

Lemma parse_rewrite_lookup title text :
  let d := parse_rewrite title text in
  d !! "title" = Some (default title (Py.search_line "Title: " text)) /\
  d !! "meta_description"
    = Some (default EmptyString (Py.search_line "Meta Description: " text)) /\
  d !! "keywords" = Some (default EmptyString (Py.search_line "Keywords: " text)) /\
  d !! "content" = Some (match Py.search_rest "Content: " text with
                         | Some g => Py.strip g
                         | None => text
                         end).
Proof. unfold parse_rewrite. by simplify_map_eq. Qed.

Lemma parse_rewrite_dom title text :
  dom (parse_rewrite title text)
  = ({["title"; "meta_description"; "keywords"; "content"]} : gset string).
Proof. unfold parse_rewrite. rewrite !dom_insert_L, dom_empty_L. set_solver. Qed.

Lemma parse_rewrite_nonempty title text : parse_rewrite title text <> ∅.
Proof. unfold parse_rewrite. apply insert_non_empty. Qed.

Lemma rewrite_article_answered E title content source_url feed_url text w :
  groq_create E (trace w) (build_prompt title content source_url feed_url)
    = Some text ->
  rewrite_article E title content source_url feed_url w
  = (Ret (Some (parse_rewrite title text)),
     World (PROCESSED_ARTICLES w) (SUMMARY w) (skipped_log w)
           (EvRewrite (title, source_url)
              (build_prompt title content source_url feed_url) (Some text)
            :: trace w)).
Proof.
  intros H. unfold rewrite_article, try_except, groq_chat, bind, gets, emit,
    modify, ret. simpl. by rewrite H.
Qed.

(** C4: whatever text the rewrite service returns, [rewrite_article]
    returns a dictionary with the four fields and no failure; a field whose
    labelled line is not in the text takes its default: the original title,
    the empty string for the meta description and for the keywords, and
    the whole text for the content. *)
Theorem rewrite_article_fallbacks (E : env)
    (title content source_url feed_url text : string) (w : world) :
  groq_create E (trace w) (build_prompt title content source_url feed_url)
    = Some text ->
  exists d w',
    rewrite_article E title content source_url feed_url w = (Ret (Some d), w') /\
    dom d = ({["title"; "meta_description"; "keywords"; "content"]} : gset string) /\
    (~ has_labelled_line "Title: " text -> d !! "title" = Some title) /\
    (~ has_labelled_line "Meta Description: " text ->
       d !! "meta_description" = Some EmptyString) /\
    (~ has_labelled_line "Keywords: " text -> d !! "keywords" = Some EmptyString) /\
    (~ occurs "Content: " text -> d !! "content" = Some text).
Proof.
  intros H. eexists _, _. split; [by apply rewrite_article_answered|].
  split; [apply parse_rewrite_dom|].
  destruct (parse_rewrite_lookup title text) as (Ht & Hm & Hk & Hc).
  repeat split.
  - intros Hno. apply search_line_None in Hno. by rewrite Ht, Hno.
  - intros Hno. apply search_line_None in Hno. by rewrite Hm, Hno.
  - intros Hno. apply search_line_None in Hno. by rewrite Hk, Hno.
  - intros Hno. apply after_first_None in Hno. unfold Py.search_rest in Hc.
    by rewrite Hc, Hno.
Qed.

Lemma rewrite_article_fallbacks_witness :
  let E := Sample.services (ParsedFeed None []) (Some "no sections here") None in
  exists d w',
    rewrite_article E "Old title" "text" "http://src" "http://feed" world0
      = (Ret (Some d), w') /\
    d !! "title" = Some "Old title" /\
    d !! "meta_description" = Some EmptyString /\
    d !! "keywords" = Some EmptyString /\
    d !! "content" = Some "no sections here".
Proof.
  intros E.
  destruct (rewrite_article_fallbacks E "Old title" "text" "http://src"
              "http://feed" "no sections here" world0 eq_refl)
    as (d & w' & Hr & _ & Ht & Hm & Hk & Hc).
  exists d, w'. split; [exact Hr|].
  split; [apply Ht; apply search_line_None; reflexivity|].
  split; [apply Hm; apply search_line_None; reflexivity|].
  split; [apply Hk; apply search_line_None; reflexivity|].
  apply Hc; apply after_first_None; reflexivity.
Defined.

(** ** The Publisher *)

Ltac unfold_monad :=
  unfold try_except, bind, getitem, exit, raise, set_summary, emit, sleep,
    log_skipped_article, modify, gets, ret in *.

Lemma truthy_true s : truthy s = true <-> s <> EmptyString.
Proof. by destruct s. Qed.

Lemma missing_or_empty_false ad field :
  missing_or_empty ad field = false <->
  exists v, ad !! field = Some v /\ v <> EmptyString.
Proof.
  unfold missing_or_empty. destruct (ad !! field) as [v|].
  - rewrite negb_false_iff, truthy_true. split.
    + intros Hv. by exists v.
    + by intros (v' & [= <-] & Hv).
  - split; [done | by intros (v & ? & _)].
Qed.

Lemma post_to_blogger_draft_rejects E ad feed_title image_url source_url w :
  missing_or_empty ad "title" = true \/ missing_or_empty ad "content" = true ->
  post_to_blogger_draft E ad feed_title image_url source_url w = (Ret None, w).
Proof.
  intros H. unfold post_to_blogger_draft. unfold_monad.
  destruct (bool_decide (ad = ∅)); [done|].
  destruct (missing_or_empty ad "title"); [done|].
  destruct (missing_or_empty ad "content"); [done|].
  by destruct H.
Qed.

(** C5: a payload whose title or content is missing or empty makes
    [post_to_blogger_draft] return [None] with the world as it was, so
    without any call to the publishing service; a call to that service is
    made only for a payload with a title and a content that are both
    there and not empty. *)
Theorem publisher_validates_first (E : env) (ad : gmap string string)
    (feed_title : string) (image_url : option string) (source_url : string)
    (w : world) :
  (ad !! "title" = None \/ ad !! "title" = Some EmptyString \/
   ad !! "content" = None \/ ad !! "content" = Some EmptyString ->
   post_to_blogger_draft E ad feed_title image_url source_url w = (Ret None, w)) /\
  (trace (post_to_blogger_draft E ad feed_title image_url source_url w).2
     <> trace w ->
   exists title content,
     ad !! "title" = Some title /\ title <> EmptyString /\
     ad !! "content" = Some content /\ content <> EmptyString).
Proof.
  split.
  - intros H. apply post_to_blogger_draft_rejects. unfold missing_or_empty.
    destruct H as [-> | [-> | [-> | -> ] ] ]; auto.
  - intros H.
    destruct (missing_or_empty ad "title") eqn:Ht.
    { rewrite post_to_blogger_draft_rejects in H by auto. done. }
    destruct (missing_or_empty ad "content") eqn:Hc.
    { rewrite post_to_blogger_draft_rejects in H by auto. done. }
    apply missing_or_empty_false in Ht as (t & ? & ?).
    apply missing_or_empty_false in Hc as (c & ? & ?). by exists t, c.
Qed.

Lemma publisher_validates_first_witness :
  let E := Sample.services (ParsedFeed None []) None (Some "post-1") in
  let ad : gmap string string :=
    <["title" := "A title"]> (<["content" := EmptyString]> ∅) in
  post_to_blogger_draft E ad "Feed" None "http://src" world0 = (Ret None, world0).
Proof.
  intros E ad.
  apply (proj1 (publisher_validates_first E ad "Feed" None "http://src" world0)).
  right; right; right. reflexivity.
Defined.

Lemma get_blogger_service_cases E w :
  get_blogger_service E w
    = (Ret tt, World (PROCESSED_ARTICLES w) (SUMMARY w) (skipped_log w)
                     (EvService true :: trace w)) \/
  get_blogger_service E w
    = (Raise (SystemExit 1),
       World (PROCESSED_ARTICLES w) (SUMMARY w) (skipped_log w)
             (EvService false :: trace w)).
Proof.
  unfold get_blogger_service. unfold_monad. simpl.
  destruct (stored_credentials E (trace w)); simpl.
  - destruct (build_service E (trace w)); auto.
  - destruct (client_secrets_flow E (trace w)); simpl; [|auto].
    destruct (run_flow E (trace w)); simpl; [|auto].
    destruct (build_service E (trace w)); auto.
Qed.

(** Splits a trace into the events a call added and the trace before. *)
Ltac new_events :=
  first [ exists []; split; [reflexivity|]
        | eexists [_]; split; [reflexivity|]
        | eexists [_; _]; split; [reflexivity|]
        | eexists [_; _; _]; split; [reflexivity|] ].

Lemma post_to_blogger_draft_effect E ad feed_title image_url source_url w :
  let rw := post_to_blogger_draft E ad feed_title image_url source_url w in
  publisher_effect w rw.1 rw.2.
Proof.
  assert (forall w0, publisher_effect w0 (Ret None) w0) as Hnone.
  { intros w0. unfold publisher_effect. repeat split; try lia.
    new_events. repeat split; try (cbn; lia); try done.
    by intros [? ?]. }
  unfold post_to_blogger_draft, try_except.
  destruct (bool_decide (ad = ∅)); [apply Hnone|].
  destruct (missing_or_empty ad "title") eqn:Ht; [apply Hnone|].
  destruct (missing_or_empty ad "content") eqn:Hc; [apply Hnone|].
  apply missing_or_empty_false in Ht as (t & Ht & _).
  apply missing_or_empty_false in Hc as (c & Hc & _).
  unfold submit_draft, insert_post. unfold_monad. rewrite Ht, Hc. simpl.
  destruct (has_image image_url); simpl;
    (match goal with
     | |- context [get_blogger_service E ?w0] =>
         destruct (get_blogger_service_cases E w0) as [Hs|Hs]; rewrite Hs
     end); simpl;
    (destruct (ad !! "keywords") as [k|]; simpl);
    try (match goal with
         | |- context [posts_insert E ?tr ?b] =>
             destruct (posts_insert E tr b) as [post_id|]
         end; simpl).
  all: unfold publisher_effect; simpl; repeat split; try lia.
  all: new_events; cbn; repeat split; try lia; try done.
  all: try (intros [? ?]; done); try (intros _; by eexists).
Qed.

(** C10: for a payload that passes the validation and an image URL that
    is not empty, [post_to_blogger_draft] counts the image whatever the
    publishing service answers afterwards; when the call does not return
    a post identifier, articles_posted stays as it was, so that
    images_included ends above articles_posted if it was not below
    before. *)
Theorem image_counted_before_submission (E : env) (ad : gmap string string)
    (title content feed_title image_url source_url : string) (w : world) :
  ad !! "title" = Some title -> title <> EmptyString ->
  ad !! "content" = Some content -> content <> EmptyString ->
  image_url <> EmptyString ->
  let rw := post_to_blogger_draft E ad feed_title (Some image_url) source_url w in
  images_included (SUMMARY rw.2) = S (images_included (SUMMARY w)) /\
  ((forall post_id, rw.1 <> Ret (Some post_id)) ->
   articles_posted (SUMMARY rw.2) = articles_posted (SUMMARY w) /\
   (articles_posted (SUMMARY w) <= images_included (SUMMARY w) ->
    articles_posted (SUMMARY rw.2) < images_included (SUMMARY rw.2))).
Proof.
  intros Ht Hte Hc Hce Hi.
  assert (bool_decide (ad = ∅) = false) as Hne.
  { apply bool_decide_eq_false. intros ->. by rewrite lookup_empty in Ht. }
  assert (missing_or_empty ad "title" = false) as Hmt
    by (apply missing_or_empty_false; eauto).
  assert (missing_or_empty ad "content" = false) as Hmc
    by (apply missing_or_empty_false; eauto).
  assert (has_image (Some image_url) = true) as Himg
    by (by apply truthy_true).
  unfold post_to_blogger_draft, try_except. rewrite Hne, Hmt, Hmc.
  unfold submit_draft, insert_post. unfold_monad. rewrite Ht, Hc, Himg. simpl.
  (match goal with
   | |- context [get_blogger_service E ?w0] =>
       destruct (get_blogger_service_cases E w0) as [Hs|Hs]; rewrite Hs
   end); simpl;
    (destruct (ad !! "keywords") as [k|]; simpl);
    try (match goal with
         | |- context [posts_insert E ?tr ?b] =>
             destruct (posts_insert E tr b) as [post_id|]
         end; simpl).
  all: split; [done|]; intros Hfail; try (by destruct (Hfail post_id)).
  all: split; [done | lia].
Qed.

Lemma image_counted_before_submission_witness :
  let E := Sample.services (ParsedFeed None []) None None in
  let ad : gmap string string :=
    <["title" := "A title"]> (<["content" := "A body"]>
      (<["keywords" := "news"]> ∅)) in
  let rw := post_to_blogger_draft E ad "Feed" (Some "http://img/a.png")
              "http://src" world0 in
  images_included (SUMMARY rw.2) = 1 /\
  articles_posted (SUMMARY rw.2) < images_included (SUMMARY rw.2).
Proof.
  intros E ad.
  destruct (image_counted_before_submission E ad "A title" "A body" "Feed"
              "http://img/a.png" "http://src" world0)
    as [Hi Hp]; [reflexivity | discriminate | reflexivity | discriminate
                 | discriminate |].
  split; [exact Hi|]. apply Hp; [intros post_id; discriminate | simpl; lia].
Defined.

(** ** The Feed Worker, run alone *)

Lemma rewritten_ids_app a b :
  rewritten_ids (a ++ b) = (rewritten_ids a ++ rewritten_ids b)%list.
Proof. unfold rewritten_ids. apply omap_app. Qed.

Lemma count_app p a b : count p (a ++ b) = count p a + count p b.
Proof. unfold count. by rewrite List.filter_app, length_app. Qed.

Lemma rewrite_article_cases E title content source_url feed_url w :
  let prompt := build_prompt title content source_url feed_url in
  let answer := groq_create E (trace w) prompt in
  rewrite_article E title content source_url feed_url w
  = (Ret (parse_rewrite title <$> answer),
     World (PROCESSED_ARTICLES w) (SUMMARY w) (skipped_log w)
           (EvRewrite (title, source_url) prompt answer :: trace w)).
Proof.
  unfold rewrite_article, groq_chat. unfold_monad. simpl.
  by destruct (groq_create E (trace w) _).
Qed.

Lemma truthy_dict_parse title text :
  truthy_dict (Some (parse_rewrite title text)) = true.
Proof.
  unfold truthy_dict. apply negb_true_iff, bool_decide_eq_false,
    parse_rewrite_nonempty.
Qed.

Lemma rewrite_and_post_effect_holds E title cleaned source_url feed_url
    feed_title image_url n w r w' :
  rewrite_and_post E title cleaned source_url feed_url feed_title
    image_url n w = (r, w') ->
  rewrite_and_post_effect (title, source_url) n w r w'.
Proof.
  unfold rewrite_and_post. unfold bind at 1. rewrite rewrite_article_cases.
  destruct (groq_create E (trace w) _) as [text|] eqn:Hg; simpl fmap; cbv iota beta.
  - rewrite truthy_dict_parse. unfold bind, sleep, emit, modify, ret. simpl default.
    match goal with
    | |- context [post_to_blogger_draft E ?ad ?ft ?img ?src ?w1] =>
        pose proof (post_to_blogger_draft_effect E ad ft img src w1) as Hp;
        destruct (post_to_blogger_draft E ad ft img src w1) as [r2 w2]
    end.
    destruct Hp as (HP & _ & Hf & _ & _ & _ & new & Ht & Hids & Hro & Hle & Hiff & Hap).
    simpl in *. destruct r2 as [p|e]; intros [= <- <-].
    + unfold rewrite_and_post_effect; simpl. split; [done|]. split; [done|].
      eexists ([EvSleep 3] ++ new ++ [_])%list. split.
      { rewrite Ht. simpl. by rewrite <- List.app_assoc. }
      rewrite !rewritten_ids_app. unfold rewrites_ok, inserts_ok in *.
      rewrite !count_app, Hids, Hro. cbn.
      repeat split; try done; try lia. intros n' [= <-]. lia.
    + unfold rewrite_and_post_effect; simpl. split; [done|]. split; [done|].
      eexists (new ++ [_]). split.
      { rewrite Ht. by rewrite <- List.app_assoc. }
      rewrite rewritten_ids_app. unfold rewrites_ok, inserts_ok in *.
      rewrite !count_app, Hids, Hro. cbn.
      repeat split; try done; lia.
  - unfold truthy_dict, bind, sleep, emit, modify, ret. simpl. intros [= <- <-].
    unfold rewrite_and_post_effect; simpl. split; [done|]. split; [done|].
    new_events. cbn. repeat split; try done; try lia. intros n' [= <-]. lia.
Qed.

Lemma worker_effect_same n w w' :
  PROCESSED_ARTICLES w' = PROCESSED_ARTICLES w ->
  trace w' = trace w ->
  feeds_processed (SUMMARY w') = feeds_processed (SUMMARY w) ->
  articles_posted (SUMMARY w') = articles_posted (SUMMARY w) ->
  forall r, (forall n', r = Ret n' -> n' = n) -> worker_effect n w r w'.
Proof.
  intros HP Ht Hf Ha r Hr. unfold worker_effect. rewrite HP.
  split; [done|]. split; [done|]. exists []. cbn.
  repeat split; try done; try lia.
  - constructor.
  - by apply elem_of_nil in H.
  - by apply elem_of_nil in H.
  - intros n' Hn. rewrite (Hr n' Hn). lia.
Qed.

Lemma worker_effect_raise n w r w' e :
  worker_effect n w r w' -> worker_effect n w (Raise e) w'.
Proof.
  intros (HP & Hf & new & Ht & Hnd & Hids & Ha & Hle & _).
  split; [done|]. split; [done|]. exists new. repeat split; try done; by apply Hids.
Qed.

Lemma worker_effect_trans n w n1 w1 r w2 :
  worker_effect n w (Ret n1) w1 -> worker_effect n1 w1 r w2 ->
  worker_effect n w r w2.
Proof.
  intros (HP1 & Hf1 & new1 & Ht1 & Hnd1 & Hids1 & Ha1 & Hle1 & Hn1)
         (HP2 & Hf2 & new2 & Ht2 & Hnd2 & Hids2 & Ha2 & Hle2 & Hn2).
  split; [by etrans|]. split; [congruence|].
  exists (new2 ++ new1). split; [by rewrite Ht2, Ht1, List.app_assoc|].
  rewrite rewritten_ids_app. unfold rewrites_ok, inserts_ok in *.
  rewrite !count_app. split; [|split; [|split; [|split]]].
  - apply NoDup_app. split; [done|]. split; [|done].
    intros id H2 H1. apply Hids2 in H2 as [H2 _]. apply Hids1 in H1 as [_ H1].
    done.
  - intros id [H|H]%elem_of_app.
    + apply Hids2 in H as [Hn Hy]. split; [|done].
      intros Hin. apply Hn. by apply HP1.
    + apply Hids1 in H as [Hn Hy]. split; [done|]. by apply HP2.
  - lia.
  - lia.
  - intros n' Hr. specialize (Hn1 n1 eq_refl). specialize (Hn2 n' Hr). lia.
Qed.

Lemma entry_content_cases e w :
  (exists content, entry_content e w = (Ret content, w)) \/
  (entry_content e w = (Raise IndexError, w) /\ ~ content_readable e).
Proof.
  unfold entry_content, content_readable, ret, raise.
  destruct (truthy (default EmptyString (e_description e))); [eauto|].
  destruct (e_content e) as [[|c cs]|]; eauto.
  right. split; [done|]. by intros [?|?].
Qed.

Lemma worker_effect_marked E id title cleaned source_url feed_url feed_title
    image_url n w r w' :
  id = (title, source_url) ->
  id ∉ PROCESSED_ARTICLES w ->
  (mark_processed id ;;;
   rewrite_and_post E title cleaned source_url feed_url feed_title image_url n)%py
    w = (r, w') ->
  worker_effect n w r w'.
Proof.
  intros -> Hnew. unfold bind, mark_processed, modify. simpl. intros Hrun.
  apply rewrite_and_post_effect_holds in Hrun
    as (HP & Hf & new & Ht & Hids & Ha & Hle & Hn). simpl in *.
  split; [rewrite HP; apply union_subseteq_r|]. split; [done|].
  exists new. rewrite Hids. repeat split; try done.
  - apply NoDup_singleton.
  - by apply list_elem_of_singleton in H as ->.
  - apply list_elem_of_singleton in H as ->. rewrite HP.
    apply elem_of_union_l. by apply elem_of_singleton.
Qed.

Lemma strict_body_effect E feed_url feed_title min_word_count e n w r w' :
  strict_body E feed_url feed_title min_word_count e n w = (r, w') ->
  worker_effect n w r w'.
Proof.
  unfold strict_body. unfold bind at 1.
  destruct (entry_content_cases e w) as [[content ->]|[-> _]].
  2: { intros [= <- <-]. apply worker_effect_same; try done. }
  unfold bind at 1. unfold strict_duplicate. unfold_monad. simpl.
  destruct (bool_decide (_ ∈ PROCESSED_ARTICLES w)) eqn:Hd; simpl.
  { intros [= <- <-]. apply worker_effect_same; try done. by intros n' [= <-]. }
  apply bool_decide_eq_false in Hd.
  unfold short_check. unfold_monad.
  destruct (Z.of_nat _ <? min_word_count)%Z; simpl.
  { intros [= <- <-]. apply worker_effect_same; try done. by intros n' [= <-]. }
  intros Hrun. eapply (worker_effect_marked E _ _ _ _ _ _ _ n w); [done| |].
  - exact Hd.
  - unfold bind, mark_processed, modify. simpl. exact Hrun.
Qed.

Lemma relaxed_body_effect E feed_url feed_title e n w r w' :
  relaxed_body E feed_url feed_title e n w = (r, w') ->
  worker_effect n w r w'.
Proof.
  unfold relaxed_body. unfold bind at 1.
  destruct (entry_content_cases e w) as [[content ->]|[-> _]].
  2: { intros [= <- <-]. apply worker_effect_same; try done. }
  unfold bind at 1. unfold relaxed_duplicate. unfold_monad. simpl.
  destruct (bool_decide (_ ∈ PROCESSED_ARTICLES w)) eqn:Hd; simpl.
  { intros [= <- <-]. apply worker_effect_same; try done. by intros n' [= <-]. }
  apply bool_decide_eq_false in Hd.
  intros Hrun. eapply (worker_effect_marked E _ _ _ _ _ _ _ n w); [done| |].
  - exact Hd.
  - unfold bind, mark_processed, modify. simpl. exact Hrun.
Qed.

Lemma feed_loop_effect (body : entry -> nat -> M nat) articles_to_fetch :
  (forall e n w r w', body e n w = (r, w') -> worker_effect n w r w') ->
  forall entries n w r w',
    feed_loop body articles_to_fetch entries n w = (r, w') ->
    worker_effect n w r w'.
Proof.
  intros Hbody entries. induction entries as [|e rest IH]; intros n w r w'; simpl.
  - intros [= <- <-]. apply worker_effect_same; try done. by intros n' [= <-].
  - destruct (Z.of_nat n <? articles_to_fetch)%Z.
    2: { intros [= <- <-]. apply worker_effect_same; try done. by intros n' [= <-]. }
    unfold bind. destruct (body e n w) as [[n1|ex] w1] eqn:Hb.
    + intros Hrest. apply IH in Hrest. apply Hbody in Hb.
      by eapply worker_effect_trans.
    + intros [= <- <-]. by apply Hbody in Hb.
Qed.

Lemma worker_effect_neutral n w w' new :
  PROCESSED_ARTICLES w' = PROCESSED_ARTICLES w ->
  trace w' = new ++ trace w ->
  rewritten_ids new = [] -> rewrites_ok new = 0 -> inserts_ok new = 0 ->
  feeds_processed (SUMMARY w') = feeds_processed (SUMMARY w) ->
  articles_posted (SUMMARY w') = articles_posted (SUMMARY w) ->
  worker_effect n w (Ret n) w'.
Proof.
  intros HP Ht Hids Hr Hi Hf Ha. unfold worker_effect. rewrite HP.
  split; [done|]. split; [done|]. exists new. rewrite Hids, Hr, Hi.
  repeat split; try done; try lia.
  - constructor.
  - by apply elem_of_nil in H.
  - by apply elem_of_nil in H.
  - intros n' [= <-]. lia.
Qed.

(** What a whole run of [process_feed] changes. *)
Lemma process_feed_effect E feed_url articles_to_fetch min_word_count w r w' :
  process_feed E feed_url articles_to_fetch min_word_count w = (r, w') ->
  PROCESSED_ARTICLES w ⊆ PROCESSED_ARTICLES w' /\
  exists new, trace w' = new ++ trace w /\
    NoDup (rewritten_ids new) /\
    (forall id, id ∈ rewritten_ids new ->
       (id ∉ PROCESSED_ARTICLES w) /\ (id ∈ PROCESSED_ARTICLES w')) /\
    articles_posted (SUMMARY w') = articles_posted (SUMMARY w) + inserts_ok new /\
    inserts_ok new <= rewrites_ok new /\
    (forall n, r = Ret n ->
       n = rewrites_ok new /\
       feeds_processed (SUMMARY w') = S (feeds_processed (SUMMARY w))).
Proof.
  unfold process_feed, fetch. unfold bind at 1. unfold bind at 1.
  unfold gets at 1. unfold bind at 1. unfold emit at 1, modify at 1.
  unfold ret at 1. cbv iota beta.
  set (feed := feedparser_parse E (trace w) feed_url).
  set (feed_title := Py.replace_blank (default "Unknown_Feed" (f_title feed))).
  set (w1 := World _ _ _ (EvFetch feed_url :: trace w)).
  assert (worker_effect 0 w (Ret 0) w1) as H01
    by (by apply (worker_effect_neutral 0 w w1 [EvFetch feed_url])).
  unfold bind at 1.
  destruct (feed_loop (strict_body E feed_url feed_title min_word_count)
              articles_to_fetch (f_entries feed) 0 w1) as [[n1|ex] w2] eqn:H1.
  2: { intros [= <- <-]. apply feed_loop_effect in H1;
         [|intros *; apply strict_body_effect].
       destruct (worker_effect_trans _ _ _ _ _ _ H01 H1)
         as (HP & Hf & new & Ht & Hnd & Hids & Ha & Hle & Hn).
       split; [done|]. exists new. by repeat split; try apply Hids. }
  apply feed_loop_effect in H1; [|intros *; apply strict_body_effect].
  pose proof (worker_effect_trans _ _ _ _ _ _ H01 H1) as H02. clear H01 H1.
  assert (forall r2 w3, worker_effect 0 w r2 w3 ->
    (match r2 with
     | Ret a => (set_summary inc_feeds_processed ;;; ret a)%py w3
     | Raise e => (Raise e, w3)
     end) = (r, w') ->
    PROCESSED_ARTICLES w ⊆ PROCESSED_ARTICLES w' /\
    exists new, trace w' = new ++ trace w /\
      NoDup (rewritten_ids new) /\
      (forall id, id ∈ rewritten_ids new ->
         (id ∉ PROCESSED_ARTICLES w) /\ (id ∈ PROCESSED_ARTICLES w')) /\
      articles_posted (SUMMARY w') = articles_posted (SUMMARY w) + inserts_ok new /\
      inserts_ok new <= rewrites_ok new /\
      (forall n, r = Ret n ->
         n = rewrites_ok new /\
         feeds_processed (SUMMARY w') = S (feeds_processed (SUMMARY w)))) as Hend.
  { intros r2 w3 (HP & Hf & new & Ht & Hnd & Hids & Ha & Hle & Hn).
    destruct r2 as [n2|ex]; unfold_monad; simpl; intros [= <- <-]; simpl.
    - split; [done|]. exists new. repeat split; try done; try (by apply Hids).
      + injection H as <-. by rewrite (Hn n2).
      + by rewrite Hf.
    - split; [done|]. exists new. repeat split; try done; by apply Hids. }
  destruct ((Z.of_nat n1 <? articles_to_fetch)%Z && negb (min_word_count =? -1)%Z).
  - unfold bind, log_skipped_article, modify. cbv iota beta.
    match goal with
    | |- context [feed_loop ?b ?q ?es ?n ?w0] =>
        set (w2' := w0); destruct (feed_loop b q es n w2') as [r2 w3] eqn:H2
    end.
    assert (worker_effect n1 w2 (Ret n1) w2') as H22
      by (apply worker_effect_same; try done; by intros n' [= <-]).
    apply feed_loop_effect in H2; [|intros *; apply relaxed_body_effect].
    intros Hrun. apply (Hend r2 w3).
    + eapply worker_effect_trans; [exact H02|].
      eapply worker_effect_trans; [exact H22 | exact H2].
    + destruct r2; exact Hrun.
  - intros Hrun. apply (Hend (Ret n1) w2 H02). exact Hrun.
Qed.

Lemma entry_content_readable e w :
  content_readable e -> entry_content e w = (Ret (entry_text e), w).
Proof.
  unfold content_readable, entry_content, entry_text, ret.
  destruct (truthy (default EmptyString (e_description e))); [done|].
  intros [?|H]; [done|]. by destruct (e_content e) as [[|c cs]|].
Qed.

(** In the first pass an entry whose identifier is in the set is counted
    as a duplicate, once, logged, and nothing else happens. *)
Lemma strict_body_duplicate E feed_url feed_title min_word_count e n w :
  content_readable e ->
  entry_id e ∈ PROCESSED_ARTICLES w ->
  strict_body E feed_url feed_title min_word_count e n w
  = (Ret n,
     World (PROCESSED_ARTICLES w) (inc_duplicates_skipped (SUMMARY w))
           (skipped_log w
              ++ [SkipLine (entry_id e).1 feed_url "Duplicate article" None])
           (trace w)).
Proof.
  intros Hr Hin. unfold strict_body. unfold bind at 1.
  rewrite entry_content_readable by done.
  unfold strict_duplicate. unfold_monad. simpl.
  by rewrite (bool_decide_eq_true_2 _ Hin).
Qed.

(** ** C1: one rewrite for one identifier *)

Lemma rewrites_ok_le_ids tr : rewrites_ok tr <= length (rewritten_ids tr).
Proof.
  unfold rewrites_ok, count, rewritten_ids, omap.
  induction tr as [|ev tr IH]; simpl; [lia|].
  destruct ev as [| id prompt [text|] | | | |]; simpl; lia.
Qed.

(** C1, as stated, fails: with the pipeline's own settings, the second
    entry of [Feeds.short_then_long] has the title and link of the first
    one; it is the one rewritten, and duplicates_skipped stays at 0. *)
Lemma second_occurrence_not_counted :
  let E := Sample.services Feeds.short_then_long (Some Sample.answer)
             (Some "post-1") in
  let rw := process_feed E Feeds.url ARTICLES_PER_FEED MIN_WORD_COUNT world0 in
  rw.1 = Ret 4 /\
  duplicates_skipped (SUMMARY rw.2) = 0 /\
  articles_skipped_short (SUMMARY rw.2) = 1 /\
  rewritten_ids (trace rw.2)
  = [("Vote", "http://news/vote"); ("Match", "http://news/match");
     ("Budget", "http://news/budget"); ("Storm", "http://news/storm")].
Proof. vm_compute. repeat split. Qed.

(** ** C2: what the worker returns *)

(** C2, as amended: when [process_feed] returns, feeds_processed has
    grown by one and the value returned is the number of rewrite requests
    that were answered, each of which was handed to the Publisher;
    articles_posted has grown by the number of submissions the publishing
    service accepted, which is at most the value returned. *)
Theorem worker_returns_rewritten_count (E : env) (feed_url : string)
    (articles_to_fetch min_word_count : Z) (w : world) (n : nat) (w' : world) :
  process_feed E feed_url articles_to_fetch min_word_count w = (Ret n, w') ->
  feeds_processed (SUMMARY w') = S (feeds_processed (SUMMARY w)) /\
  exists new, trace w' = new ++ trace w /\
    n = rewrites_ok new /\
    articles_posted (SUMMARY w') = articles_posted (SUMMARY w) + inserts_ok new /\
    inserts_ok new <= n.
Proof.
  intros Hrun.
  apply process_feed_effect in Hrun as (_ & new & Ht & _ & _ & Ha & Hle & Hn).
  destruct (Hn n eq_refl) as [-> Hf]. split; [done|]. by exists new.
Qed.

Lemma worker_returns_rewritten_count_witness :
  let E := Sample.flaky_publisher Feeds.pair (Some Sample.answer) 1 in
  let rw := process_feed E Feeds.url ARTICLES_PER_FEED MIN_WORD_COUNT world0 in
  rw.1 = Ret 2 /\
  feeds_processed (SUMMARY rw.2) = 1 /\
  articles_posted (SUMMARY rw.2) = 1.
Proof.
  intros E rw.
  assert (process_feed E Feeds.url ARTICLES_PER_FEED MIN_WORD_COUNT world0
          = (Ret 2, rw.2)) as Hrun by (vm_compute; reflexivity).
  destruct (worker_returns_rewritten_count E Feeds.url ARTICLES_PER_FEED
              MIN_WORD_COUNT world0 2 rw.2 Hrun) as (Hf & _).
  split; [vm_compute; reflexivity|]. split; [exact Hf|].
  vm_compute; reflexivity.
Defined.

(** C2, as stated, fails: the rewrite of the one entry of [Feeds.single]
    is answered and the publishing service refuses the draft; the worker
    returns 1 and nothing was posted. *)
Lemma returned_count_is_not_posted_count :
  let E := Sample.services Feeds.single (Some Sample.answer) None in
  let rw := process_feed E Feeds.url ARTICLES_PER_FEED MIN_WORD_COUNT world0 in
  rw.1 = Ret 1 /\
  articles_posted (SUMMARY rw.2) = 0 /\
  inserts_ok (trace rw.2) = 0.
Proof. vm_compute. repeat split. Qed.

(** ** C6: short entries and the retry *)

Lemma strict_body_short E feed_url feed_title min_word_count e n w :
  content_readable e ->
  entry_id e ∉ PROCESSED_ARTICLES w ->
  (Z.of_nat (word_count (clean_text E (entry_text e))) < min_word_count)%Z ->
  strict_body E feed_url feed_title min_word_count e n w
  = (Ret n,
     World (PROCESSED_ARTICLES w) (inc_articles_skipped_short (SUMMARY w))
           (skipped_log w
              ++ [SkipLine (entry_id e).1 feed_url "Below word count"
                    (Some (word_count (clean_text E (entry_text e))))])
           (trace w)).
Proof.
  intros Hr Hnew Hshort. unfold strict_body. unfold bind at 1.
  rewrite entry_content_readable by done. unfold entry_id in *.
  unfold strict_duplicate, short_check. unfold_monad. cbv beta iota zeta.
  rewrite (bool_decide_eq_false_2 _ Hnew). cbv beta iota zeta.
  apply Z.ltb_lt in Hshort. by rewrite Hshort.
Qed.

Lemma relaxed_body_unmarked E feed_url feed_title e n w :
  content_readable e ->
  entry_id e ∉ PROCESSED_ARTICLES w ->
  relaxed_body E feed_url feed_title e n w
  = (mark_processed (entry_id e) ;;;
     rewrite_and_post E (entry_id e).1 (clean_text E (entry_text e))
       (entry_id e).2 feed_url feed_title (extract_image e) n)%py w.
Proof.
  intros Hr Hnew. unfold relaxed_body. unfold bind at 1.
  rewrite entry_content_readable by done. unfold entry_id in *.
  unfold relaxed_duplicate. unfold bind at 1. unfold gets at 1.
  cbv beta iota zeta. by rewrite (bool_decide_eq_false_2 _ Hnew).
Qed.

(** ** C9: failures and the driver *)

Lemma get_blogger_service_available E w :
  (stored_credentials E (trace w) = true \/
   (client_secrets_flow E (trace w) = true /\ run_flow E (trace w) = true)) ->
  build_service E (trace w) = true ->
  get_blogger_service E w
  = (Ret tt, World (PROCESSED_ARTICLES w) (SUMMARY w) (skipped_log w)
                   (EvService true :: trace w)).
Proof.
  intros Hc Hb. unfold get_blogger_service. unfold_monad. simpl.
  destruct (stored_credentials E (trace w)); simpl; [by rewrite Hb|].
  destruct Hc as [?|[-> ->]]; [done|]. simpl. by rewrite Hb.
Qed.

Section Absorbed.

Variable E : env.
Hypothesis Hok : no_fatal_condition E.

Lemma post_to_blogger_draft_returns ad feed_title image_url source_url w :
  exists p w',
    post_to_blogger_draft E ad feed_title image_url source_url w = (Ret p, w').
Proof.
  unfold post_to_blogger_draft, try_except.
  destruct (bool_decide (ad = ∅)); [by eexists _, _|].
  destruct (missing_or_empty ad "title") eqn:Ht; [by eexists _, _|].
  destruct (missing_or_empty ad "content") eqn:Hc; [by eexists _, _|].
  apply missing_or_empty_false in Ht as (t & Ht & _).
  apply missing_or_empty_false in Hc as (c & Hc & _).
  unfold submit_draft, insert_post. unfold_monad. rewrite Ht, Hc. simpl.
  destruct (has_image image_url); simpl;
    (match goal with
     | |- context [get_blogger_service E ?w0] =>
         rewrite (get_blogger_service_available E w0)
           by (simpl; apply (proj1 Hok))
     end); simpl;
    (destruct (ad !! "keywords") as [k|]; simpl);
    try (match goal with
         | |- context [posts_insert E ?tr ?b] =>
             destruct (posts_insert E tr b) as [post_id|]
         end; simpl); by eexists _, _.
Qed.

Lemma rewrite_and_post_returns title cleaned source_url feed_url feed_title
    image_url n w :
  exists n' w',
    rewrite_and_post E title cleaned source_url feed_url feed_title image_url
      n w = (Ret n', w').
Proof.
  unfold rewrite_and_post. unfold bind at 1. rewrite rewrite_article_cases.
  destruct (groq_create E (trace w) _) as [text|]; simpl fmap; cbv iota beta.
  - rewrite truthy_dict_parse. unfold bind, sleep, emit, modify, ret.
    simpl default.
    match goal with
    | |- context [post_to_blogger_draft E ?ad ?ft ?img ?src ?w1] =>
        destruct (post_to_blogger_draft_returns ad ft img src w1)
          as (p & w2 & ->)
    end. by eexists _, _.
  - unfold truthy_dict, bind, sleep, emit, modify, ret. by eexists _, _.
Qed.

Lemma strict_body_returns feed_url feed_title min_word_count e n w :
  content_readable e ->
  exists n' w',
    strict_body E feed_url feed_title min_word_count e n w = (Ret n', w').
Proof.
  intros Hr. unfold strict_body. unfold bind at 1.
  rewrite entry_content_readable by done.
  unfold strict_duplicate, short_check. unfold_monad. cbv beta iota zeta.
  destruct (bool_decide _); cbv beta iota zeta; [by eexists _, _|].
  destruct (Z.of_nat _ <? min_word_count)%Z; cbv beta iota zeta;
    [by eexists _, _|].
  unfold mark_processed, modify. cbv beta iota zeta.
  apply rewrite_and_post_returns.
Qed.

Lemma relaxed_body_returns feed_url feed_title e n w :
  content_readable e ->
  exists n' w', relaxed_body E feed_url feed_title e n w = (Ret n', w').
Proof.
  intros Hr. unfold relaxed_body. unfold bind at 1.
  rewrite entry_content_readable by done.
  unfold relaxed_duplicate. unfold_monad. cbv beta iota zeta.
  destruct (bool_decide _); cbv beta iota zeta; [by eexists _, _|].
  unfold mark_processed, modify. cbv beta iota zeta.
  apply rewrite_and_post_returns.
Qed.

Lemma feed_loop_returns (body : entry -> nat -> M nat) articles_to_fetch entries :
  (forall e n w, content_readable e -> exists n' w', body e n w = (Ret n', w')) ->
  Forall content_readable entries ->
  forall n w,
    exists n' w', feed_loop body articles_to_fetch entries n w = (Ret n', w').
Proof.
  intros Hbody Hall. induction Hall as [|e rest He Hrest IH]; intros n w; simpl.
  - by eexists _, _.
  - destruct (Z.of_nat n <? articles_to_fetch)%Z; [|by eexists _, _].
    unfold bind. destruct (Hbody e n w He) as (n1 & w1 & ->). apply IH.
Qed.

Lemma process_feed_returns feed_url articles_to_fetch min_word_count w :
  exists n w',
    process_feed E feed_url articles_to_fetch min_word_count w = (Ret n, w').
Proof.
  unfold process_feed, fetch. unfold bind at 1. unfold bind at 1.
  unfold gets at 1. unfold bind at 1. unfold emit at 1, modify at 1.
  unfold ret at 1. cbv iota beta.
  pose proof (proj2 Hok (trace w) feed_url) as Hall.
  set (feed := feedparser_parse E (trace w) feed_url) in *.
  set (feed_title := Py.replace_blank (default "Unknown_Feed" (f_title feed))).
  unfold bind at 1.
  match goal with
  | |- context [feed_loop ?b ?q ?es ?n0 ?w0] =>
      destruct (feed_loop_returns b q es
                  (fun e n w => strict_body_returns _ _ _ e n w) Hall n0 w0)
        as (n1 & w1 & ->)
  end.
  destruct ((Z.of_nat n1 <? articles_to_fetch)%Z && negb (min_word_count =? -1)%Z).
  - unfold bind, log_skipped_article, modify. cbv iota beta.
    match goal with
    | |- context [feed_loop ?b ?q ?es ?n0 ?w0] =>
        destruct (feed_loop_returns b q es
                    (fun e n w => relaxed_body_returns _ _ e n w) Hall n0 w0)
          as (n2 & w2 & ->)
    end.
    unfold_monad. by eexists _, _.
  - unfold_monad. by eexists _, _.
Qed.

End Absorbed.

Lemma executor_map_returns {A B} (f : A -> M B) xs w :
  exists rs w', executor_map f xs w = (Ret rs, w').
Proof.
  revert w; induction xs as [|x rest IH]; intros w; simpl.
  - by eexists _, _.
  - unfold bind, run_task. destruct (f x w) as [r w1].
    destruct (IH w1) as (rs & w2 & ->). by eexists _, _.
Qed.

(** ** Workers in the pool *)

Lemma exec_bind {A B} (m : M A) (f : A -> M (thread B)) w :
  exec (Running (x <- m ;; f x)%py) w
  = match m w with
    | (Ret a, w1) => exec (Running (f a)) w1
    | (Raise e, w1) => (Raise e, w1)
    end.
Proof. simpl. unfold bind. by destruct (m w) as [[a|e] w1]. Qed.

Lemma exec_ret {A} (t : thread A) w : exec (Running (ret t)) w = exec t w.
Proof. done. Qed.

Lemma bind_run {A B} (m : M A) (k : A -> M B) w :
  (x <- m ;; k x)%py w
  = match m w with
    | (Ret a, w1) => k a w1
    | (Raise e, w1) => (Raise e, w1)
    end.
Proof. done. Qed.

Lemma bind_bind_run {A B C} (m : M A) (f : A -> M B) (k : B -> M C) w :
  (y <- (x <- m ;; f x) ;; k y)%py w
  = match m w with
    | (Ret a, w1) => (y <- f a ;; k y)%py w1
    | (Raise e, w1) => (Raise e, w1)
    end.
Proof. unfold bind. by destruct (m w) as [[a|e] w1]. Qed.

Section Alone.

Variable E : env.
Variables (feed_url feed_title : string) (articles_to_fetch min_word_count : Z).

Lemma exec_strict_turn e n continue w :
  exec (strict_turn E feed_url feed_title min_word_count e n continue) w
  = (n' <- strict_body E feed_url feed_title min_word_count e n ;;
     exec (continue n'))%py w.
Proof.
  unfold strict_turn, strict_body. rewrite exec_bind, bind_bind_run.
  destruct (entry_content e w) as [[content|ex] w1]; [|done].
  rewrite exec_bind, bind_bind_run.
  destruct (strict_duplicate _ _ _ w1) as [[[|]|ex] w2]; [done| |done].
  rewrite exec_ret, exec_bind, bind_bind_run.
  destruct (short_check _ _ _ _ w2) as [[[|]|ex] w3]; [done| |done].
  rewrite exec_ret, exec_bind, bind_bind_run.
  destruct (mark_processed _ w3) as [[[]|ex] w4]; [|done].
  rewrite exec_ret, exec_bind. unfold bind.
  by destruct (rewrite_and_post _ _ _ _ _ _ _ _ w4) as [[n'|ex] w5].
Qed.

Lemma exec_relaxed_turn e n continue w :
  exec (relaxed_turn E feed_url feed_title e n continue) w
  = (n' <- relaxed_body E feed_url feed_title e n ;; exec (continue n'))%py w.
Proof.
  unfold relaxed_turn, relaxed_body. rewrite exec_bind, bind_bind_run.
  destruct (entry_content e w) as [[content|ex] w1]; [|done].
  rewrite exec_bind, bind_bind_run.
  destruct (relaxed_duplicate _ w1) as [[[|]|ex] w2]; [done| |done].
  rewrite exec_ret, exec_bind, bind_bind_run.
  destruct (mark_processed _ w2) as [[[]|ex] w3]; [|done].
  rewrite exec_ret, exec_bind. unfold bind.
  by destruct (rewrite_and_post _ _ _ _ _ _ _ _ w3) as [[n'|ex] w4].
Qed.

Lemma exec_loop_thread turn (body : entry -> nat -> M nat) done entries :
  (forall e n continue w,
     exec (turn e n continue) w
     = (n' <- body e n ;; exec (continue n'))%py w) ->
  forall n w,
    exec (loop_thread articles_to_fetch turn entries n done) w
    = (n' <- feed_loop body articles_to_fetch entries n ;; exec (done n'))%py w.
Proof.
  intros Hturn. induction entries as [|e rest IH]; intros n w; simpl.
  - done.
  - destruct (Z.of_nat n <? articles_to_fetch)%Z; [|done].
    rewrite Hturn, bind_bind_run. unfold bind at 1.
    destruct (body e n w) as [[n1|ex] w1]; [|done]. by rewrite IH.
Qed.

End Alone.

(** A worker that no other thread interrupts does what [process_feed]
    does. *)
Lemma exec_process_feed_thread E feed_url articles_to_fetch min_word_count w :
  exec (process_feed_thread E feed_url articles_to_fetch min_word_count) w
  = process_feed E feed_url articles_to_fetch min_word_count w.
Proof.
  unfold process_feed_thread, process_feed.
  rewrite exec_bind, (bind_run (fetch E feed_url)).
  destruct (fetch E feed_url w) as [[feed|ex] w1]; [|done].
  rewrite exec_ret.
  rewrite (exec_loop_thread _ _ _ _ _ (exec_strict_turn E _ _ _)).
  rewrite !(bind_run (feed_loop _ _ _ _)).
  destruct (feed_loop _ _ _ _ w1) as [[n1|ex] w2]; [|done].
  destruct ((Z.of_nat n1 <? articles_to_fetch)%Z && negb (min_word_count =? -1)%Z).
  - rewrite exec_bind, bind_bind_run.
    destruct (log_skipped_article _ _ _ _ w2) as [[[]|ex] w3]; [|done].
    rewrite exec_ret.
    rewrite (exec_loop_thread _ _ _ _ _ (exec_relaxed_turn E _ _)).
    rewrite !(bind_run (feed_loop _ _ _ _)).
    destruct (feed_loop _ _ _ _ w3) as [[n2|ex] w4]; [|done].
    rewrite exec_bind. unfold bind.
    by destruct (set_summary inc_feeds_processed w4) as [[[]|ex] w5].
  - rewrite exec_bind. unfold bind, ret.
    by destruct (set_summary inc_feeds_processed w2) as [[[]|ex] w3].
Qed.

(** ** C3: two workers on one identifier *)

(** C3 fails on the code: the membership test and the insertion are two
    stretches under the lock, and another worker may run between them.
    With two workers whose feeds hold the same item and that step in
    turn, both find the identifier absent, both send it to the rewrite
    service and both publish; no duplicate is counted.  When the second
    worker starts after the first has ended, the item is rewritten once
    and counted as a duplicate once. *)
Theorem race_on_one_identifier :
  let raced := run_schedule Race.alternate Race.pool world0 in
  let serial := run_schedule Race.one_after_the_other Race.pool world0 in
  (Race.finished <$> raced.1 = [Some (Ret 1); Some (Ret 1)] /\
   rewritten_ids (trace raced.2)
   = [("Storm", "http://news/storm"); ("Storm", "http://news/storm")] /\
   articles_posted (SUMMARY raced.2) = 2 /\
   duplicates_skipped (SUMMARY raced.2) = 0) /\
  (Race.finished <$> serial.1 = [Some (Ret 1); Some (Ret 0)] /\
   rewritten_ids (trace serial.2) = [("Storm", "http://news/storm")] /\
   articles_posted (SUMMARY serial.2) = 1 /\
   duplicates_skipped (SUMMARY serial.2) = 1).
Proof. vm_compute. repeat split. Qed.

(** * Further properties of the code *)

(** ** The Text Normalizer as a join of words *)

Section Words.

Import Py.

Local Arguments String.append : simpl nomatch.

Lemma split_word c r :
  isspace c = false ->
  split (String c r)
  = if starts_blank r then String c EmptyString :: split r
    else match split r with
         | w :: ws => String c w :: ws
         | [] => [String c EmptyString]
         end.
Proof. intros Hc. simpl. rewrite Hc. by destruct r. Qed.

Lemma split_blank c r : isspace c = true -> split (String c r) = split r.
Proof. intros Hc. simpl. by rewrite Hc. Qed.

Lemma split_lstrip s : split (lstrip s) = split s.
Proof.
  induction s as [|c r IH]; [done|]. cbn [lstrip].
  destruct (isspace c) eqn:Hc; [|done]. by rewrite split_blank.
Qed.

Lemma starts_blank_sub_ws r :
  starts_blank (sub_ws_from false r) = starts_blank r.
Proof. destruct r as [|c r]; [done|]. simpl. by destruct (isspace c) eqn:Hc. Qed.

Lemma split_sub_ws b s : split (sub_ws_from b s) = split s.
Proof.
  revert b; induction s as [|c r IH]; intros b; [done|]. cbn [sub_ws_from].
  destruct (isspace c) eqn:Hc.
  - rewrite (split_blank c r Hc). destruct b; [apply IH|].
    rewrite split_blank by done. apply IH.
  - rewrite (split_word c r), (split_word c (sub_ws_from false r)) by done.
    by rewrite starts_blank_sub_ws, IH.
Qed.

Lemma starts_blank_rstrip r a x :
  rstrip r = String a x -> starts_blank r = isspace a.
Proof.
  destruct r as [|c r]; [done|]. simpl.
  destruct (rstrip r); [destruct (isspace c) eqn:Hc|]; [done|..];
    by intros [= <- _].
Qed.

Lemma split_rstrip s : split (rstrip s) = split s.
Proof.
  induction s as [|c r IH]; [done|]. cbn [rstrip].
  destruct (rstrip r) as [|a x] eqn:Hr.
  - destruct (isspace c) eqn:Hc.
    + by rewrite split_blank.
    + rewrite (split_word c r), (split_word c EmptyString) by done.
      rewrite <- IH. simpl. by destruct (starts_blank r).
  - destruct (isspace c) eqn:Hc.
    + rewrite (split_blank c r), (split_blank c (String a x)) by done. exact IH.
    + rewrite (split_word c r), (split_word c (String a x)) by done. rewrite IH.
      by rewrite (starts_blank_rstrip r a x Hr).
Qed.

(** Collapsing and stripping keep the words. *)
Lemma split_collapse s : split (strip (sub_ws s)) = split s.
Proof. unfold strip, sub_ws. by rewrite split_rstrip, split_lstrip, split_sub_ws. Qed.

Lemma join_cons_head sep c w ws :
  join sep (String c w :: ws) = String c (join sep (w :: ws)).
Proof. simpl. by destruct ws. Qed.

Lemma sub_ws_from_true_false r :
  starts_blank r = false -> sub_ws_from true r = sub_ws_from false r.
Proof. destruct r as [|c r]; [done|]. simpl. by intros ->. Qed.

Lemma rstrip_tail c r : rstrip (String c r) = String c r -> rstrip r = r.
Proof.
  simpl. destruct (rstrip r) as [|a x] eqn:Hr.
  - destruct (isspace c); [done|]. by intros [= <-].
  - by intros [= <-].
Qed.

Lemma tidy_join x :
  rstrip x = x ->
  (sub_ws_from true x = x -> x = join " " (split x)) /\
  (sub_ws_from false x = x -> starts_blank x = true ->
   x = " " +:+ join " " (split x)).
Proof.
  induction x as [|c r IH]; intros Hrs; [done|].
  pose proof (rstrip_tail c r Hrs) as Hr. destruct (IH Hr) as [IH1 IH2].
  split.
  - cbn [sub_ws_from]. destruct (isspace c) eqn:Hc.
    + intros H. pose proof (sub_ws_from_length true r) as Hl.
      rewrite H in Hl. simpl in Hl. lia.
    + intros [= Hf]. rewrite split_word by done.
      destruct (starts_blank r) eqn:Hb.
      * specialize (IH2 Hf eq_refl).
        destruct (split r) as [|w ws] eqn:Hs.
        { rewrite IH2 in Hr. discriminate. }
        rewrite IH2 at 1. reflexivity.
      * rewrite <- sub_ws_from_true_false in Hf by done. specialize (IH1 Hf).
        destruct (split r) as [|w ws] eqn:Hs.
        { by rewrite IH1. }
        rewrite join_cons_head. by rewrite IH1 at 1.
  - cbn [sub_ws_from starts_blank]. intros H Hc. rewrite Hc in H.
    injection H as <- Ht. rewrite split_blank by done.
    by rewrite (IH1 Ht) at 1.
Qed.

Lemma lstrip_fixed_starts x : lstrip x = x -> starts_blank x = false.
Proof.
  destruct x as [|c r]; [done|]. simpl. destruct (isspace c); [|done].
  intros H. pose proof (lstrip_length r) as Hl. rewrite H in Hl. simpl in Hl. lia.
Qed.

Lemma collapse_join s : strip (sub_ws s) = join " " (split s).
Proof.
  rewrite <- (split_collapse s).
  set (x := strip (sub_ws s)).
  assert (rstrip x = x) as Hr by apply rstrip_idem.
  assert (lstrip x = x) as Hl
    by (apply lstrip_rstrip_fixed, lstrip_idem).
  assert (sub_ws_from false x = x) as Hf
    by (apply sub_ws_fixed_rstrip, sub_ws_fixed_lstrip, sub_ws_from_idem).
  apply (tidy_join x Hr).
  rewrite sub_ws_from_true_false; [done|]. by apply lstrip_fixed_starts.
Qed.

End Words.

(** X1: what [clean_text] returns is the words of the converted text, in
    order, with one blank between two words: no line feed, no tab, no
    blank at either end. *)
Theorem clean_text_joins_words (E : env) (text : string) :
  clean_text E text
  = join " " (Py.split (html_unescape E (markdownify E text))).
Proof. unfold clean_text. apply collapse_join. Qed.

(** X2: the word count that [process_feed] compares with the minimum is
    the number of words of the text as markdownify and html.unescape
    return it; collapsing the white space changes no word. *)
Theorem word_count_of_clean_text (E : env) (text : string) :
  word_count (clean_text E text)
  = length (Py.split (html_unescape E (markdownify E text))).
Proof. unfold word_count, clean_text. by rewrite split_collapse. Qed.

(** ** What a run keeps *)

Lemma split_comma_nonempty cur s : Py.split_comma cur s <> [].
Proof.
  revert cur; induction s as [|c r IH]; intros cur; [done|].
  cbn [Py.split_comma].
  destruct (Py.startswith ", " (String c r)); [done | apply IH].
Qed.

Section Chain.

Variable E : env.
Variable R : world -> world -> Prop.
Context `{!PreOrder R}.
Variable ok : event -> Prop.
Variable inc_ok : (Summary -> Summary) -> Prop.

Hypothesis R_event : forall ev w, ok ev -> R w (push ev w).
Hypothesis R_summary :
  forall f w, inc_ok f ->
    R w (World (PROCESSED_ARTICLES w) (f (SUMMARY w)) (skipped_log w) (trace w)).
Hypothesis R_log :
  forall line w,
    R w (World (PROCESSED_ARTICLES w) (SUMMARY w) (skipped_log w ++ [line])
               (trace w)).
Hypothesis R_mark :
  forall id w,
    R w (World ({[id]} ∪ PROCESSED_ARTICLES w) (SUMMARY w) (skipped_log w)
               (trace w)).
Hypothesis ok_rewrite : forall id prompt answer, ok (EvRewrite id prompt answer).
Hypothesis ok_service : forall b, ok (EvService b).
Hypothesis ok_sleep : forall n, ok (EvSleep n).
Hypothesis ok_insert : forall body answer, good_body E body -> ok (EvInsert body answer).

Lemma keeps_ret {A} (a : A) : keeps R (ret a).
Proof. intros w. simpl. reflexivity. Qed.

Lemma keeps_raise {A} e : keeps R (@raise A e).
Proof. intros w. simpl. reflexivity. Qed.

Lemma keeps_gets {A} (f : world -> A) : keeps R (gets f).
Proof. intros w. simpl. reflexivity. Qed.

Lemma keeps_bind {A B} (m : M A) (k : A -> M B) :
  keeps R m -> (forall a, keeps R (k a)) -> keeps R (x <- m ;; k x)%py.
Proof.
  intros Hm Hk w. unfold bind. specialize (Hm w).
  destruct (m w) as [[a|e] w1]; simpl in *; [|done].
  etrans; [exact Hm | apply Hk].
Qed.

Lemma keeps_bind_ret {A B} (a : A) (k : A -> M B) :
  keeps R (k a) -> keeps R (x <- ret a ;; k x)%py.
Proof. intros Hk w. exact (Hk w). Qed.

Lemma keeps_try {A} (m : M A) (h : exn -> M A) :
  keeps R m -> (forall e, keeps R (h e)) -> keeps R (try_except m h).
Proof.
  intros Hm Hh w. unfold try_except. specialize (Hm w).
  destruct (m w) as [[a|e] w1]; simpl in *; [done|].
  destruct (is_Exception e); simpl; [|done].
  etrans; [exact Hm | apply Hh].
Qed.

Lemma keeps_emit ev : ok ev -> keeps R (emit ev).
Proof. intros Hev w. by apply R_event. Qed.

Lemma keeps_set_summary f : inc_ok f -> keeps R (set_summary f).
Proof. intros Hf w. by apply R_summary. Qed.

Lemma keeps_log title feed_url reason word_count :
  keeps R (log_skipped_article title feed_url reason word_count).
Proof. intros w. apply R_log. Qed.

Lemma keeps_mark id : keeps R (mark_processed id).
Proof. intros w. apply R_mark. Qed.

Ltac keeps_step :=
  cbv beta zeta;
  first
    [ apply keeps_ret | apply keeps_raise | apply keeps_gets
    | apply keeps_log | apply keeps_mark
    | apply keeps_emit; solve [eauto]
    | apply keeps_set_summary; solve [eauto]
    | apply keeps_bind_ret
    | apply keeps_bind; [|intros ?]
    | apply keeps_try; [|intros ?]
    | match goal with
      | |- keeps _ (if ?b then _ else _) => destruct b eqn:?
      | |- keeps _ (match ?x with _ => _ end) => destruct x eqn:?
      end ].

Lemma keeps_get_blogger_service : keeps R (get_blogger_service E).
Proof. unfold get_blogger_service, exit. repeat keeps_step. Qed.

Lemma keeps_rewrite_article title content source_url feed_url :
  keeps R (rewrite_article E title content source_url feed_url).
Proof. unfold rewrite_article, groq_chat. repeat keeps_step. Qed.

Lemma keeps_insert_post body : good_body E body -> keeps R (insert_post E body).
Proof. intros Hb. unfold insert_post. repeat keeps_step. Qed.

Section Publisher.

Variable image_url : option string.
Hypothesis ok_image : has_image image_url = true -> inc_ok inc_images_included.
Hypothesis ok_posted : inc_ok inc_articles_posted.

Lemma keeps_post_to_blogger_draft ad feed_title source_url :
  keeps R (post_to_blogger_draft E ad feed_title image_url source_url).
Proof.
  unfold post_to_blogger_draft. apply keeps_try; [|intros e; apply keeps_ret].
  destruct (bool_decide (ad = ∅)); [apply keeps_ret|].
  destruct (missing_or_empty ad "title") eqn:Ht; [apply keeps_ret|].
  destruct (missing_or_empty ad "content") eqn:Hc; [apply keeps_ret|].
  apply missing_or_empty_false in Ht as (t & Ht & Hte).
  apply missing_or_empty_false in Hc as (c & Hc & _).
  unfold submit_draft, getitem. rewrite Ht, Hc.
  apply keeps_bind_ret, keeps_bind_ret, keeps_bind.
  { destruct (has_image image_url); repeat keeps_step. }
  intros content. apply keeps_bind; [apply keeps_get_blogger_service|].
  intros _. destruct (ad !! "keywords") as [k|]; [|repeat keeps_step].
  apply keeps_bind_ret. apply keeps_bind; [|intros; repeat keeps_step].
  apply keeps_insert_post. repeat split; simpl; try done.
  - destruct (truthy k); [apply split_comma_nonempty | done].
  - by eexists _, _, _.
Qed.

Lemma keeps_rewrite_and_post title cleaned source_url feed_url feed_title n :
  keeps R (rewrite_and_post E title cleaned source_url feed_url feed_title
             image_url n).
Proof.
  unfold rewrite_and_post, sleep.
  apply keeps_bind; [apply keeps_rewrite_article|]. intros d.
  apply keeps_bind; [|intros; repeat keeps_step].
  destruct (truthy_dict d); [|apply keeps_ret].
  apply keeps_bind; [apply keeps_post_to_blogger_draft | intros; apply keeps_ret].
Qed.

End Publisher.

Lemma keeps_entry_content e : keeps R (entry_content e).
Proof. unfold entry_content. repeat keeps_step. Qed.

(** What the image of an entry asks of the relation. *)
Local Abbreviation image_allowed :=
  (fun e : entry => has_image (extract_image e) = true -> inc_ok inc_images_included).

Section Bodies.

Hypothesis ok_posted : inc_ok inc_articles_posted.
Hypothesis ok_duplicates : inc_ok inc_duplicates_skipped.

Lemma keeps_strict_body feed_url feed_title min_word_count e n :
  image_allowed e ->
  ((0 < min_word_count)%Z -> inc_ok inc_articles_skipped_short) ->
  keeps R (strict_body E feed_url feed_title min_word_count e n).
Proof.
  intros Himg Hshort. unfold strict_body.
  apply keeps_bind; [apply keeps_entry_content|]. intros content.
  apply keeps_bind; [unfold strict_duplicate; repeat keeps_step|].
  intros [|]; [apply keeps_ret|]. cbv zeta.
  apply keeps_bind.
  { unfold short_check. cbv zeta.
    destruct (Z.of_nat _ <? min_word_count)%Z eqn:Hlt; [|apply keeps_ret].
    apply Z.ltb_lt in Hlt.
    assert (inc_ok inc_articles_skipped_short) by (apply Hshort; lia).
    repeat keeps_step. }
  intros [|]; [apply keeps_ret|].
  apply keeps_bind; [apply keeps_mark|]. intros _.
  by apply keeps_rewrite_and_post.
Qed.

Lemma keeps_relaxed_body feed_url feed_title e n :
  image_allowed e ->
  keeps R (relaxed_body E feed_url feed_title e n).
Proof.
  intros Himg. unfold relaxed_body.
  apply keeps_bind; [apply keeps_entry_content|]. intros content.
  apply keeps_bind; [unfold relaxed_duplicate; repeat keeps_step|].
  intros [|]; [apply keeps_ret|]. cbv zeta.
  apply keeps_bind; [apply keeps_mark|]. intros _.
  by apply keeps_rewrite_and_post.
Qed.

Lemma keeps_feed_loop (body : entry -> nat -> M nat) articles_to_fetch entries :
  Forall (fun e => forall n, keeps R (body e n)) entries ->
  forall n, keeps R (feed_loop body articles_to_fetch entries n).
Proof.
  induction 1 as [|e rest He Hrest IH]; intros n; simpl; [apply keeps_ret|].
  destruct (Z.of_nat n <? articles_to_fetch)%Z; [|apply keeps_ret].
  apply keeps_bind; [apply He | apply IH].
Qed.

(** [process_feed] from the world in which the feed has just been
    fetched. *)
Lemma keeps_after_fetch feed_url articles_to_fetch min_word_count w :
  inc_ok inc_feeds_processed ->
  ((0 < min_word_count)%Z -> inc_ok inc_articles_skipped_short) ->
  Forall image_allowed (f_entries (feedparser_parse E (trace w) feed_url)) ->
  R (push (EvFetch feed_url) w)
    (process_feed E feed_url articles_to_fetch min_word_count w).2.
Proof.
  intros Hfeeds Hshort Himg.
  unfold process_feed, fetch. unfold bind at 1. unfold bind at 1.
  unfold gets at 1. unfold bind at 1. unfold emit at 1, modify at 1.
  unfold ret at 1. cbv iota beta.
  set (feed := feedparser_parse E (trace w) feed_url) in *.
  set (feed_title := Py.replace_blank (default "Unknown_Feed" (f_title feed))).
  match goal with |- R ?w1 (?m ?w2).2 => change w2 with w1; generalize w1 end.
  change (keeps R
    (articles_processed <-
       feed_loop (strict_body E feed_url feed_title min_word_count)
         articles_to_fetch (f_entries feed) 0 ;;
     articles_processed <-
       (if (Z.of_nat articles_processed <? articles_to_fetch)%Z
           && negb (min_word_count =? -1)%Z
        then log_skipped_article "N/A" feed_url
               "Insufficient articles, retrying with min_word_count=-1" None ;;;
             feed_loop (relaxed_body E feed_url feed_title)
               articles_to_fetch (f_entries feed) articles_processed
        else ret articles_processed) ;;
     set_summary inc_feeds_processed ;;; ret articles_processed)%py).
  apply keeps_bind.
  { apply keeps_feed_loop. eapply Forall_impl; [exact Himg|].
    intros e He n. by apply keeps_strict_body. }
  intros n1. apply keeps_bind; [|intros; repeat keeps_step].
  destruct (_ && _); [|apply keeps_ret].
  apply keeps_bind; [apply keeps_log|]. intros _.
  apply keeps_feed_loop. eapply Forall_impl; [exact Himg|].
  intros e He n. by apply keeps_relaxed_body.
Qed.

End Bodies.

Lemma keeps_run_task {A} (m : M A) : keeps R m -> keeps R (run_task m).
Proof. intros Hm w. unfold run_task. specialize (Hm w). by destruct (m w). Qed.

Lemma keeps_executor_map {A B} (f : A -> M B) xs :
  (forall x, keeps R (f x)) -> keeps R (executor_map f xs).
Proof.
  intros Hf. induction xs as [|x rest IH]; simpl; [apply keeps_ret|].
  apply keeps_bind; [by apply keeps_run_task|]. intros r.
  apply keeps_bind; [exact IH | intros; apply keeps_ret].
Qed.

End Chain.

#[local] Instance summary_le_preorder : PreOrder summary_le.
Proof.
  split.
  - intros s. unfold summary_le. lia.
  - intros s1 s2 s3. unfold summary_le. lia.
Qed.

#[local] Instance grows_preorder : PreOrder grows.
Proof.
  split.
  - intros w. split; [done|]. split; [reflexivity|].
    exists []. by rewrite app_nil_r.
  - intros w1 w2 w3 (HP1 & Hs1 & more1 & Hl1) (HP2 & Hs2 & more2 & Hl2).
    split; [by etrans|]. split; [by etrans|].
    exists (more1 ++ more2). by rewrite Hl2, Hl1, <- List.app_assoc.
Qed.

#[local] Instance adds_preorder ok : PreOrder (adds ok).
Proof.
  split.
  - intros w. by exists [].
  - intros w1 w2 w3 (new1 & Ht1 & Hok1) (new2 & Ht2 & Hok2).
    exists (new2 ++ new1). split; [by rewrite Ht2, Ht1, List.app_assoc|].
    by apply Forall_app.
Qed.

#[local] Instance same_preorder {X} (f : world -> X) : PreOrder (same f).
Proof.
  split.
  - by intros w.
  - intros w1 w2 w3 H1 H2. unfold same in *. congruence.
Qed.

Lemma grows_process_feed E feed_url articles_to_fetch min_word_count :
  keeps grows (process_feed E feed_url articles_to_fetch min_word_count).
Proof.
  intros w. etrans; [|apply (keeps_after_fetch E grows (fun _ => True)
    (fun f => forall s, summary_le s (f s)))].
  - split; [done|]. split; [reflexivity|]. exists []. simpl. by rewrite app_nil_r.
  - intros ev w0 _. split; [done|]. split; [reflexivity|].
    exists []. simpl. by rewrite app_nil_r.
  - intros f w0 Hf. split; [done|]. split; [apply Hf|].
    exists []. simpl. by rewrite app_nil_r.
  - intros line w0. split; [done|]. split; [reflexivity|]. by exists [line].
  - intros id w0. split; [apply union_subseteq_r|]. split; [reflexivity|].
    exists []. simpl. by rewrite app_nil_r.
  - done.
  - done.
  - done.
  - done.
  - intros s. unfold summary_le. simpl. lia.
  - intros s. unfold summary_le. simpl. lia.
  - intros s. unfold summary_le. simpl. lia.
  - intros _ s. unfold summary_le. simpl. lia.
  - apply Forall_forall. intros e _ _ s. unfold summary_le. simpl. lia.
Qed.

Lemma keeps_main E R `{!PreOrder R} :
  (forall feed, keeps R (process_feed E feed ARTICLES_PER_FEED MIN_WORD_COUNT)) ->
  (forall s w, R w (push (EvSummary s) w)) ->
  keeps R (main E).
Proof.
  intros Hfeed Hsum. unfold main, generate_summary.
  apply (keeps_bind R); [by apply (keeps_executor_map R)|]. intros _.
  apply (keeps_bind R); [apply (keeps_gets R)|]. intros s w. apply Hsum.
Qed.

(** X3: neither a call of [process_feed] nor a whole run of [main] takes
    anything back: every identifier of PROCESSED_ARTICLES stays in it, no
    counter of SUMMARY goes down, and the skip log keeps its lines and
    gets new ones at its end only. *)
Theorem run_takes_nothing_back (E : env) (w : world) :
  (forall feed_url articles_to_fetch min_word_count,
     grows w (process_feed E feed_url articles_to_fetch min_word_count w).2) /\
  grows w (main E w).2.
Proof.
  split.
  - intros *. apply grows_process_feed.
  - apply (keeps_main E grows); [intros feed; apply grows_process_feed|].
    intros s w0. split; [done|]. split; [reflexivity|].
    exists []. simpl. by rewrite app_nil_r.
Qed.

Lemma adds_push ok ev w : ok ev -> adds ok w (push ev w).
Proof. intros Hev. exists [ev]. split; [done|]. by constructor. Qed.

Lemma adds_same_trace ok w w' : trace w' = trace w -> adds ok w w'.
Proof. intros Ht. exists []. split; [done|]. constructor. Qed.

Lemma adds_after_fetch E ok feed_url articles_to_fetch min_word_count w :
  (forall id prompt answer, ok (EvRewrite id prompt answer)) ->
  (forall b, ok (EvService b)) ->
  (forall n, ok (EvSleep n)) ->
  (forall body answer, good_body E body -> ok (EvInsert body answer)) ->
  adds ok (push (EvFetch feed_url) w)
    (process_feed E feed_url articles_to_fetch min_word_count w).2.
Proof.
  intros Hrewrite Hservice Hsleep Hinsert.
  apply (keeps_after_fetch E (adds ok) ok (fun _ => True)).
  - intros ev w0 Hev. by apply adds_push.
  - intros f w0 _. by apply adds_same_trace.
  - intros line w0. by apply adds_same_trace.
  - intros id w0. by apply adds_same_trace.
  - exact Hrewrite.
  - exact Hservice.
  - exact Hsleep.
  - exact Hinsert.
  - done.
  - done.
  - done.
  - done.
  - by apply Forall_forall.
Qed.

Lemma drafts_process_feed E feed_url articles_to_fetch min_word_count :
  keeps (adds (draft_for E))
    (process_feed E feed_url articles_to_fetch min_word_count).
Proof.
  intros w. etrans; [apply (adds_push _ (EvFetch feed_url)); exact I|].
  by apply adds_after_fetch.
Qed.

Lemma adds_elem ok w w' :
  adds ok w w' ->
  exists new, trace w' = new ++ trace w /\ forall ev, ev ∈ new -> ok ev.
Proof.
  intros (new & Ht & Hok). exists new. split; [done|].
  by apply Forall_forall.
Qed.

(** X4: whatever the services answer, every body that [process_feed] or
    [main] hands to posts.insert is a draft for the configured blog, with
    a title that is not empty, at least one label, and the source line at
    the end of its content. *)
Theorem only_drafts_are_submitted (E : env) (w : world) :
  (forall feed_url articles_to_fetch min_word_count,
     exists new,
       trace (process_feed E feed_url articles_to_fetch min_word_count w).2
       = new ++ trace w /\
       forall body answer, EvInsert body answer ∈ new -> good_body E body) /\
  (exists new,
     trace (main E w).2 = new ++ trace w /\
     forall body answer, EvInsert body answer ∈ new -> good_body E body).
Proof.
  split.
  - intros *.
    destruct (adds_elem _ _ _
      (drafts_process_feed E feed_url articles_to_fetch min_word_count w))
      as (new & Ht & Hok).
    exists new. split; [done|]. intros body answer Hin. exact (Hok _ Hin).
  - assert (adds (draft_for E) w (main E w).2) as H.
    { apply (keeps_main E (adds (draft_for E)));
        [intros feed; apply drafts_process_feed|].
      intros s w0. by apply adds_push. }
    destruct (adds_elem _ _ _ H) as (new & Ht & Hok).
    exists new. split; [done|]. intros body answer Hin. exact (Hok _ Hin).
Qed.

(** X5: a call of [process_feed] asks feedparser for the feed once, before
    anything else; the retry pass goes over the entries of that one
    answer. *)
Theorem feed_is_fetched_once (E : env) (feed_url : string)
    (articles_to_fetch min_word_count : Z) (w : world) :
  exists new,
    trace (process_feed E feed_url articles_to_fetch min_word_count w).2
    = new ++ EvFetch feed_url :: trace w /\
    forall url, EvFetch url ∉ new.
Proof.
  assert (adds not_fetch (push (EvFetch feed_url) w)
            (process_feed E feed_url articles_to_fetch min_word_count w).2) as H
    by (by apply adds_after_fetch).
  destruct (adds_elem _ _ _ H) as (new & Ht & Hok).
  exists new. split; [done|]. intros url Hin. exact (Hok _ Hin).
Qed.

(** X6: when no entry of the feed yields an image URL, a call of
    [process_feed] leaves images_included as it was, whatever is posted. *)
Theorem no_image_no_count (E : env) (feed_url : string)
    (articles_to_fetch min_word_count : Z) (w : world) :
  Forall (fun e => extract_image e = None)
         (f_entries (feedparser_parse E (trace w) feed_url)) ->
  images_included
    (SUMMARY (process_feed E feed_url articles_to_fetch min_word_count w).2)
  = images_included (SUMMARY w).
Proof.
  intros Hno.
  apply (keeps_after_fetch E (same (fun w => images_included (SUMMARY w)))
           (fun _ => True)
           (fun f => forall s, images_included (f s) = images_included s));
    try done.
  - intros f w0 Hf. apply Hf.
  - eapply Forall_impl; [exact Hno|]. intros e -> [=].
Qed.

Lemma no_image_no_count_witness :
  let E := Sample.services Feeds.pair (Some Sample.answer) (Some "post-1") in
  let w' := (process_feed E Feeds.url ARTICLES_PER_FEED MIN_WORD_COUNT world0).2 in
  images_included (SUMMARY w') = 0 /\ articles_posted (SUMMARY w') = 2.
Proof.
  intros E w'. split; [|vm_compute; reflexivity].
  apply (no_image_no_count E Feeds.url ARTICLES_PER_FEED MIN_WORD_COUNT world0).
  repeat constructor.
Defined.

(** X7: with a minimum word count of -1 the filter is off: a call of
    [process_feed] skips no entry as short, so articles_skipped_short
    stays as it was. *)
Theorem filter_off_skips_nothing (E : env) (feed_url : string)
    (articles_to_fetch : Z) (w : world) :
  articles_skipped_short
    (SUMMARY (process_feed E feed_url articles_to_fetch (-1) w).2)
  = articles_skipped_short (SUMMARY w).
Proof.
  apply (keeps_after_fetch E
           (same (fun w => articles_skipped_short (SUMMARY w)))
           (fun _ => True)
           (fun f => forall s, articles_skipped_short (f s)
                               = articles_skipped_short s));
    try done.
  - intros f w0 Hf. apply Hf.
  - by apply Forall_forall.
Qed.

(** ** The quota *)

Lemma rewrite_and_post_count E title cleaned source_url feed_url feed_title
    image_url n w n' w' :
  rewrite_and_post E title cleaned source_url feed_url feed_title image_url n w
  = (Ret n', w') ->
  n <= n' <= S n.
Proof.
  intros Hrun. apply rewrite_and_post_effect_holds in Hrun
    as (_ & _ & new & _ & Hids & _ & _ & Hn).
  pose proof (rewrites_ok_le_ids new) as Hle. rewrite Hids in Hle. simpl in Hle.
  rewrite (Hn n' eq_refl). lia.
Qed.

Lemma strict_body_count E feed_url feed_title min_word_count e n w n' w' :
  strict_body E feed_url feed_title min_word_count e n w = (Ret n', w') ->
  n <= n' <= S n.
Proof.
  unfold strict_body. unfold bind at 1.
  destruct (entry_content_cases e w) as [[content ->]|[-> _]]; [|done].
  unfold bind at 1. unfold strict_duplicate. unfold_monad. simpl.
  destruct (bool_decide (_ ∈ PROCESSED_ARTICLES w)); simpl.
  { intros [= <- <-]. lia. }
  unfold short_check. unfold_monad.
  destruct (Z.of_nat _ <? min_word_count)%Z; simpl.
  { intros [= <- <-]. lia. }
  apply rewrite_and_post_count.
Qed.

Lemma relaxed_body_count E feed_url feed_title e n w n' w' :
  relaxed_body E feed_url feed_title e n w = (Ret n', w') ->
  n <= n' <= S n.
Proof.
  unfold relaxed_body. unfold bind at 1.
  destruct (entry_content_cases e w) as [[content ->]|[-> _]]; [|done].
  unfold bind at 1. unfold relaxed_duplicate. unfold_monad. simpl.
  destruct (bool_decide (_ ∈ PROCESSED_ARTICLES w)); simpl.
  { intros [= <- <-]. lia. }
  apply rewrite_and_post_count.
Qed.

Lemma feed_loop_bound (body : entry -> nat -> M nat) articles_to_fetch :
  (forall e n w n' w', body e n w = (Ret n', w') -> n <= n' <= S n) ->
  forall entries n w n' w',
    feed_loop body articles_to_fetch entries n w = (Ret n', w') ->
    (Z.of_nat n <= Z.max 0 articles_to_fetch)%Z ->
    (Z.of_nat n' <= Z.max 0 articles_to_fetch)%Z.
Proof.
  intros Hbody entries. induction entries as [|e rest IH]; intros n w n' w'; simpl.
  - by intros [= <- <-].
  - destruct (Z.of_nat n <? articles_to_fetch)%Z eqn:Hlt; [|by intros [= <- <-]].
    apply Z.ltb_lt in Hlt. unfold bind.
    destruct (body e n w) as [[n1|ex] w1] eqn:Hb; [|done].
    intros Hrest _. apply (IH _ _ _ _ Hrest). apply Hbody in Hb. lia.
Qed.

Lemma process_feed_bound E feed_url articles_to_fetch min_word_count w n w' :
  process_feed E feed_url articles_to_fetch min_word_count w = (Ret n, w') ->
  (Z.of_nat n <= Z.max 0 articles_to_fetch)%Z.
Proof.
  unfold process_feed, fetch. unfold bind at 1. unfold bind at 1.
  unfold gets at 1. unfold bind at 1. unfold emit at 1, modify at 1.
  unfold ret at 1. cbv iota beta. unfold bind at 1.
  match goal with
  | |- context [feed_loop ?b ?q ?es 0 ?w0] =>
      destruct (feed_loop b q es 0 w0) as [[n1|ex] w1] eqn:H1; [|done]
  end.
  assert (Z.of_nat n1 <= Z.max 0 articles_to_fetch)%Z as Hn1.
  { eapply feed_loop_bound; [|exact H1|simpl; lia].
    intros *. apply strict_body_count. }
  destruct (_ && _).
  - unfold bind, log_skipped_article, modify. cbv iota beta.
    match goal with
    | |- context [feed_loop ?b ?q ?es n1 ?w0] =>
        destruct (feed_loop b q es n1 w0) as [[n2|ex] w2] eqn:H2; [|done]
    end.
    assert (Z.of_nat n2 <= Z.max 0 articles_to_fetch)%Z as Hn2.
    { eapply feed_loop_bound; [|exact H2|exact Hn1].
      intros *. apply relaxed_body_count. }
    unfold_monad. by intros [= <- _].
  - unfold_monad. by intros [= <- _].
Qed.

(** X8: a call of [process_feed] that returns has counted at most
    [articles_to_fetch] articles (none when the quota is negative), and
    articles_posted has grown by no more than that. *)
Theorem quota_bounds_the_feed (E : env) (feed_url : string)
    (articles_to_fetch min_word_count : Z) (w : world) (n : nat) (w' : world) :
  process_feed E feed_url articles_to_fetch min_word_count w = (Ret n, w') ->
  (Z.of_nat n <= Z.max 0 articles_to_fetch)%Z /\
  (Z.of_nat (articles_posted (SUMMARY w') - articles_posted (SUMMARY w))
   <= Z.max 0 articles_to_fetch)%Z.
Proof.
  intros Hrun. pose proof (process_feed_bound _ _ _ _ _ _ _ Hrun) as Hn.
  split; [done|].
  apply process_feed_effect in Hrun as (_ & new & _ & _ & _ & Ha & Hle & Hr).
  destruct (Hr n eq_refl) as [-> _]. lia.
Qed.

Lemma quota_bounds_the_feed_witness :
  let E := Sample.services Feeds.short_then_long (Some Sample.answer)
             (Some "post-1") in
  let rw := process_feed E Feeds.url 2 MIN_WORD_COUNT world0 in
  rw.1 = Ret 2 /\ articles_posted (SUMMARY rw.2) <= 2.
Proof.
  intros E rw.
  assert (process_feed E Feeds.url 2 MIN_WORD_COUNT world0 = (Ret 2, rw.2))
    as Hrun by (vm_compute; reflexivity).
  destruct (quota_bounds_the_feed E Feeds.url 2 MIN_WORD_COUNT world0 2 rw.2 Hrun)
    as [_ Hp].
  split; [vm_compute; reflexivity|]. simpl in Hp. lia.
Defined.

(** ** Edges of [process_feed] *)

Lemma feed_loop_quota_met (body : entry -> nat -> M nat) articles_to_fetch
    entries n w :
  (articles_to_fetch <= Z.of_nat n)%Z ->
  feed_loop body articles_to_fetch entries n w = (Ret n, w).
Proof.
  intros Hq. destruct entries as [|e rest]; simpl; [done|].
  by rewrite (proj2 (Z.ltb_ge _ _) Hq).
Qed.

(** X9: when feedparser returns no entry (the feed is empty or could not
    be read) [process_feed] calls neither the rewrite nor the publishing
    service, returns 0 and counts the feed as processed; it writes the
    retry line in the skip log when the quota is positive and the minimum
    word count is not -1. *)
Theorem empty_feed_is_processed (E : env) (feed_url : string)
    (articles_to_fetch min_word_count : Z) (w : world) :
  f_entries (feedparser_parse E (trace w) feed_url) = [] ->
  process_feed E feed_url articles_to_fetch min_word_count w
  = (Ret 0,
     World (PROCESSED_ARTICLES w) (inc_feeds_processed (SUMMARY w))
       (skipped_log w
          ++ (if (0 <? articles_to_fetch)%Z && negb (min_word_count =? -1)%Z
              then [SkipLine "N/A" feed_url
                      "Insufficient articles, retrying with min_word_count=-1"
                      None]
              else []))
       (EvFetch feed_url :: trace w)).
Proof.
  intros Hempty. unfold process_feed, fetch. unfold_monad. simpl.
  rewrite Hempty. simpl. change (Z.of_nat 0) with 0%Z.
  destruct ((0 <? articles_to_fetch)%Z && negb (min_word_count =? -1)%Z); simpl.
  - done.
  - by rewrite app_nil_r.
Qed.

Lemma empty_feed_is_processed_witness :
  let E := Sample.services (ParsedFeed None []) (Some Sample.answer)
             (Some "post-1") in
  (process_feed E Feeds.url ARTICLES_PER_FEED MIN_WORD_COUNT world0).1 = Ret 0.
Proof.
  intros E.
  by rewrite (empty_feed_is_processed E Feeds.url ARTICLES_PER_FEED
                MIN_WORD_COUNT world0 eq_refl).
Defined.

(** X10: with a quota of zero or less [process_feed] fetches the feed,
    looks at no entry, logs nothing, returns 0 and counts the feed as
    processed. *)
Theorem no_quota_no_work (E : env) (feed_url : string)
    (articles_to_fetch min_word_count : Z) (w : world) :
  (articles_to_fetch <= 0)%Z ->
  process_feed E feed_url articles_to_fetch min_word_count w
  = (Ret 0,
     World (PROCESSED_ARTICLES w) (inc_feeds_processed (SUMMARY w))
           (skipped_log w) (EvFetch feed_url :: trace w)).
Proof.
  intros Hq. unfold process_feed, fetch. unfold bind at 1. unfold bind at 1.
  unfold gets at 1. unfold bind at 1. unfold emit at 1, modify at 1.
  unfold ret at 1. cbv iota beta. unfold bind at 1.
  rewrite feed_loop_quota_met by (simpl; lia).
  assert ((Z.of_nat 0 <? articles_to_fetch)%Z = false) as ->
    by (apply Z.ltb_ge; simpl; lia).
  done.
Qed.

Lemma no_quota_no_work_witness :
  let E := Sample.services Feeds.pair (Some Sample.answer) (Some "post-1") in
  process_feed E Feeds.url 0 MIN_WORD_COUNT world0
  = (Ret 0, World ∅ (MkSummary 1 0 0 0 0) [] [EvFetch Feeds.url]).
Proof.
  intros E.
  by rewrite (no_quota_no_work E Feeds.url 0 MIN_WORD_COUNT world0) by lia.
Defined.

(** X11: when the first entry of the feed has no description and an empty
    content list, line 254 raises IndexError: [process_feed] raises it
    with nothing done but the fetch, no later entry is looked at and the
    feed is not counted as processed. *)
Theorem unreadable_entry_aborts_the_feed (E : env) (feed_url : string)
    (articles_to_fetch min_word_count : Z) (w : world) (e : entry)
    (rest : list entry) :
  f_entries (feedparser_parse E (trace w) feed_url) = e :: rest ->
  ~ content_readable e ->
  (0 < articles_to_fetch)%Z ->
  process_feed E feed_url articles_to_fetch min_word_count w
  = (Raise IndexError, push (EvFetch feed_url) w).
Proof.
  intros Hfeed Hbad Hq. unfold process_feed, fetch. unfold bind at 1.
  unfold bind at 1. unfold gets at 1. unfold bind at 1.
  unfold emit at 1, modify at 1. unfold ret at 1. cbv iota beta.
  rewrite Hfeed. unfold bind at 1. cbn [feed_loop].
  assert ((Z.of_nat 0 <? articles_to_fetch)%Z = true) as ->
    by (apply Z.ltb_lt; simpl; lia).
  unfold bind at 1. unfold strict_body. unfold bind at 1.
  match goal with
  | |- context [entry_content e ?w0] =>
      destruct (entry_content_cases e w0) as [[content Hc]|[-> _]]; [|done]
  end.
  exfalso. apply Hbad. unfold entry_content, content_readable in *.
  destruct (truthy (default EmptyString (e_description e))); [by left|].
  right. intros He. by rewrite He in Hc.
Qed.

Lemma unreadable_entry_aborts_the_feed_witness :
  let bad := Entry (Some "Storm") None (Some []) (Some "http://news/storm")
                   None None None in
  let E := Sample.services (ParsedFeed None [bad]) (Some Sample.answer)
             (Some "post-1") in
  process_feed E Feeds.url ARTICLES_PER_FEED MIN_WORD_COUNT world0
  = (Raise IndexError, push (EvFetch Feeds.url) world0).
Proof.
  intros bad E.
  apply (unreadable_entry_aborts_the_feed E Feeds.url ARTICLES_PER_FEED
           MIN_WORD_COUNT world0 bad []); [reflexivity | | reflexivity].
  intros [H|H]; [discriminate | by apply H].
Defined.

(** ** Exceptions that leave the worker *)

Section Raises.

Variable S : exn -> Prop.

Lemma raises_ret {A} (a : A) : raises_only S (ret a).
Proof. by intros w e w'. Qed.

Lemma raises_gets {A} (f : world -> A) : raises_only S (gets f).
Proof. by intros w e w'. Qed.

Lemma raises_modify f : raises_only S (modify f).
Proof. by intros w e w'. Qed.

Lemma raises_raise {A} e : S e -> raises_only S (@raise A e).
Proof. intros He w e' w'. by intros [= <- _]. Qed.

Lemma raises_bind {A B} (m : M A) (k : A -> M B) :
  raises_only S m -> (forall a, raises_only S (k a)) ->
  raises_only S (x <- m ;; k x)%py.
Proof.
  intros Hm Hk w e w'. unfold bind.
  destruct (m w) as [[a|e1] w1] eqn:Hmw.
  - apply Hk.
  - intros [= <- <-]. by eapply Hm.
Qed.

Lemma raises_try {A} (m : M A) (h : exn -> M A) :
  raises_only (fun e => is_Exception e = true \/ S e) m ->
  (forall e, raises_only S (h e)) ->
  raises_only S (try_except m h).
Proof.
  intros Hm Hh w e w'. unfold try_except.
  destruct (m w) as [[a|e1] w1] eqn:Hmw; [done|].
  destruct (is_Exception e1) eqn:He1.
  - apply Hh.
  - intros [= <- <-]. destruct (Hm _ _ _ Hmw) as [?|?]; [congruence | done].
Qed.

End Raises.

Ltac raises_step :=
  cbv beta zeta;
  first
    [ apply raises_ret | apply raises_gets | apply raises_modify
    | apply raises_raise; solve [auto]
    | apply raises_bind; [|intros ?]
    | match goal with
      | |- raises_only _ (if ?b then _ else _) => destruct b eqn:?
      | |- raises_only _ (match ?x with _ => _ end) => destruct x eqn:?
      end ].

Ltac raises_all :=
  unfold getitem, exit, sleep, emit, set_summary, log_skipped_article,
    mark_processed;
  repeat raises_step.

Lemma raises_get_blogger_service E S :
  S (SystemExit 1) -> raises_only S (get_blogger_service E).
Proof. intros HS. unfold get_blogger_service. raises_all. Qed.

Lemma raises_post_to_blogger_draft E ad feed_title image_url source_url :
  raises_only (fun e => e = SystemExit 1)
    (post_to_blogger_draft E ad feed_title image_url source_url).
Proof.
  unfold post_to_blogger_draft. apply raises_try; [|intros; apply raises_ret].
  unfold submit_draft, insert_post.
  assert (is_Exception ServiceError = true) by done.
  assert (forall k, is_Exception (KeyError k) = true) by done.
  raises_all.
Qed.

Lemma raises_rewrite_and_post E title cleaned source_url feed_url feed_title
    image_url n :
  raises_only (fun e => e = IndexError \/ e = SystemExit 1)
    (rewrite_and_post E title cleaned source_url feed_url feed_title
       image_url n).
Proof.
  unfold rewrite_and_post. apply raises_bind.
  { unfold rewrite_article, groq_chat.
    apply raises_try; [|intros; apply raises_ret].
    assert (is_Exception ServiceError = true) by done. raises_all. }
  intros d. apply raises_bind; [|intros; raises_all].
  destruct (truthy_dict d); [|apply raises_ret].
  apply raises_bind; [|intros; apply raises_ret].
  intros w e w' Hrun. right. by apply raises_post_to_blogger_draft in Hrun.
Qed.

Lemma raises_entry_content e :
  raises_only (fun e => e = IndexError \/ e = SystemExit 1) (entry_content e).
Proof. unfold entry_content. raises_all. Qed.

Lemma raises_strict_body E feed_url feed_title min_word_count e n :
  raises_only (fun e => e = IndexError \/ e = SystemExit 1)
    (strict_body E feed_url feed_title min_word_count e n).
Proof.
  unfold strict_body. apply raises_bind; [apply raises_entry_content|].
  intros content. apply raises_bind; [unfold strict_duplicate; raises_all|].
  intros [|]; [apply raises_ret|]. cbv zeta.
  apply raises_bind; [unfold short_check; raises_all|].
  intros [|]; [apply raises_ret|].
  apply raises_bind; [raises_all | intros; apply raises_rewrite_and_post].
Qed.

Lemma raises_relaxed_body E feed_url feed_title e n :
  raises_only (fun e => e = IndexError \/ e = SystemExit 1)
    (relaxed_body E feed_url feed_title e n).
Proof.
  unfold relaxed_body. apply raises_bind; [apply raises_entry_content|].
  intros content. apply raises_bind; [unfold relaxed_duplicate; raises_all|].
  intros [|]; [apply raises_ret|]. cbv zeta.
  apply raises_bind; [raises_all | intros; apply raises_rewrite_and_post].
Qed.

Lemma raises_feed_loop S (body : entry -> nat -> M nat) articles_to_fetch entries :
  (forall e n, raises_only S (body e n)) ->
  forall n, raises_only S (feed_loop body articles_to_fetch entries n).
Proof.
  intros Hbody. induction entries as [|e rest IH]; intros n; simpl.
  - apply raises_ret.
  - destruct (Z.of_nat n <? articles_to_fetch)%Z; [|apply raises_ret].
    apply raises_bind; [apply Hbody | apply IH].
Qed.

Lemma raises_process_feed E feed_url articles_to_fetch min_word_count :
  raises_only (fun e => e = IndexError \/ e = SystemExit 1)
    (process_feed E feed_url articles_to_fetch min_word_count).
Proof.
  unfold process_feed, fetch.
  apply raises_bind; [raises_all|]. intros feed. cbv zeta.
  apply raises_bind.
  { apply raises_feed_loop. intros. apply raises_strict_body. }
  intros n1. apply raises_bind; [|intros; raises_all].
  destruct (_ && _); [|apply raises_ret].
  apply raises_bind; [raises_all|]. intros _.
  apply raises_feed_loop. intros. apply raises_relaxed_body.
Qed.

Lemma process_feed_not_counted E feed_url articles_to_fetch min_word_count
    w e w' :
  process_feed E feed_url articles_to_fetch min_word_count w = (Raise e, w') ->
  feeds_processed (SUMMARY w') = feeds_processed (SUMMARY w).
Proof.
  unfold process_feed, fetch. unfold bind at 1. unfold bind at 1.
  unfold gets at 1. unfold bind at 1. unfold emit at 1, modify at 1.
  unfold ret at 1. cbv iota beta. unfold bind at 1.
  match goal with
  | |- context [feed_loop ?b ?q ?es 0 ?w0] =>
      destruct (feed_loop b q es 0 w0) as [[n1|ex] w1] eqn:H1
  end.
  2: { intros [= <- <-]. apply feed_loop_effect in H1 as (_ & Hf & _);
         [done | intros *; apply strict_body_effect]. }
  apply feed_loop_effect in H1 as (_ & Hf1 & _);
    [|intros *; apply strict_body_effect]. simpl in Hf1.
  destruct (_ && _).
  - unfold bind, log_skipped_article, modify. cbv iota beta.
    match goal with
    | |- context [feed_loop ?b ?q ?es n1 ?w0] =>
        destruct (feed_loop b q es n1 w0) as [[n2|ex] w2] eqn:H2
    end.
    + unfold_monad. done.
    + intros [= <- <-]. apply feed_loop_effect in H2 as (_ & Hf2 & _);
        [|intros *; apply relaxed_body_effect]. simpl in Hf2. congruence.
  - unfold_monad. done.
Qed.

(** X12: the only exceptions that leave [process_feed] are the IndexError
    of an entry without readable content and the SystemExit with status 1
    of [get_blogger_service]; a failure of the rewrite or of the
    publishing service never does.  When one leaves, the feed is not
    counted as processed. *)
Theorem exceptions_leaving_the_worker (E : env) (feed_url : string)
    (articles_to_fetch min_word_count : Z) (w : world) (e : exn) (w' : world) :
  process_feed E feed_url articles_to_fetch min_word_count w = (Raise e, w') ->
  (e = IndexError \/ e = SystemExit 1) /\
  feeds_processed (SUMMARY w') = feeds_processed (SUMMARY w).
Proof.
  intros Hrun. split.
  - by apply raises_process_feed in Hrun.
  - by apply process_feed_not_counted in Hrun.
Qed.

Lemma exceptions_leaving_the_worker_witness :
  let E := Env "1234567890" Sample.markdownify_text Sample.unescape_basic
             (fun _ _ => Feeds.single) (fun _ _ => Some Sample.answer)
             (fun _ => true) (fun _ => true) (fun _ => true) (fun _ => false)
             (fun _ _ => Some "post-1") in
  let rw := process_feed E Feeds.url ARTICLES_PER_FEED MIN_WORD_COUNT world0 in
  rw.1 = Raise (SystemExit 1) /\ feeds_processed (SUMMARY rw.2) = 0.
Proof.
  intros E rw.
  assert (process_feed E Feeds.url ARTICLES_PER_FEED MIN_WORD_COUNT world0
          = (Raise (SystemExit 1), rw.2)) as Hrun by (vm_compute; reflexivity).
  destruct (exceptions_leaving_the_worker E Feeds.url ARTICLES_PER_FEED
              MIN_WORD_COUNT world0 _ _ Hrun) as [_ Hf].
  split; [vm_compute; reflexivity | exact Hf].
Defined.

(** ** The Publisher, path by path *)

Lemma get_blogger_service_unavailable E w :
  build_service E (trace w) = false ->
  get_blogger_service E w = (Raise (SystemExit 1), push (EvService false) w).
Proof.
  intros Hb. unfold get_blogger_service. unfold_monad. simpl.
  destruct (stored_credentials E (trace w)); simpl; [by rewrite Hb|].
  destruct (client_secrets_flow E (trace w)); simpl; [|done].
  destruct (run_flow E (trace w)); simpl; [|done]. by rewrite Hb.
Qed.

(** X13: when the Blogger service cannot be built, the exit of
    [get_blogger_service] is not caught by [post_to_blogger_draft]: for a
    payload that passes the validation the call raises SystemExit with
    status 1, nothing is submitted, and the image, if there is one, has
    been counted already. *)
Theorem auth_failure_leaves_the_publisher (E : env) (ad : gmap string string)
    (title content feed_title : string) (image_url : option string)
    (source_url : string) (w : world) :
  ad !! "title" = Some title -> title <> EmptyString ->
  ad !! "content" = Some content -> content <> EmptyString ->
  build_service E (trace w) = false ->
  post_to_blogger_draft E ad feed_title image_url source_url w
  = (Raise (SystemExit 1),
     World (PROCESSED_ARTICLES w)
           (if has_image image_url then inc_images_included (SUMMARY w)
            else SUMMARY w)
           (skipped_log w) (EvService false :: trace w)).
Proof.
  intros Ht Hte Hc Hce Hb.
  assert (bool_decide (ad = ∅) = false) as Hne.
  { apply bool_decide_eq_false. intros ->. by rewrite lookup_empty in Ht. }
  assert (missing_or_empty ad "title" = false) as Hmt
    by (apply missing_or_empty_false; eauto).
  assert (missing_or_empty ad "content" = false) as Hmc
    by (apply missing_or_empty_false; eauto).
  unfold post_to_blogger_draft, try_except. rewrite Hne, Hmt, Hmc.
  unfold submit_draft. unfold_monad. rewrite Ht, Hc. simpl.
  destruct (has_image image_url); simpl;
    by rewrite get_blogger_service_unavailable.
Qed.

Lemma auth_failure_leaves_the_publisher_witness :
  let E := Env "1234567890" Sample.markdownify_text Sample.unescape_basic
             (fun _ _ => Feeds.single) (fun _ _ => Some Sample.answer)
             (fun _ => true) (fun _ => true) (fun _ => true) (fun _ => false)
             (fun _ _ => Some "post-1") in
  let ad : gmap string string :=
    <["title" := "A title"]> (<["content" := "A body"]>
      (<["keywords" := "news"]> ∅)) in
  post_to_blogger_draft E ad "Feed" (Some "http://img/a.png") "http://src" world0
  = (Raise (SystemExit 1),
     World ∅ (MkSummary 0 0 0 1 0) [] [EvService false]).
Proof.
  intros E ad.
  by rewrite (auth_failure_leaves_the_publisher E ad "A title" "A body" "Feed"
               (Some "http://img/a.png") "http://src" world0).
Defined.

Section Labels.

Local Arguments String.append : simpl nomatch.

Lemma join_cons_nonempty sep w rest :
  rest <> [] -> join sep (w :: rest) = w +:+ sep +:+ join sep rest.
Proof. by destruct rest. Qed.

Lemma join_split_comma cur s :
  join ", " (Py.split_comma cur s) = cur +:+ s.
Proof.
  revert cur.
  assert (forall n s, String.length s <= n -> forall cur,
            join ", " (Py.split_comma cur s) = cur +:+ s) as H.
  { clear s. induction n as [|n IH]; intros s Hn cur.
    - destruct s; [|simpl in Hn; lia]. simpl. by rewrite str_app_nil_r.
    - destruct s as [|c r]; [simpl; by rewrite str_app_nil_r|].
      cbn [Py.split_comma].
      destruct (Py.startswith ", " (String c r)) eqn:Hs.
      + apply startswith_spec in Hs as [post Hs]. simpl in Hs.
        injection Hs as -> ->.
        change (Py.drop 1 (String " " post)) with post.
        rewrite join_cons_nonempty by apply split_comma_nonempty.
        rewrite IH by (simpl in Hn; lia). reflexivity.
      + rewrite IH by (simpl in Hn; lia).
        rewrite str_app_assoc. reflexivity. }
  intros cur. by apply (H (String.length s)).
Qed.

End Labels.

(** X14: when the payload passes the validation, the Blogger service is
    built and posts.insert returns a post, [post_to_blogger_draft]
    returns the id of that post and counts one more article posted; the
    body it submitted is a draft for the configured blog under the
    rewritten title, its content is the image element (when there is an
    image), the rewritten content and the source line, and its labels are
    the keywords cut at every comma followed by a blank, so that joining
    them gives the keywords back, or the one label News when there are
    no keywords. *)
Theorem accepted_draft (E : env) (ad : gmap string string)
    (title content keywords feed_title : string) (image_url : option string)
    (source_url post_id : string) (w : world) :
  ad !! "title" = Some title -> title <> EmptyString ->
  ad !! "content" = Some content -> content <> EmptyString ->
  ad !! "keywords" = Some keywords ->
  (stored_credentials E (trace w) = true \/
   (client_secrets_flow E (trace w) = true /\ run_flow E (trace w) = true)) ->
  build_service E (trace w) = true ->
  let labels :=
    if truthy keywords then Py.split_comma EmptyString keywords else ["News"] in
  let body :=
    PostBody (BLOGGER_BLOG_ID E) title
      ((if has_image image_url
        then image_html (default EmptyString image_url) title content
        else content) +:+ attribution_html source_url feed_title)
      labels true in
  posts_insert E (EvService true :: trace w) body = Some post_id ->
  post_to_blogger_draft E ad feed_title image_url source_url w
  = (Ret (Some post_id),
     World (PROCESSED_ARTICLES w)
       (inc_articles_posted
          (if has_image image_url then inc_images_included (SUMMARY w)
           else SUMMARY w))
       (skipped_log w)
       (EvInsert body (Some post_id) :: EvService true :: trace w)) /\
  (keywords <> EmptyString -> join ", " labels = keywords) /\
  (keywords = EmptyString -> labels = ["News"]).
Proof.
  intros Ht Hte Hc Hce Hk Hcred Hbuild labels body Hinsert.
  split; [|split].
  - assert (bool_decide (ad = ∅) = false) as Hne.
    { apply bool_decide_eq_false. intros ->. by rewrite lookup_empty in Ht. }
    assert (missing_or_empty ad "title" = false) as Hmt
      by (apply missing_or_empty_false; eauto).
    assert (missing_or_empty ad "content" = false) as Hmc
      by (apply missing_or_empty_false; eauto).
    unfold post_to_blogger_draft, try_except. rewrite Hne, Hmt, Hmc.
    unfold submit_draft, insert_post. unfold_monad. rewrite Ht, Hc, Hk.
    subst body labels. revert Hinsert.
    destruct (has_image image_url); simpl; intros Hinsert;
      rewrite get_blogger_service_available by done; simpl;
      by rewrite Hinsert.
  - intros Hne. subst labels. destruct keywords; [done|]. simpl truthy. cbv iota.
    apply join_split_comma.
  - by intros ->.
Qed.

Lemma accepted_draft_witness :
  let E := Sample.services Feeds.single (Some Sample.answer) (Some "post-1") in
  let ad : gmap string string :=
    <["title" := "A title"]> (<["content" := "A body"]>
      (<["keywords" := "news, world"]> ∅)) in
  (post_to_blogger_draft E ad "Feed" None "http://src" world0).1
  = Ret (Some "post-1") /\
  join ", " (Py.split_comma EmptyString "news, world") = "news, world".
Proof.
  intros E ad.
  destruct (accepted_draft E ad "A title" "A body" "news, world" "Feed" None
              "http://src" "post-1" world0) as (Hrun & Hjoin & _);
    try reflexivity; try discriminate; try (left; reflexivity).
  split; [by rewrite Hrun | by apply Hjoin].
Defined.

(** ** An answer in the requested format *)

Section Answer.
Import Py.
Local Arguments String.append : simpl nomatch.

Lemma startswith_line pat a b :
  has_nl pat = false -> startswith pat (a +:+ nl +:+ b) = startswith pat a.
Proof.
  revert a; induction pat as [|p ps IH]; intros a Hp; [by destruct a|].
  simpl in Hp. apply orb_false_iff in Hp as [Hp Hps].
  destruct a as [|c r]; simpl.
  - by rewrite Hp.
  - destruct (Ascii.eqb p c); [by apply IH | done].
Qed.

Lemma after_first_line pat a b :
  has_nl pat = false -> after_first pat a = None ->
  after_first pat (a +:+ nl +:+ b) = after_first pat b.
Proof.
  intros Hp. induction a as [|c r IH]; intros Ha.
  - destruct pat as [|p ps]; [done|].
    simpl in Hp. apply orb_false_iff in Hp as [Hp _].
    simpl. by rewrite Hp.
  - cbn [after_first] in Ha.
    destruct (startswith pat (String c r)) eqn:Hs; [done|].
    change (String c r +:+ nl +:+ b) with (String c (r +:+ nl +:+ b)).
    cbn [after_first].
    change (String c (r +:+ nl +:+ b)) with (String c r +:+ nl +:+ b) at 1.
    rewrite startswith_line, Hs by done. by apply IH.
Qed.

Lemma line_head_line a b :
  has_nl a = false -> line_head (a +:+ nl +:+ b) = Some a.
Proof.
  induction a as [|c r IH]; simpl in *; [done|].
  intros H. apply orb_false_iff in H as [-> Hr]. by rewrite IH.
Qed.

Lemma plain_field_spec labels x :
  plain_field labels x = true ->
  has_nl x = false /\ forall l, l ∈ labels -> after_first l x = None.
Proof.
  unfold plain_field. intros [Hn Hl]%andb_true_iff.
  split; [by apply negb_true_iff|].
  intros l Hin. rewrite forallb_forall in Hl.
  apply list_elem_of_In, Hl in Hin. by apply bool_decide_eq_true in Hin.
Qed.

End Answer.

(** X15: when the rewrite service answers in the format the prompt asks
    for, with a new title, a meta description and keywords of one line
    each and no label of a later field inside an earlier one,
    [rewrite_article] returns exactly these fields, the content with
    the white space at its ends removed. *)
Theorem formatted_answer_is_parsed (E : env)
    (title content source_url feed_url : string)
    (new_title meta keywords body : string) (w : world) :
  plain_field ["Meta Description: "; "Keywords: "; "Content: "] new_title = true ->
  plain_field ["Keywords: "; "Content: "] meta = true ->
  plain_field ["Content: "] keywords = true ->
  groq_create E (trace w) (build_prompt title content source_url feed_url)
    = Some (formatted_answer new_title meta keywords body) ->
  (rewrite_article E title content source_url feed_url w).1
  = Ret (Some (<["title" := new_title]>
              (<["meta_description" := meta]>
              (<["keywords" := keywords]>
              (<["content" := Py.strip body]> ∅))))).
Proof.
  intros [Ht Hlt]%plain_field_spec [Hm Hlm]%plain_field_spec
    [Hk Hlk]%plain_field_spec Hanswer.
  rewrite (rewrite_article_answered _ _ _ _ _ _ _ Hanswer). cbn [fst].
  do 2 f_equal. unfold parse_rewrite, Py.search_line, Py.search_rest.
  assert (Py.after_first "Title: " (formatted_answer new_title meta keywords body)
          = Some (new_title +:+ Py.nl +:+ "Meta Description: " +:+ meta +:+ Py.nl
                  +:+ "Keywords: " +:+ keywords +:+ Py.nl
                  +:+ "Content: " +:+ body)) as -> by reflexivity.
  assert (Py.after_first "Meta Description: "
            (formatted_answer new_title meta keywords body)
          = Some (meta +:+ Py.nl +:+ "Keywords: " +:+ keywords +:+ Py.nl
                  +:+ "Content: " +:+ body)) as ->.
  { transitivity (Py.after_first "Meta Description: "
                    (new_title +:+ Py.nl +:+ "Meta Description: " +:+ meta
                     +:+ Py.nl +:+ "Keywords: " +:+ keywords +:+ Py.nl
                     +:+ "Content: " +:+ body)); [reflexivity|].
    rewrite after_first_line; [reflexivity | reflexivity |].
    apply Hlt. set_solver. }
  assert (Py.after_first "Keywords: "
            (formatted_answer new_title meta keywords body)
          = Some (keywords +:+ Py.nl +:+ "Content: " +:+ body)) as ->.
  { transitivity (Py.after_first "Keywords: "
                    (new_title +:+ Py.nl +:+ "Meta Description: " +:+ meta
                     +:+ Py.nl +:+ "Keywords: " +:+ keywords +:+ Py.nl
                     +:+ "Content: " +:+ body)); [reflexivity|].
    rewrite after_first_line; [| reflexivity | apply Hlt; set_solver].
    transitivity (Py.after_first "Keywords: "
                    (meta +:+ Py.nl +:+ "Keywords: " +:+ keywords +:+ Py.nl
                     +:+ "Content: " +:+ body)); [reflexivity|].
    rewrite after_first_line; [reflexivity | reflexivity |].
    apply Hlm. set_solver. }
  assert (Py.after_first "Content: "
            (formatted_answer new_title meta keywords body)
          = Some body) as ->.
  { transitivity (Py.after_first "Content: "
                    (new_title +:+ Py.nl +:+ "Meta Description: " +:+ meta
                     +:+ Py.nl +:+ "Keywords: " +:+ keywords +:+ Py.nl
                     +:+ "Content: " +:+ body)); [reflexivity|].
    rewrite after_first_line; [| reflexivity | apply Hlt; set_solver].
    transitivity (Py.after_first "Content: "
                    (meta +:+ Py.nl +:+ "Keywords: " +:+ keywords +:+ Py.nl
                     +:+ "Content: " +:+ body)); [reflexivity|].
    rewrite after_first_line; [| reflexivity | apply Hlm; set_solver].
    transitivity (Py.after_first "Content: "
                    (keywords +:+ Py.nl +:+ "Content: " +:+ body));
      [reflexivity|].
    rewrite after_first_line; [reflexivity | reflexivity |].
    apply Hlk. set_solver. }
  by rewrite !line_head_line.
Qed.

Lemma formatted_answer_is_parsed_witness :
  let text := formatted_answer "New title" "A summary" "news, world"
                               " The body. " in
  let E := Sample.services Feeds.single (Some text) (Some "post-1") in
  (rewrite_article E "Old title" "Old body" "http://src" Feeds.url world0).1
  = Ret (Some (<["title" := "New title"]>
              (<["meta_description" := "A summary"]>
              (<["keywords" := "news, world"]>
              (<["content" := "The body."]> ∅))))).
Proof.
  intros text E.
  apply (formatted_answer_is_parsed E "Old title" "Old body" "http://src"
           Feeds.url "New title" "A summary" "news, world" " The body. " world0);
    vm_compute; reflexivity.
Defined.

(** ** The skip counters and the skip log *)

Lemma reason_count_app reason l1 l2 :
  reason_count reason (l1 ++ l2) = reason_count reason l1 + reason_count reason l2.
Proof. unfold reason_count. by rewrite List.filter_app, length_app. Qed.

#[local] Instance tally_preorder : PreOrder tally.
Proof.
  split.
  - intros w. exists []. rewrite app_nil_r. unfold reason_count. simpl.
    split; [done|]. lia.
  - intros w1 w2 w3 (m1 & Hl1 & Hd1 & Hs1) (m2 & Hl2 & Hd2 & Hs2).
    exists (m1 ++ m2). rewrite !reason_count_app.
    split; [by rewrite Hl2, Hl1, <- List.app_assoc|]. lia.
Qed.

Lemma tally_same w w' :
  skipped_log w' = skipped_log w ->
  duplicates_skipped (SUMMARY w') = duplicates_skipped (SUMMARY w) ->
  articles_skipped_short (SUMMARY w') = articles_skipped_short (SUMMARY w) ->
  tally w w'.
Proof.
  intros Hl Hd Hs. exists []. rewrite app_nil_r. unfold reason_count. simpl.
  split; [done|]. lia.
Qed.

Lemma tally_other_line w line :
  String.eqb (sk_reason line) "Duplicate article" = false ->
  String.eqb (sk_reason line) "Below word count" = false ->
  tally w (World (PROCESSED_ARTICLES w) (SUMMARY w) (skipped_log w ++ [line])
                 (trace w)).
Proof.
  intros H1 H2. exists [line]. unfold reason_count. simpl. rewrite H1, H2. simpl.
  split; [done|]. lia.
Qed.

Lemma tally_strict_duplicate title feed_url id :
  keeps tally (strict_duplicate title feed_url id).
Proof.
  intros w. unfold strict_duplicate. unfold_monad.
  destruct (bool_decide _); simpl; [|reflexivity].
  eexists [_]. split; [done|]. unfold reason_count. simpl. lia.
Qed.

Lemma tally_short_check title feed_url cleaned min_word_count :
  keeps tally (short_check title feed_url cleaned min_word_count).
Proof.
  intros w. unfold short_check. cbv zeta.
  destruct (_ <? _)%Z; unfold_monad; simpl; [|reflexivity].
  eexists [_]. split; [done|]. unfold reason_count. simpl. lia.
Qed.

Lemma tally_rewrite_and_post E title cleaned source_url feed_url feed_title
    image_url n :
  keeps tally (rewrite_and_post E title cleaned source_url feed_url feed_title
                 image_url n).
Proof.
  apply (keeps_rewrite_and_post E tally (fun _ => True)
           (fun f => forall s,
              duplicates_skipped (f s) = duplicates_skipped s /\
              articles_skipped_short (f s) = articles_skipped_short s)).
  - intros ev w _. by apply tally_same.
  - intros f w Hf. apply tally_same; [done | apply Hf | apply Hf].
  - done.
  - done.
  - done.
  - done.
  - done.
  - done.
Qed.

Lemma tally_strict_body E feed_url feed_title min_word_count e n :
  keeps tally (strict_body E feed_url feed_title min_word_count e n).
Proof.
  unfold strict_body.
  apply (keeps_bind tally); [apply (keeps_entry_content tally)|]. intros content.
  apply (keeps_bind tally); [apply tally_strict_duplicate|].
  intros [|]; [apply (keeps_ret tally)|]. cbv zeta.
  apply (keeps_bind tally); [apply tally_short_check|].
  intros [|]; [apply (keeps_ret tally)|].
  apply (keeps_bind tally); [|intros _; apply tally_rewrite_and_post].
  intros w. by apply tally_same.
Qed.

Lemma tally_relaxed_body E feed_url feed_title e n :
  keeps tally (relaxed_body E feed_url feed_title e n).
Proof.
  unfold relaxed_body.
  apply (keeps_bind tally); [apply (keeps_entry_content tally)|]. intros content.
  apply (keeps_bind tally); [apply (keeps_gets tally)|].
  intros [|]; [apply (keeps_ret tally)|]. cbv zeta.
  apply (keeps_bind tally); [|intros _; apply tally_rewrite_and_post].
  intros w. by apply tally_same.
Qed.

Lemma tally_process_feed E feed_url articles_to_fetch min_word_count :
  keeps tally (process_feed E feed_url articles_to_fetch min_word_count).
Proof.
  unfold process_feed, fetch.
  apply (keeps_bind tally).
  { apply (keeps_bind tally); [apply (keeps_gets tally)|]. intros feed.
    apply (keeps_bind tally); [|intros _; apply (keeps_ret tally)].
    intros w. by apply tally_same. }
  intros feed. cbv zeta.
  apply (keeps_bind tally).
  { apply (keeps_feed_loop tally). apply Forall_forall.
    intros e _ n. apply tally_strict_body. }
  intros n1. apply (keeps_bind tally).
  - destruct (_ && _); [|apply (keeps_ret tally)].
    apply (keeps_bind tally).
    + intros w. by apply tally_other_line.
    + intros _. apply (keeps_feed_loop tally). apply Forall_forall.
      intros e _ n. apply tally_relaxed_body.
  - intros n2. apply (keeps_bind tally); [|intros _; apply (keeps_ret tally)].
    intros w. by apply tally_same.
Qed.

(** X16: the skip counters agree with the skip log.  Over a call of
    [process_feed], however it ends, and over a whole run of [main], the
    log gets new lines at its end only, [duplicates_skipped] goes up by
    the number of new lines with the reason of a duplicate and
    [articles_skipped_short] by the number of new lines with the reason
    of a short article; the line that announces the retry moves
    neither. *)
Theorem skip_counters_match_the_log (E : env) (w : world) :
  (forall feed_url articles_to_fetch min_word_count,
     tally w (process_feed E feed_url articles_to_fetch min_word_count w).2) /\
  tally w (main E w).2.
Proof.
  split.
  - intros *. apply tally_process_feed.
  - apply (keeps_main E tally); [intros feed; apply tally_process_feed|].
    intros s w0. by apply tally_same.
Qed.

(** ** The feeds of a run *)

Lemma fetched_app tr1 tr2 : fetched (tr1 ++ tr2) = fetched tr1 ++ fetched tr2.
Proof. apply omap_app. Qed.

Lemma fetched_none tr : Forall not_fetch tr -> fetched tr = [].
Proof.
  induction 1 as [|ev tr Hev _ IH]; [done|].
  unfold fetched in *. by destruct ev.
Qed.

Lemma process_feed_fetched E feed_url articles_to_fetch min_word_count w :
  exists new,
    trace (process_feed E feed_url articles_to_fetch min_word_count w).2
    = new ++ trace w /\
    fetched new = [feed_url].
Proof.
  assert (adds not_fetch (push (EvFetch feed_url) w)
            (process_feed E feed_url articles_to_fetch min_word_count w).2)
    as (new & Ht & Hok) by (by apply adds_after_fetch).
  exists (new ++ [EvFetch feed_url]). split.
  - by rewrite Ht, <- List.app_assoc.
  - by rewrite fetched_app, fetched_none.
Qed.

Lemma executor_map_fetched E articles_to_fetch min_word_count feeds w :
  exists new,
    trace (executor_map
             (fun feed => process_feed E feed articles_to_fetch min_word_count)
             feeds w).2
    = new ++ trace w /\
    fetched new = rev feeds.
Proof.
  revert w; induction feeds as [|feed rest IH]; intros w; [by exists []|].
  cbn [executor_map]. unfold bind at 1, run_task.
  destruct (process_feed_fetched E feed articles_to_fetch min_word_count w)
    as (new1 & Ht1 & Hf1).
  destruct (process_feed E feed articles_to_fetch min_word_count w)
    as [r w1]; simpl in Ht1.
  destruct (IH w1) as (new2 & Ht2 & Hf2).
  unfold bind.
  destruct (executor_map _ rest w1) as [[rs|e] w2]; simpl in Ht2 |- *;
    exists (new2 ++ new1);
    (split; [by rewrite Ht2, Ht1, List.app_assoc
            | by rewrite fetched_app, Hf1, Hf2]).
Qed.

(** X17: a run of [main] asks feedparser for every feed of RSS_FEEDS, each
    exactly once, whatever happens to the workers of the other feeds: no
    failure in one feed keeps another from being fetched, and no retry
    fetches a feed again. *)
Theorem every_feed_is_fetched_once (E : env) (w : world) :
  exists new,
    trace (main E w).2 = new ++ trace w /\
    fetched new ≡ₚ RSS_FEEDS.
Proof.
  destruct (executor_map_fetched E ARTICLES_PER_FEED MIN_WORD_COUNT RSS_FEEDS w)
    as (new & Ht & Hf).
  unfold main. unfold bind at 1.
  destruct (executor_map _ RSS_FEEDS w) as [[rs|e] w1] eqn:Hrun; simpl in Ht.
  - unfold generate_summary. unfold_monad.
    exists (EvSummary (SUMMARY w1) :: new). split; [by rewrite Ht|].
    change (fetched (EvSummary (SUMMARY w1) :: new)) with (fetched new).
    rewrite Hf. symmetry. apply Permutation_rev.
  - destruct (executor_map_returns
                (fun feed => process_feed E feed ARTICLES_PER_FEED MIN_WORD_COUNT)
                RSS_FEEDS w) as (rs & w2 & Hret).
    congruence.
Qed.

(** * The tracker, the retry and the pool *)

(** ** The turns of the two loops, case by case *)

Lemma content_readable_dec e : content_readable e \/ ~ content_readable e.
Proof.
  unfold content_readable.
  destruct (truthy (default EmptyString (e_description e))); [by left; left|].
  destruct (e_content e) as [[|c cs]|].
  - right. by intros [?|?].
  - left. by right.
  - left. by right.
Qed.

Lemma entry_content_unreadable e w :
  ~ content_readable e -> entry_content e w = (Raise IndexError, w).
Proof.
  intros Hn. destruct (entry_content_cases e w) as [[content Hc]|[Hc _]]; [|done].
  destruct (content_readable_dec e) as [Hr|Hr]; [done|].
  unfold entry_content, content_readable in *.
  destruct (truthy (default EmptyString (e_description e))); [destruct Hn; by left|].
  destruct (e_content e) as [[|c cs]|]; [done | |]; destruct Hn; by right.
Qed.

Lemma strict_body_long E feed_url feed_title min_word_count e n w :
  content_readable e ->
  entry_id e ∉ PROCESSED_ARTICLES w ->
  ~ (Z.of_nat (word_count (clean_text E (entry_text e))) < min_word_count)%Z ->
  strict_body E feed_url feed_title min_word_count e n w
  = mark_and_rewrite E feed_url feed_title e n w.
Proof.
  intros Hr Hnew Hlong. unfold strict_body, mark_and_rewrite. unfold bind at 1.
  rewrite entry_content_readable by done. unfold entry_id in *.
  unfold strict_duplicate, short_check. unfold bind at 1. unfold bind at 1.
  unfold gets at 1. cbv beta iota zeta.
  rewrite (bool_decide_eq_false_2 _ Hnew). cbv beta iota zeta.
  unfold ret at 1. cbv beta iota zeta. unfold bind at 1.
  apply Z.ltb_nlt in Hlong. rewrite Hlong. by unfold ret at 1.
Qed.

Lemma strict_body_turn E feed_url feed_title min_word_count e n w :
  strict_body E feed_url feed_title min_word_count e n w
    = (Raise IndexError, w) \/
  strict_body E feed_url feed_title min_word_count e n w
    = (Ret n, skipped_duplicate feed_url e w) \/
  strict_body E feed_url feed_title min_word_count e n w
    = (Ret n, skipped_short E feed_url e w) \/
  strict_body E feed_url feed_title min_word_count e n w
    = mark_and_rewrite E feed_url feed_title e n w.
Proof.
  destruct (content_readable_dec e) as [Hr|Hr].
  2: { left. unfold strict_body. unfold bind at 1.
       by rewrite entry_content_unreadable. }
  destruct (decide (entry_id e ∈ PROCESSED_ARTICLES w)) as [Hin|Hin].
  { right; left. by apply strict_body_duplicate. }
  destruct (Z_lt_dec (Z.of_nat (word_count (clean_text E (entry_text e))))
              min_word_count) as [Hs|Hs].
  - right; right; left. by apply strict_body_short.
  - right; right; right. by apply strict_body_long.
Qed.

Lemma relaxed_body_turn E feed_url feed_title e n w :
  relaxed_body E feed_url feed_title e n w = (Raise IndexError, w) \/
  (entry_id e ∈ PROCESSED_ARTICLES w /\
   relaxed_body E feed_url feed_title e n w = (Ret n, w)) \/
  relaxed_body E feed_url feed_title e n w
    = mark_and_rewrite E feed_url feed_title e n w.
Proof.
  destruct (content_readable_dec e) as [Hr|Hr].
  2: { left. unfold relaxed_body. unfold bind at 1.
       by rewrite entry_content_unreadable. }
  destruct (decide (entry_id e ∈ PROCESSED_ARTICLES w)) as [Hin|Hin].
  - right; left. split; [done|]. unfold relaxed_body. unfold bind at 1.
    rewrite entry_content_readable by done. unfold entry_id in *.
    unfold relaxed_duplicate. unfold bind at 1. unfold gets at 1.
    cbv beta iota zeta. by rewrite (bool_decide_eq_true_2 _ Hin).
  - right; right. by apply relaxed_body_unmarked.
Qed.

Lemma feed_loop_app (body : entry -> nat -> M nat) articles_to_fetch rest :
  forall pre n w k wk,
    feed_loop body articles_to_fetch pre n w = (Ret k, wk) ->
    feed_loop body articles_to_fetch (pre ++ rest) n w
    = feed_loop body articles_to_fetch rest k wk.
Proof.
  induction pre as [|e pre IH]; intros n w k wk; simpl.
  - by intros [= <- <-].
  - destruct (Z.of_nat n <? articles_to_fetch)%Z eqn:Hlt.
    + unfold bind. destruct (body e n w) as [[n1|ex] w1]; [apply IH | done].
    + intros [= <- <-]. symmetry. apply feed_loop_quota_met.
      by apply Z.ltb_ge.
Qed.

Lemma process_feed_passes E feed_url articles_to_fetch min_word_count w :
  let feed := feedparser_parse E (trace w) feed_url in
  let feed_title := Py.replace_blank (default "Unknown_Feed" (f_title feed)) in
  process_feed E feed_url articles_to_fetch min_word_count w
  = (n1 <- feed_loop (strict_body E feed_url feed_title min_word_count)
             articles_to_fetch (f_entries feed) 0 ;;
     retry_and_count E feed_url feed_title articles_to_fetch min_word_count
       (f_entries feed) n1)%py (push (EvFetch feed_url) w).
Proof. reflexivity. Qed.

(** ** What the rest of a run keeps *)

Section Turns.

Variable E : env.
Variables feed_url feed_title : string.
Variables articles_to_fetch min_word_count : Z.
Variable entries : list entry.
Variable R : world -> world -> Prop.
Context `{!PreOrder R}.

Hypothesis R_duplicate : forall e w, R w (skipped_duplicate feed_url e w).
Hypothesis R_short : forall e w, R w (skipped_short E feed_url e w).
Hypothesis R_rewrite :
  forall e n, e ∈ entries -> keeps R (mark_and_rewrite E feed_url feed_title e n).
Hypothesis R_retry :
  forall w,
    R w (World (PROCESSED_ARTICLES w) (SUMMARY w)
           (skipped_log w
              ++ [SkipLine "N/A" feed_url
                    "Insufficient articles, retrying with min_word_count=-1" None])
           (trace w)).
Hypothesis R_counted :
  forall w,
    R w (World (PROCESSED_ARTICLES w) (inc_feeds_processed (SUMMARY w))
           (skipped_log w) (trace w)).

Lemma turn_strict_body e n :
  e ∈ entries ->
  keeps R (strict_body E feed_url feed_title min_word_count e n).
Proof.
  intros He w.
  destruct (strict_body_turn E feed_url feed_title min_word_count e n w)
    as [->|[->|[->| ->]]]; simpl.
  - reflexivity.
  - apply R_duplicate.
  - apply R_short.
  - by apply R_rewrite.
Qed.

Lemma turn_relaxed_body e n :
  e ∈ entries -> keeps R (relaxed_body E feed_url feed_title e n).
Proof.
  intros He w.
  destruct (relaxed_body_turn E feed_url feed_title e n w)
    as [->|[[_ ->]| ->]]; simpl.
  - reflexivity.
  - reflexivity.
  - by apply R_rewrite.
Qed.

Lemma turns_feed_loop (body : entry -> nat -> M nat) some :
  (forall e n, e ∈ entries -> keeps R (body e n)) ->
  (forall e, e ∈ some -> e ∈ entries) ->
  forall n, keeps R (feed_loop body articles_to_fetch some n).
Proof.
  intros Hbody Hsome. apply (keeps_feed_loop R). apply Forall_forall.
  intros e He n. apply Hbody. by apply Hsome.
Qed.

Lemma turns_retry_and_count n :
  keeps R (retry_and_count E feed_url feed_title articles_to_fetch
             min_word_count entries n).
Proof.
  unfold retry_and_count. apply (keeps_bind R).
  - destruct (_ && _); [|apply (keeps_ret R)].
    apply (keeps_bind R); [intros w; apply R_retry|]. intros _.
    by apply turns_feed_loop; [apply turn_relaxed_body|].
  - intros n2. apply (keeps_bind R); [|intros _; apply (keeps_ret R)].
    intros w. apply R_counted.
Qed.

(** The first pass from the entries [some] on, then the retry and the
    count of the feed. *)
Lemma turns_rest_of_feed some n :
  (forall e, e ∈ some -> e ∈ entries) ->
  keeps R
    (n1 <- feed_loop (strict_body E feed_url feed_title min_word_count)
             articles_to_fetch some n ;;
     retry_and_count E feed_url feed_title articles_to_fetch min_word_count
       entries n1)%py.
Proof.
  intros Hsome. apply (keeps_bind R).
  - by apply turns_feed_loop; [apply turn_strict_body|].
  - intros n1. apply turns_retry_and_count.
Qed.

End Turns.

(** ** The set and the rewrite requests *)

#[local] Instance tracked_preorder : PreOrder tracked.
Proof.
  split.
  - intros w. exists []. split; [done|]. simpl. by rewrite union_empty_r_L.
  - intros w1 w2 w3 (new1 & Ht1 & HP1) (new2 & Ht2 & HP2).
    exists (new2 ++ new1). split; [by rewrite Ht2, Ht1, List.app_assoc|].
    rewrite HP2, HP1, rewritten_ids_app, list_to_set_app_L.
    rewrite <- union_assoc_L. f_equal. apply union_comm_L.
Qed.

Lemma tracked_same w w' :
  PROCESSED_ARTICLES w' = PROCESSED_ARTICLES w -> trace w' = trace w ->
  tracked w w'.
Proof.
  intros HP Ht. exists []. split; [done|]. simpl. by rewrite union_empty_r_L.
Qed.

Lemma tracked_mark_and_rewrite E feed_url feed_title e n :
  keeps tracked (mark_and_rewrite E feed_url feed_title e n).
Proof.
  intros w. unfold mark_and_rewrite.
  match goal with |- tracked _ (?m w).2 => destruct (m w) as [r w'] eqn:Hrun end.
  unfold bind, mark_processed, modify in Hrun. simpl in Hrun.
  apply rewrite_and_post_effect_holds in Hrun
    as (HP & _ & new & Ht & Hids & _). simpl in *.
  exists new. split; [done|]. rewrite HP, Hids. simpl.
  rewrite union_empty_r_L. apply union_comm_L.
Qed.

Lemma tracked_rest_of_feed E feed_url feed_title articles_to_fetch
    min_word_count entries some n :
  (forall e, e ∈ some -> e ∈ entries) ->
  keeps tracked
    (n1 <- feed_loop (strict_body E feed_url feed_title min_word_count)
             articles_to_fetch some n ;;
     retry_and_count E feed_url feed_title articles_to_fetch min_word_count
       entries n1)%py.
Proof.
  apply turns_rest_of_feed; try apply _.
  - intros e w. by apply tracked_same.
  - intros e w. by apply tracked_same.
  - intros e k _. apply tracked_mark_and_rewrite.
  - intros w. by apply tracked_same.
  - intros w. by apply tracked_same.
Qed.

Lemma tracked_process_feed E feed_url articles_to_fetch min_word_count :
  keeps tracked (process_feed E feed_url articles_to_fetch min_word_count).
Proof.
  intros w. rewrite process_feed_passes.
  etrans; [|by apply tracked_rest_of_feed].
  exists [EvFetch feed_url]. split; [done|]. simpl. by rewrite union_empty_r_L.
Qed.

(** C1, as amended: a worker run alone sends an identifier (title, source
    URL) to the rewrite service at most once and never when the identifier
    was in the set before the run; the identifiers that enter the set
    during the run are exactly the ones sent to the rewrite service, and
    the publishing service accepts no more drafts than identifiers were
    sent.  In the first pass an entry whose identifier is in the set is
    skipped with duplicates_skipped raised by one, a line in the skip log
    and no other change; an entry skipped as short does not put its
    identifier in the set, so that a later entry with the same title and
    link and enough words is not a duplicate: it is marked and sent to the
    rewrite service. *)
Theorem worker_rewrites_identifier_once (E : env) (feed_url : string)
    (articles_to_fetch min_word_count : Z) :
  (forall w r w',
     process_feed E feed_url articles_to_fetch min_word_count w = (r, w') ->
     exists new, trace w' = new ++ trace w /\
       NoDup (rewritten_ids new) /\
       (forall id, id ∈ rewritten_ids new ->
          (id ∉ PROCESSED_ARTICLES w) /\ (id ∈ PROCESSED_ARTICLES w')) /\
       PROCESSED_ARTICLES w'
       = PROCESSED_ARTICLES w ∪ list_to_set (rewritten_ids new) /\
       inserts_ok new <= length (rewritten_ids new)) /\
  (forall feed_title e n w,
     content_readable e ->
     entry_id e ∈ PROCESSED_ARTICLES w ->
     strict_body E feed_url feed_title min_word_count e n w
     = (Ret n, skipped_duplicate feed_url e w)) /\
  (forall feed_title e1 e2 rest n w,
     content_readable e1 -> content_readable e2 ->
     entry_id e2 = entry_id e1 ->
     entry_id e1 ∉ PROCESSED_ARTICLES w ->
     (Z.of_nat (word_count (clean_text E (entry_text e1))) < min_word_count)%Z ->
     (min_word_count <= Z.of_nat (word_count (clean_text E (entry_text e2))))%Z ->
     (Z.of_nat n < articles_to_fetch)%Z ->
     feed_loop (strict_body E feed_url feed_title min_word_count)
       articles_to_fetch (e1 :: e2 :: rest) n w
     = (k <- mark_and_rewrite E feed_url feed_title e2 n ;;
        feed_loop (strict_body E feed_url feed_title min_word_count)
          articles_to_fetch rest k)%py
         (skipped_short E feed_url e1 w)).
Proof.
  split; [|split].
  - intros w r w' Hrun.
    pose proof (tracked_process_feed E feed_url articles_to_fetch
                  min_word_count w) as (new' & Ht' & HP).
    rewrite Hrun in Ht', HP. simpl in Ht', HP.
    apply process_feed_effect in Hrun as (_ & new & Ht & Hnd & Hids & _ & Hle & _).
    assert (new' = new) as -> by (apply (app_inv_tail (trace w)); congruence).
    exists new. repeat split; try done; try (by apply Hids).
    pose proof (rewrites_ok_le_ids new). lia.
  - intros *. apply strict_body_duplicate.
  - intros feed_title e1 e2 rest n w Hr1 Hr2 Hid Hnew Hshort Hlong Hn.
    apply Z.ltb_lt in Hn. cbn [feed_loop]. rewrite Hn. unfold bind at 1.
    rewrite strict_body_short by done. fold (skipped_short E feed_url e1 w).
    cbn [feed_loop]. rewrite Hn. unfold bind at 1.
    rewrite strict_body_long; [reflexivity | done | by rewrite Hid | lia].
Qed.

Lemma worker_rewrites_identifier_once_witness :
  let E := Sample.services Feeds.short_then_long (Some Sample.answer)
             (Some "post-1") in
  let rw := process_feed E Feeds.url ARTICLES_PER_FEED MIN_WORD_COUNT world0 in
  let short := Sample.article "Storm" Sample.short_text "http://news/storm" in
  let long := Sample.article "Storm" Sample.long_text "http://news/storm" in
  (exists new,
     trace rw.2 = new ++ [] /\ NoDup (rewritten_ids new) /\
     PROCESSED_ARTICLES rw.2 = ∅ ∪ list_to_set (rewritten_ids new)) /\
  (forall n,
     strict_body E Feeds.url "Channels_TV" MIN_WORD_COUNT long n rw.2
     = (Ret n, skipped_duplicate Feeds.url long rw.2)) /\
  feed_loop (strict_body E Feeds.url "Channels_TV" MIN_WORD_COUNT)
    ARTICLES_PER_FEED [short; long] 0 world0
  = (k <- mark_and_rewrite E Feeds.url "Channels_TV" long 0 ;;
     feed_loop (strict_body E Feeds.url "Channels_TV" MIN_WORD_COUNT)
       ARTICLES_PER_FEED [] k)%py
      (skipped_short E Feeds.url short world0).
Proof.
  intros E rw short long.
  destruct (worker_rewrites_identifier_once E Feeds.url ARTICLES_PER_FEED
              MIN_WORD_COUNT) as (Hrun & Hdup & Hlater).
  split; [|split].
  - destruct (Hrun world0 rw.1 rw.2) as (new & Ht & Hnd & _ & HP & _);
      [exact (surjective_pairing rw)|].
    exists new. split; [exact Ht|]. split; [exact Hnd | exact HP].
  - intros n. apply Hdup; [left; reflexivity | vm_compute; reflexivity].
  - apply Hlater; try (left; reflexivity); try reflexivity;
      try (vm_compute; reflexivity).
    + apply not_elem_of_empty.
    + vm_compute. discriminate.
Defined.

(** ** The skip log, the requests and the retry *)

Lemma tally_rest_of_feed E feed_url feed_title articles_to_fetch
    min_word_count entries some n :
  (forall e, e ∈ some -> e ∈ entries) ->
  keeps tally
    (n1 <- feed_loop (strict_body E feed_url feed_title min_word_count)
             articles_to_fetch some n ;;
     retry_and_count E feed_url feed_title articles_to_fetch min_word_count
       entries n1)%py.
Proof.
  apply turns_rest_of_feed; try apply _.
  - intros e w. eexists [_]. split; [done|]. unfold reason_count. simpl. lia.
  - intros e w. eexists [_]. split; [done|]. unfold reason_count. simpl. lia.
  - intros e k _. unfold mark_and_rewrite.
    apply (keeps_bind tally); [|intros _; apply tally_rewrite_and_post].
    intros w. by apply tally_same.
  - intros w. by apply tally_other_line.
  - intros w. by apply tally_same.
Qed.

Lemma asks_mark_and_rewrite E feed_url feed_title entries e n :
  e ∈ entries ->
  keeps (adds (asks_for E feed_url entries))
    (mark_and_rewrite E feed_url feed_title e n).
Proof.
  intros He. set (R := adds (asks_for E feed_url entries)).
  unfold mark_and_rewrite.
  apply (keeps_bind R); [intros w; by apply adds_same_trace|]. intros _.
  unfold rewrite_and_post. apply (keeps_bind R).
  { intros w. rewrite rewrite_article_cases. simpl. apply adds_push.
    by exists e. }
  intros d. apply (keeps_bind R).
  - destruct (truthy_dict d); [|apply (keeps_ret R)].
    apply (keeps_bind R); [|intros _; apply (keeps_ret R)].
    apply (keeps_post_to_blogger_draft E R (asks_for E feed_url entries)
             (fun _ => True)); try done.
    + intros ev w Hev. by apply adds_push.
    + intros f w _. by apply adds_same_trace.
  - intros n'. apply (keeps_bind R); [|intros _; apply (keeps_ret R)].
    intros w. by apply adds_push.
Qed.

Lemma asks_rest_of_feed E feed_url feed_title articles_to_fetch
    min_word_count entries some n :
  (forall e, e ∈ some -> e ∈ entries) ->
  keeps (adds (asks_for E feed_url entries))
    (n1 <- feed_loop (strict_body E feed_url feed_title min_word_count)
             articles_to_fetch some n ;;
     retry_and_count E feed_url feed_title articles_to_fetch min_word_count
       entries n1)%py.
Proof.
  apply turns_rest_of_feed; try apply _.
  - intros e w. by apply adds_same_trace.
  - intros e w. by apply adds_same_trace.
  - intros e k He. by apply asks_mark_and_rewrite.
  - intros w. by apply adds_same_trace.
  - intros w. by apply adds_same_trace.
Qed.

Lemma relaxed_body_marks E feed_url feed_title e n w k w1 :
  relaxed_body E feed_url feed_title e n w = (Ret k, w1) ->
  entry_id e ∈ PROCESSED_ARTICLES w1.
Proof.
  destruct (relaxed_body_turn E feed_url feed_title e n w)
    as [->|[[Hin ->]| ->]]; [done | by intros [= _ <-] |].
  unfold mark_and_rewrite, bind, mark_processed, modify. simpl. intros Hrun.
  apply rewrite_and_post_effect_holds in Hrun as (HP & _). simpl in HP.
  rewrite HP. apply elem_of_union_l. by apply elem_of_singleton.
Qed.

Lemma relaxed_loop_marks_all E feed_url feed_title articles_to_fetch :
  forall entries n w n' w',
    feed_loop (relaxed_body E feed_url feed_title) articles_to_fetch
      entries n w = (Ret n', w') ->
    (Z.of_nat n' < articles_to_fetch)%Z ->
    forall e, e ∈ entries -> entry_id e ∈ PROCESSED_ARTICLES w'.
Proof.
  induction entries as [|e0 rest IH]; intros n w n' w' Hrun Hn' e He.
  - by apply elem_of_nil in He.
  - cbn [feed_loop] in Hrun.
    destruct (Z.of_nat n <? articles_to_fetch)%Z eqn:Hlt.
    2: { injection Hrun as <- <-. apply Z.ltb_ge in Hlt. lia. }
    unfold bind in Hrun.
    destruct (relaxed_body E feed_url feed_title e0 n w) as [[k|ex] w1] eqn:Hb;
      [|done].
    apply elem_of_cons in He as [->|He]; [|by eapply IH].
    apply relaxed_body_marks in Hb.
    apply feed_loop_effect in Hrun as [HP _];
      [by apply HP | intros *; apply relaxed_body_effect].
Qed.

Lemma process_feed_marks_all E feed_url articles_to_fetch min_word_count
    w n w' :
  process_feed E feed_url articles_to_fetch min_word_count w = (Ret n, w') ->
  (Z.of_nat n < articles_to_fetch)%Z ->
  min_word_count <> (-1)%Z ->
  forall e,
    e ∈ f_entries (feedparser_parse E (trace w) feed_url) ->
    entry_id e ∈ PROCESSED_ARTICLES w'.
Proof.
  intros Hrun Hn Hm e He. rewrite process_feed_passes in Hrun.
  unfold bind at 1 in Hrun.
  match type of Hrun with
  | context [feed_loop ?b ?q ?es 0 ?w0] =>
      destruct (feed_loop b q es 0 w0) as [[n1|ex] w2]; [|done]
  end.
  unfold retry_and_count in Hrun. apply Z.eqb_neq in Hm. rewrite Hm in Hrun.
  simpl negb in Hrun. rewrite andb_true_r in Hrun.
  destruct (Z.of_nat n1 <? articles_to_fetch)%Z eqn:Hlt.
  - unfold bind, log_skipped_article, modify in Hrun. cbv iota beta in Hrun.
    match type of Hrun with
    | context [feed_loop ?b ?q ?es n1 ?w0] =>
        destruct (feed_loop b q es n1 w0) as [[n2|ex] w3] eqn:H2; [|done]
    end.
    unfold set_summary, modify, ret in Hrun. injection Hrun as <- <-. simpl.
    by eapply relaxed_loop_marks_all.
  - unfold bind, set_summary, modify, ret in Hrun. injection Hrun as <- <-.
    apply Z.ltb_ge in Hlt. lia.
Qed.

Lemma rewritten_ids_request E feed_url entries new id :
  Forall (asks_for E feed_url entries) new ->
  id ∈ rewritten_ids new ->
  exists e,
    e ∈ entries /\ id = entry_id e /\
    request_of E feed_url e ∈ rewritten_prompts new.
Proof.
  intros Hall Hid. apply list_elem_of_omap in Hid as (ev & Hev & Hid).
  rewrite Forall_forall in Hall. pose proof (Hall ev Hev) as Hask.
  destruct ev as [|id' prompt answer| | | |]; try done.
  injection Hid as ->. destruct Hask as (e & He & -> & ->).
  exists e. split; [done|]. split; [done|].
  apply list_elem_of_omap. by eexists.
Qed.




(** ** Failures and the pool *)

Lemma returned_cons {A} (r : result A) rs :
  returned (r :: rs)
  = (match r with Ret _ => 1 | Raise _ => 0 end) + returned rs.
Proof. unfold returned. simpl. by destruct r. Qed.

Lemma pool_counts E articles_to_fetch min_word_count feeds :
  forall w,
    exists rs w1 new,
      executor_map
        (fun feed => process_feed E feed articles_to_fetch min_word_count)
        feeds w = (Ret rs, w1) /\
      length rs = length feeds /\
      (forall e, Raise e ∈ rs -> e = IndexError \/ e = SystemExit 1) /\
      feeds_processed (SUMMARY w1) = feeds_processed (SUMMARY w) + returned rs /\
      trace w1 = new ++ trace w /\
      articles_posted (SUMMARY w1) = articles_posted (SUMMARY w) + inserts_ok new /\
      (no_fatal_condition E -> returned rs = length feeds).
Proof.
  induction feeds as [|feed rest IH]; intros w.
  - exists [], w, []. simpl. unfold returned, inserts_ok, count. simpl.
    repeat split; try lia. intros e He. by apply elem_of_nil in He.
  - cbn [executor_map]. unfold bind at 1, run_task.
    destruct (process_feed E feed articles_to_fetch min_word_count w)
      as [r w0] eqn:Hrun.
    destruct (IH w0) as (rs & w1 & new1 & Hmap & Hlen & Hexn & Hfeeds & Ht1
                         & Hposted & Hall).
    unfold bind. rewrite Hmap. unfold ret.
    pose proof (process_feed_effect _ _ _ _ _ _ _ Hrun)
      as (_ & new0 & Ht0 & _ & _ & Hposted0 & _ & Hcount).
    exists (r :: rs), w1, (new1 ++ new0). rewrite returned_cons.
    split; [done|]. split; [simpl; lia|]. split; [|split; [|split; [|split]]].
    + intros e [Heq|He]%elem_of_cons; [|by apply Hexn].
      subst r. by apply raises_process_feed in Hrun.
    + destruct r as [n|e].
      * destruct (Hcount n eq_refl) as [_ Hf]. lia.
      * apply process_feed_not_counted in Hrun. lia.
    + by rewrite Ht1, Ht0, List.app_assoc.
    + unfold inserts_ok in *. rewrite count_app. lia.
    + intros Hok. rewrite (Hall Hok).
      destruct (process_feed_returns E Hok feed articles_to_fetch
                  min_word_count w) as (n & w' & Hret).
      rewrite Hret in Hrun. by injection Hrun as <- _.
Qed.



